(** * Correction-learning pipeline of the reading aid (learn.py, pp6.py, train.py)

    A shallow embedding of the text-processing core of the repository:
    the word-level mistake extractor, the rule synthesizer (both copies),
    the correction applicator, the normalization pass of [cleanText], the
    spell checking pass, the two writers of the sample store, the
    capture and repeat functions of the device, and learn.py and train.py
    as programs.

    Python strings are sequences of code points; the embedding covers the
    code points below 256, one [ascii] per code point.  The two library
    modules the source leans on, [re] and [difflib], are embedded for the
    fragment the source exercises. *)

From Stdlib Require Import Ascii String List Arith Bool ZArith Lia.
From Stdlib Require Import DecimalString DecimalPos DecimalZ.
From Stdlib Require Import Sorted Permutation.
From stdpp Require Import gmap strings.
Import ListNotations.

Local Open Scope nat_scope.
Local Open Scope list_scope.

(** ** Outcomes of fallible calls *)

(** [Returned v]: the Python call returns [v].  [Raised]: it raises an
    exception.  [Unmodelled]: the call leaves the embedded fragment of
    [re] (a construct of the pattern language that is not embedded). *)
Inductive outcome (A : Type) : Type :=
| Returned (v : A)
| Raised
| Unmodelled.
Arguments Returned {A} v.
Arguments Raised {A}.
Arguments Unmodelled {A}.

Definition obind {A B} (o : outcome A) (f : A -> outcome B) : outcome B :=
  match o with
  | Returned v => f v
  | Raised => Raised
  | Unmodelled => Unmodelled
  end.

(** ** Characters *)

Module Chars.

Definition code (c : ascii) : nat := nat_of_ascii c.

Definition in_range (lo hi : nat) (c : ascii) : bool :=
  (lo <=? code c) && (code c <=? hi).

(** [str.isdecimal]-digits below U+0100: only 0-9. *)
Definition is_digit (c : ascii) : bool := in_range 48 57 c.

Definition is_ascii_letter (c : ascii) : bool :=
  in_range 65 90 c || in_range 97 122 c.

(** [str.isspace] below U+0100; also what [\s] and [str.split()] use. *)
Definition is_space (c : ascii) : bool :=
  in_range 9 13 c || in_range 28 32 c || (code c =? 133) || (code c =? 160).

(** [\w]: alphanumeric in the Unicode sense, or underscore. *)
Definition is_word (c : ascii) : bool :=
  is_digit c || is_ascii_letter c || (code c =? 95)
  || (code c =? 170) || (code c =? 178) || (code c =? 179)
  || (code c =? 181) || (code c =? 185) || (code c =? 186)
  || in_range 188 190 c || in_range 192 214 c
  || in_range 216 246 c || in_range 248 255 c.

Definition ascii_eqb (a b : ascii) : bool := Ascii.eqb a b.

End Chars.

Definition text := list ascii.

Definition T (s : string) : text := list_ascii_of_string s.

(** ** The [re] fragment *)

Module Re.
Import Chars.

(** One member of a character set. *)
Inductive citem : Type :=
| CLit (c : ascii)
| CRange (lo hi : ascii)
| CDigit (positive : bool)
| CSpace (positive : bool)
| CWord (positive : bool)
| CAnyButNewline.

Inductive regex : Type :=
| REmpty
| RSet (negated : bool) (items : list citem)
| RBoundary (positive : bool)
| RSeq (r1 r2 : regex)
| RRepeat (r : regex) (lo : nat) (unbounded : bool)
| RGroup (n : nat) (r : regex).

Definition citem_match (i : citem) (c : ascii) : bool :=
  match i with
  | CLit a => ascii_eqb a c
  | CRange lo hi => in_range (code lo) (code hi) c
  | CDigit p => Bool.eqb (is_digit c) p
  | CSpace p => Bool.eqb (is_space c) p
  | CWord p => Bool.eqb (is_word c) p
  | CAnyButNewline => negb (code c =? 10)
  end.

Definition set_match (negated : bool) (items : list citem) (c : ascii) : bool :=
  xorb negated (existsb (fun i => citem_match i c) items).

(** A position in the subject: the character before it, the characters
    from it on, its index, and the groups captured so far (latest first). *)
Record mstate : Type := MState {
  ms_prev : option ascii;
  ms_rest : text;
  ms_pos : nat;
  ms_caps : list (nat * text)
}.

Definition word_opt (o : option ascii) : bool :=
  match o with Some c => is_word c | None => false end.

Definition at_boundary (st : mstate) : bool :=
  xorb (word_opt (ms_prev st)) (word_opt (hd_error (ms_rest st))).

(** Whether [\b] (positive) or [\B] holds at a position; on the empty
    subject neither does. *)
Definition boundary_test (positive : bool) (st : mstate) : bool :=
  match ms_prev st, ms_rest st with
  | None, [] => false
  | _, _ => Bool.eqb (at_boundary st) positive
  end.

Definition set_cap (n : nat) (from : mstate) (upto : mstate) : mstate :=
  MState (ms_prev upto) (ms_rest upto) (ms_pos upto)
         ((n, firstn (ms_pos upto - ms_pos from) (ms_rest from)) :: ms_caps upto).

(** The loop of a greedy repeat around the matcher [body] of the
    repeated item: one more iteration if it can be had, the rest of the
    pattern otherwise.  [last] is where the previous iteration past the
    minimum started: the engine does not start another one at the same
    place (its protection against zero-width loops). *)
Definition same_place (last : option nat) (st : mstate) : bool :=
  match last with
  | Some p => p =? ms_pos st
  | None => false
  end.

Fixpoint repeat_loop (body : mstate -> (mstate -> option mstate) -> option mstate)
  (lo : nat) (unbounded : bool) (k : mstate -> option mstate)
  (fuel count : nat) (last : option nat) (st0 : mstate) {struct fuel}
  : option mstate :=
  match fuel with
  | 0 => if lo <=? count then k st0 else None
  | S fuel' =>
      if count <? lo then
        body st0 (fun st' => repeat_loop body lo unbounded k fuel' (S count) last st')
      else if (unbounded || (count <? 1)) && negb (same_place last st0) then
        match body st0 (fun st' =>
                 repeat_loop body lo unbounded k fuel' (S count)
                             (Some (ms_pos st0)) st') with
        | Some e => Some e
        | None => k st0
        end
      else k st0
  end.

(** Backtracking matcher in continuation style: [k] is what remains of the
    pattern. *)
Fixpoint rmatch (r : regex) (st : mstate) (k : mstate -> option mstate)
  {struct r} : option mstate :=
  match r with
  | REmpty => k st
  | RSet neg items =>
      match ms_rest st with
      | c :: rest' =>
          if set_match neg items c
          then k (MState (Some c) rest' (S (ms_pos st)) (ms_caps st))
          else None
      | [] => None
      end
  | RBoundary p => if boundary_test p st then k st else None
  | RSeq r1 r2 => rmatch r1 st (fun st' => rmatch r2 st' k)
  | RGroup n r1 => rmatch r1 st (fun st' => k (set_cap n st st'))
  | RRepeat r1 lo unbounded =>
      repeat_loop (rmatch r1) lo unbounded k
                  (lo + 2 * List.length (ms_rest st) + 2) 0 None st
  end.

(** One attempt at one position.  [must_advance] refuses the empty match
    (set by [sub] after an empty match at the same place). *)
Definition match_at (r : regex) (must_advance : bool) (st : mstate) : option mstate :=
  rmatch r (MState (ms_prev st) (ms_rest st) (ms_pos st) [])
         (fun e => if must_advance && (ms_pos e =? ms_pos st) then None else Some e).

(** [re.search]: leftmost position with a match, as (start, end). *)
Fixpoint search_from (r : regex) (prev : option ascii) (rest : text) (pos : nat)
  : option (nat * mstate) :=
  match match_at r false (MState prev rest pos []) with
  | Some e => Some (pos, e)
  | None =>
      match rest with
      | [] => None
      | c :: rest' => search_from r (Some c) rest' (S pos)
      end
  end.

Definition search (r : regex) (s : text) : option (nat * mstate) :=
  search_from r None s 0.

Definition found (r : regex) (s : text) : bool :=
  match search r s with Some _ => true | None => false end.

(** *** Patterns as text *)

Inductive parsed (A : Type) : Type :=
| POk (v : A)
| PError
| PUnsupported.
Arguments POk {A} v.
Arguments PError {A}.
Arguments PUnsupported {A}.

Definition is_special (c : ascii) : bool :=
  existsb (ascii_eqb c) (T ".\[{()*+?^$|").

(** Escape outside a set. *)
Definition escape_item (c : ascii) : parsed regex :=
  if ascii_eqb c "d" then POk (RSet false [CDigit true])
  else if ascii_eqb c "D" then POk (RSet false [CDigit false])
  else if ascii_eqb c "s" then POk (RSet false [CSpace true])
  else if ascii_eqb c "S" then POk (RSet false [CSpace false])
  else if ascii_eqb c "w" then POk (RSet false [CWord true])
  else if ascii_eqb c "W" then POk (RSet false [CWord false])
  else if ascii_eqb c "b" then POk (RBoundary true)
  else if ascii_eqb c "B" then POk (RBoundary false)
  else if ascii_eqb c "n" then POk (RSet false [CLit (ascii_of_nat 10)])
  else if ascii_eqb c "t" then POk (RSet false [CLit (ascii_of_nat 9)])
  else if ascii_eqb c "r" then POk (RSet false [CLit (ascii_of_nat 13)])
  else if ascii_eqb c "f" then POk (RSet false [CLit (ascii_of_nat 12)])
  else if ascii_eqb c "v" then POk (RSet false [CLit (ascii_of_nat 11)])
  else if ascii_eqb c "a" then POk (RSet false [CLit (ascii_of_nat 7)])
  else if existsb (ascii_eqb c) (T "AZxuUN") then PUnsupported
  else if is_digit c then PUnsupported
  else if is_ascii_letter c then PError
  else POk (RSet false [CLit c]).

(** Escape inside a set. *)
Definition class_escape_item (c : ascii) : parsed citem :=
  if ascii_eqb c "d" then POk (CDigit true)
  else if ascii_eqb c "D" then POk (CDigit false)
  else if ascii_eqb c "s" then POk (CSpace true)
  else if ascii_eqb c "S" then POk (CSpace false)
  else if ascii_eqb c "w" then POk (CWord true)
  else if ascii_eqb c "W" then POk (CWord false)
  else if ascii_eqb c "b" then POk (CLit (ascii_of_nat 8))
  else if ascii_eqb c "n" then POk (CLit (ascii_of_nat 10))
  else if ascii_eqb c "t" then POk (CLit (ascii_of_nat 9))
  else if ascii_eqb c "r" then POk (CLit (ascii_of_nat 13))
  else if ascii_eqb c "f" then POk (CLit (ascii_of_nat 12))
  else if ascii_eqb c "v" then POk (CLit (ascii_of_nat 11))
  else if ascii_eqb c "a" then POk (CLit (ascii_of_nat 7))
  else if existsb (ascii_eqb c) (T "xuUN") then PUnsupported
  else if is_digit c then PUnsupported
  else if is_ascii_letter c then PError
  else POk (CLit c).

Definition is_lit (i : citem) : option ascii :=
  match i with CLit c => Some c | _ => None end.

(** One member of a set, without the range that may follow it. *)
Definition class_member (s : text) : parsed (citem * text) :=
  match s with
  | [] => PError
  | c :: s1 =>
      if ascii_eqb c "\" then
        match s1 with
        | [] => PError
        | e :: s2 =>
            match class_escape_item e with
            | POk i => POk (i, s2)
            | PError => PError
            | PUnsupported => PUnsupported
            end
        end
      else POk (CLit c, s1)
  end.

(** The body of a set after [[] and the optional [^]; [first] is true
    until a member has been read (a leading [[]]] is a literal). *)
Fixpoint parse_class (fuel : nat) (first : bool) (acc : list citem) (s : text)
  : parsed (list citem * text) :=
  match fuel with
  | 0 => PUnsupported
  | S fuel' =>
      match s with
      | [] => PError
      | c :: s1 =>
          if ascii_eqb c "]" && negb first then POk (rev acc, s1)
          else
            match class_member s with
            | PError => PError
            | PUnsupported => PUnsupported
            | POk (i1, s2) =>
                match s2 with
                | d :: s3 =>
                    if ascii_eqb d "-" then
                      match s3 with
                      | [] => PError
                      | e :: s4 =>
                          if ascii_eqb e "]"
                          then POk (rev (CLit "-" :: i1 :: acc), s4)
                          else
                            match class_member s3 with
                            | PError => PError
                            | PUnsupported => PUnsupported
                            | POk (i2, s5) =>
                                match is_lit i1, is_lit i2 with
                                | Some lo, Some hi =>
                                    if code lo <=? code hi
                                    then parse_class fuel' false (CRange lo hi :: acc) s5
                                    else PError
                                | _, _ => PError
                                end
                            end
                      end
                    else parse_class fuel' false (i1 :: acc) s2
                | [] => PError
                end
            end
      end
  end.

Definition is_repeat (r : regex) : bool :=
  match r with RRepeat _ _ _ => true | _ => false end.

Definition is_at (r : regex) : bool :=
  match r with RBoundary _ => true | _ => false end.

Fixpoint seq_of (items : list regex) : regex :=
  match items with
  | [] => REmpty
  | [r] => r
  | r :: rs => RSeq r (seq_of rs)
  end.

(** Quantifier on the item read last ([acc] holds the items in reverse). *)
Definition quantify (acc : list regex) (lo : nat) (unbounded : bool) (s : text)
  : parsed (list regex) :=
  match acc with
  | [] => PError
  | r :: acc' =>
      if is_at r then PError
      else if is_repeat r then PError
      else
        match s with
        | c :: _ =>
            if ascii_eqb c "?" || ascii_eqb c "+" then PUnsupported
            else POk (RRepeat r lo unbounded :: acc')
        | [] => POk (RRepeat r lo unbounded :: acc')
        end
  end.

(** A sequence of items up to the end of the text or an unconsumed [)].
    [ng] counts the groups opened so far. *)
Fixpoint parse_items (fuel : nat) (acc : list regex) (ng : nat) (s : text)
  : parsed (regex * nat * text) :=
  match fuel with
  | 0 => PUnsupported
  | S fuel' =>
      match s with
      | [] => POk (seq_of (rev acc), ng, [])
      | c :: s1 =>
          if ascii_eqb c ")" then POk (seq_of (rev acc), ng, s)
          else if ascii_eqb c "\" then
            match s1 with
            | [] => PError
            | e :: s2 =>
                match escape_item e with
                | POk r => parse_items fuel' (r :: acc) ng s2
                | PError => PError
                | PUnsupported => PUnsupported
                end
            end
          else if ascii_eqb c "[" then
            let '(neg, s2) :=
              match s1 with
              | d :: s2 => if ascii_eqb d "^" then (true, s2) else (false, s1)
              | [] => (false, s1)
              end in
            match parse_class fuel' true [] s2 with
            | POk (items, s3) => parse_items fuel' (RSet neg items :: acc) ng s3
            | PError => PError
            | PUnsupported => PUnsupported
            end
          else if ascii_eqb c "*" then
            match quantify acc 0 true s1 with
            | POk acc' => parse_items fuel' acc' ng s1
            | PError => PError
            | PUnsupported => PUnsupported
            end
          else if ascii_eqb c "+" then
            match quantify acc 1 true s1 with
            | POk acc' => parse_items fuel' acc' ng s1
            | PError => PError
            | PUnsupported => PUnsupported
            end
          else if ascii_eqb c "?" then
            match quantify acc 0 false s1 with
            | POk acc' => parse_items fuel' acc' ng s1
            | PError => PError
            | PUnsupported => PUnsupported
            end
          else if ascii_eqb c "." then
            parse_items fuel' (RSet false [CAnyButNewline] :: acc) ng s1
          else if ascii_eqb c "(" then
            match s1 with
            | d :: _ =>
                if ascii_eqb d "?" then PUnsupported
                else
                  match parse_items fuel' [] (S ng) s1 with
                  | POk (body, ng', s2) =>
                      match s2 with
                      | _ :: s3 => parse_items fuel' (RGroup (S ng) body :: acc) ng' s3
                      | [] => PError
                      end
                  | PError => PError
                  | PUnsupported => PUnsupported
                  end
            | [] => PError
            end
          else if is_special c then PUnsupported
          else parse_items fuel' (RSet false [CLit c] :: acc) ng s1
      end
  end.

(** [re.compile]: the pattern and its number of groups. *)
Definition compile (p : text) : parsed (regex * nat) :=
  match parse_items (S (List.length p)) [] 0 p with
  | POk (r, ng, []) => POk (r, ng)
  | POk (_, _, _ :: _) => PError
  | PError => PError
  | PUnsupported => PUnsupported
  end.

(** *** Replacement templates *)

Inductive titem : Type :=
| TLit (c : ascii)
| TGroup (n : nat).

Definition digit_val (c : ascii) : nat := code c - 48.

Fixpoint read_digits (s : text) (acc : nat) : nat * text :=
  match s with
  | c :: s' => if is_digit c then read_digits s' (10 * acc + digit_val c) else (acc, s)
  | [] => (acc, s)
  end.

Definition is_octal (c : ascii) : bool := in_range 48 55 c.

(** [parse_template]: [groups] is the number of groups of the pattern. *)
Fixpoint parse_template (fuel : nat) (groups : nat) (s : text) : parsed (list titem) :=
  match fuel with
  | 0 => PUnsupported
  | S fuel' =>
      let cons i r :=
        match r with
        | POk l => POk (i :: l)
        | PError => PError
        | PUnsupported => PUnsupported
        end in
      let group n s' :=
        if n <=? groups then cons (TGroup n) (parse_template fuel' groups s')
        else PError in
      match s with
      | [] => POk []
      | c :: s1 =>
          if negb (ascii_eqb c "\") then cons (TLit c) (parse_template fuel' groups s1)
          else
            match s1 with
            | [] => PError
            | e :: s2 =>
                if ascii_eqb e "g" then
                  match s2 with
                  | lt :: d :: s3 =>
                      if ascii_eqb lt "<" && is_digit d then
                        match read_digits (d :: s3) 0 with
                        | (n, gt :: s4) =>
                            if ascii_eqb gt ">" then group n s4 else PUnsupported
                        | (_, []) => PError
                        end
                      else PUnsupported
                  | _ => PError
                  end
                else if ascii_eqb e "0" then PUnsupported
                else if is_digit e then
                  match s2 with
                  | d :: s3 =>
                      if is_digit d then
                        match s3 with
                        | o :: _ =>
                            if is_octal e && is_octal d && is_octal o then PUnsupported
                            else group (10 * digit_val e + digit_val d) s3
                        | [] => group (10 * digit_val e + digit_val d) s3
                        end
                      else group (digit_val e) s2
                  | [] => group (digit_val e) s2
                  end
                else if ascii_eqb e "n" then cons (TLit (ascii_of_nat 10)) (parse_template fuel' groups s2)
                else if ascii_eqb e "t" then cons (TLit (ascii_of_nat 9)) (parse_template fuel' groups s2)
                else if ascii_eqb e "r" then cons (TLit (ascii_of_nat 13)) (parse_template fuel' groups s2)
                else if ascii_eqb e "f" then cons (TLit (ascii_of_nat 12)) (parse_template fuel' groups s2)
                else if ascii_eqb e "v" then cons (TLit (ascii_of_nat 11)) (parse_template fuel' groups s2)
                else if ascii_eqb e "a" then cons (TLit (ascii_of_nat 7)) (parse_template fuel' groups s2)
                else if ascii_eqb e "b" then cons (TLit (ascii_of_nat 8)) (parse_template fuel' groups s2)
                else if ascii_eqb e "\" then cons (TLit "\") (parse_template fuel' groups s2)
                else if is_ascii_letter e then PError
                else cons (TLit c) (cons (TLit e) (parse_template fuel' groups s2))
            end
      end
  end.

Definition compile_template (groups : nat) (repl : text) : parsed (list titem) :=
  parse_template (S (List.length repl)) groups repl.

Fixpoint cap_get (caps : list (nat * text)) (n : nat) : text :=
  match caps with
  | [] => []
  | (m, t) :: caps' => if m =? n then t else cap_get caps' n
  end.

(** Group 0 is the whole match; a group that took no part expands to
    the empty string. *)
Definition expand (tmpl : list titem) (whole : text) (caps : list (nat * text)) : text :=
  flat_map (fun i => match i with
                     | TLit c => [c]
                     | TGroup 0 => whole
                     | TGroup n => cap_get caps n
                     end) tmpl.

Definition matched_text (st e : mstate) : text :=
  firstn (ms_pos e - ms_pos st) (ms_rest st).

(** The scan of [re.sub]: replace the non-overlapping matches from left to
    right; an empty match is followed by an attempt at the same place that
    has to advance. *)
Fixpoint sub_walk (fuel : nat) (r : regex) (tmpl : list titem)
  (prev : option ascii) (rest : text) (pos : nat) {struct fuel} : text :=
  match fuel with
  | 0 => rest
  | S fuel' =>
      let st := MState prev rest pos [] in
      let copy (_ : unit) :=
        match rest with
        | [] => []
        | c :: rest' => c :: sub_walk fuel' r tmpl (Some c) rest' (S pos)
        end in
      let resume e :=
        expand tmpl (matched_text st e) (ms_caps e)
        ++ sub_walk fuel' r tmpl (ms_prev e) (ms_rest e) (ms_pos e) in
      match match_at r false st with
      | None => copy tt
      | Some e =>
          if ms_pos e =? pos then
            expand tmpl [] (ms_caps e)
            ++ match match_at r true st with
               | Some e2 => resume e2
               | None => copy tt
               end
          else resume e
      end
  end.

(** [re.sub(pattern, repl, s)] on strings. *)
Definition sub (pattern repl s : text) : outcome text :=
  match compile pattern with
  | PError => Raised
  | PUnsupported => Unmodelled
  | POk (r, groups) =>
      match compile_template groups repl with
      | PError => Raised
      | PUnsupported => Unmodelled
      | POk tmpl => Returned (sub_walk (S (List.length s)) r tmpl None s 0)
      end
  end.

(** [re.search(pattern, s)] used as a truth value. *)
Definition search_text (pattern s : text) : outcome bool :=
  match compile pattern with
  | PError => Raised
  | PUnsupported => Unmodelled
  | POk (r, _) => Returned (found r s)
  end.

(** [re.escape]. *)
Definition escape_special (c : ascii) : bool :=
  existsb (ascii_eqb c) (T "()[]{}?*+-|^$\.&~# ")
  || in_range 9 13 c.

Definition escape (s : text) : text :=
  flat_map (fun c => if escape_special c then ["\"%char; c] else [c]) s.

End Re.

(** ** String methods *)

Module Str.
Import Chars.

Definition text_eqb (s t : text) : bool :=
  bool_decide (s = t).

Fixpoint starts_with (p s : text) : bool :=
  match p, s with
  | [], _ => true
  | c :: p', d :: s' => ascii_eqb c d && starts_with p' s'
  | _ :: _, [] => false
  end.

(** [p in s]. *)
Fixpoint contains (p s : text) : bool :=
  starts_with p s ||
  match s with
  | [] => false
  | _ :: s' => contains p s'
  end.

Definition ends_with (p s : text) : bool := starts_with (rev p) (rev s).

(** [s.replace(old, new)] for a one-character [old]. *)
Definition replace_char (old : ascii) (new : text) (s : text) : text :=
  flat_map (fun c => if ascii_eqb c old then new else [c]) s.

Fixpoint lstrip (s : text) : text :=
  match s with
  | c :: s' => if is_space c then lstrip s' else s
  | [] => []
  end.

Definition strip (s : text) : text := rev (lstrip (rev (lstrip s))).

(** [s.split()]: the maximal runs of non-whitespace; [cur] is the run
    being read, in reverse. *)
Fixpoint split_go (cur : text) (s : text) : list text :=
  match s with
  | [] => match cur with [] => [] | _ => [rev cur] end
  | c :: s' =>
      if is_space c
      then match cur with [] => split_go [] s' | _ => rev cur :: split_go [] s' end
      else split_go (c :: cur) s'
  end.

Definition split (s : text) : list text := split_go [] s.

(** [sep.join(parts)]. *)
Fixpoint join (sep : text) (parts : list text) : text :=
  match parts with
  | [] => []
  | [p] => p
  | p :: parts' => p ++ sep ++ join sep parts'
  end.

Definition lower_char (c : ascii) : ascii :=
  if in_range 65 90 c || (in_range 192 222 c && negb (code c =? 215))
  then ascii_of_nat (code c + 32) else c.

Definition lower (s : text) : text := map lower_char s.

(** Case, below U+0100. *)
Definition is_upper_char (c : ascii) : bool :=
  in_range 65 90 c || (in_range 192 222 c && negb (code c =? 215)).

Definition is_lower_char (c : ascii) : bool :=
  in_range 97 122 c || (code c =? 170) || (code c =? 181) || (code c =? 186)
  || (in_range 223 255 c && negb (code c =? 247)).

(** [s.isupper()]: no lowercase character and at least one uppercase
    character. *)
Definition isupper (s : text) : bool :=
  forallb (fun c => negb (is_lower_char c)) s && existsb is_upper_char s.

(** The uppercase of one character; the micro sign and y with diaeresis
    have theirs beyond U+00FF, outside the embedded code points. *)
Definition upper_char (c : ascii) : outcome text :=
  if (code c =? 181) || (code c =? 255) then Unmodelled
  else if code c =? 223 then Returned ["S"%char; "S"%char]
  else if in_range 97 122 c || (in_range 224 254 c && negb (code c =? 247))
  then Returned [ascii_of_nat (code c - 32)]
  else Returned [c].

(** [s.upper()]. *)
Fixpoint upper (s : text) : outcome text :=
  match s with
  | [] => Returned []
  | c :: s' =>
      obind (upper_char c) (fun u =>
      obind (upper s') (fun rest => Returned (u ++ rest)))
  end.

(** The titlecase of one character. *)
Definition title_char (c : ascii) : outcome text :=
  if code c =? 223 then Returned ["S"%char; "s"%char] else upper_char c.

(** [s.capitalize()]. *)
Definition capitalize (s : text) : outcome text :=
  match s with
  | [] => Returned []
  | c :: s' => obind (title_char c) (fun t => Returned (t ++ lower s'))
  end.

(** [s.replace(old, new)] for a non-empty [old]: [skip] counts the
    characters of a match still to pass over. *)
Fixpoint replace_go (old new : text) (skip : nat) (s : text) : text :=
  match s with
  | [] => []
  | c :: s' =>
      match skip with
      | S k => replace_go old new k s'
      | 0 =>
          if starts_with old s
          then new ++ replace_go old new (List.length old - 1) s'
          else c :: replace_go old new 0 s'
      end
  end.

(** [s.replace(old, new)]. *)
Definition replace (old new s : text) : text :=
  match old with
  | [] => new ++ flat_map (fun c => c :: new) s
  | _ :: _ => replace_go old new 0 s
  end.

(** [str(n)] for an integer. *)
Definition of_Z (z : Z) : text := T (NilZero.string_of_int (Z.to_int z)).

End Str.

(** ** The correction rule set *)

Record pattern_fix : Type := PatternFix {
  pattern : text;
  replacement : text;
  description : text
}.

(** Dictionaries whose iteration order is observable are kept as
    association lists in insertion order, keys unique. *)
Record rule_set : Type := RuleSet {
  word_replacements : list (text * text);
  pattern_fixes : list pattern_fix;
  context_corrections : list (text * text)
}.

Definition empty_rules : rule_set := RuleSet [] [] [].

(** ** pp6.py: applying the rules and cleaning the text *)

Module Applicator.

Definition LEARNING_ENABLED : bool := true.

(** Threads the text through one [re.sub] per rule; the first call that
    raises ends the loop. *)
Fixpoint sub_each {R : Type} (pat repl : R -> text) (rules : list R) (txt : text)
  : outcome text :=
  match rules with
  | [] => Returned txt
  | r :: rules' =>
      obind (Re.sub (pat r) (repl r) txt) (sub_each pat repl rules')
  end.

Definition word_pattern (entry : text * text) : text :=
  T "\b" ++ Re.escape (fst entry) ++ T "\b".

Definition apply_learned_corrections (learned_corrections : rule_set) (txt : text)
  : outcome text :=
  if negb LEARNING_ENABLED then Returned txt
  else
    obind (sub_each word_pattern snd (word_replacements learned_corrections) txt)
          (sub_each pattern replacement (pattern_fixes learned_corrections)).

(** The standard cleanup of [cleanText], lines 437-456. *)
Definition standard_cleanup (t0 : text) : outcome text :=
  obind (Re.sub (T "\$[Oo]") (T "$0") t0) (fun t1 =>
  obind (Re.sub (T "\$[lI]") (T "$1") t1) (fun t2 =>
  obind (Re.sub (T "(\d)[Oo](\d)") (T "\1 0 \2") t2) (fun t3 =>
  obind (Re.sub (T "(\d)[lI](\d)") (T "\1 1 \2") t3) (fun t4 =>
  obind (Re.sub (T "[Oo](\d)") (T "0\1") t4) (fun t5 =>
  obind (Re.sub (T "(\d)[Oo]") (T "\1 0") t5) (fun t6 =>
  obind (Re.sub (T "(\d)\s*:\s*(\d)") (T "\1:\2") t6) (fun t7 =>
  obind (Re.sub (T "(\d)\s*/\s*(\d)") (T "\1/\2") t7) (fun t8 =>
  obind (Re.sub (T "\$(\d+\.?\d*)") (T "\1 dollars ") t8) (fun t9 =>
  let t10 := Str.replace_char "%" (T " percent ") t9 in
  let t11 := Str.replace_char "&" (T " and ") t10 in
  let t12 := Str.replace_char "@" (T " at ") t11 in
  let t13 := Str.replace_char "#" (T " number ") t12 in
  let t14 := Str.replace_char "+" (T " plus ") t13 in
  let t15 := Str.replace_char "=" (T " equals ") t14 in
  let t16 := Str.replace_char "*" (T " times ") t15 in
  let t17 := Str.replace_char (ascii_of_nat 176) (T " degrees ") t16 in
  obind (Re.sub (T "\s+") (T " ") t17) (fun t18 =>
  Returned (Str.strip t18))))))))))).

(** The body of the [try] of [cleanText]: what would be written back.
    [apply_spellcheck] is the spell checker as a collaborator (it catches
    its own exceptions and returns a string). *)
Definition clean_pipeline (learned_corrections : rule_set)
  (apply_spellcheck : text -> text) (raw : text) : outcome text :=
  obind (Re.sub (T "\s+") (T " ") raw) (fun t1 =>
  obind (Re.sub (T "\$\s+") (T "$") t1) (fun t2 =>
  obind (apply_learned_corrections learned_corrections t2) (fun t3 =>
  standard_cleanup (apply_spellcheck t3)))).

(** [cleanText]: the content of /tmp/text.txt before and after.  An
    exception anywhere in the body is caught and logged, and the file is
    not written. *)
Definition cleanText (learned_corrections : rule_set)
  (apply_spellcheck : text -> text) (file : text) : outcome text :=
  match clean_pipeline learned_corrections apply_spellcheck file with
  | Returned t => Returned t
  | Raised => Returned file
  | Unmodelled => Unmodelled
  end.

End Applicator.

(** ** pp6.py: the spell checking pass *)

Module Spell.
Import Re.

(** The object of pyspellchecker as the source uses it: [word in spell]
    and [spell.correction(word)]; either call may raise. *)
Record checker : Type := Checker {
  known : text -> outcome bool;
  correction : text -> outcome (option text)
}.

(** The end of the subject as [$] takes it: the very end, or the place
    before a final newline. *)
Definition at_end (e : mstate) : option mstate :=
  match ms_rest e with
  | [] => Some e
  | [c] => if Chars.code c =? 10 then Some e else None
  | _ :: _ :: _ => None
  end.

(** [re.match(r'^[\d\$\.\,\%\@\#]+$', word)] as a truth value: the
    pattern between the anchors matched from the start, to the end. *)
Definition is_number_like (word : text) : outcome bool :=
  match compile (T "[\d\$\.\,\%\@\#]+") with
  | POk (r, _) =>
      Returned (match rmatch r (MState None word 0 []) at_end with
                | Some _ => true
                | None => false
                end)
  | PError => Raised
  | PUnsupported => Unmodelled
  end.

(** The body of the loop over the words (lines 103-143): the word to
    append. *)
Definition check_word (spell : checker) (word : text) : outcome text :=
  obind (is_number_like word) (fun numeric =>
  if numeric then Returned word
  else if List.length word <=? 2 then Returned word
  else
    obind (sub (T "[^\w]") [] word) (fun clean_word =>
    match clean_word with
    | [] => Returned word
    | first :: _ =>
        obind (known spell (Str.lower clean_word)) (fun correct =>
        if correct then Returned word
        else
          obind (correction spell clean_word) (fun suggestion =>
          match suggestion with
          | None => Returned word
          | Some c =>
              if negb (Str.text_eqb c [])
                 && negb (Str.text_eqb c (Str.lower clean_word))
              then
                obind (if Str.isupper clean_word then Str.upper c
                       else if Str.is_upper_char first then Str.capitalize c
                       else Returned c) (fun fixed =>
                Returned (Str.replace clean_word fixed word))
              else Returned word
          end))
    end)).

Fixpoint check_words (spell : checker) (words : list text) : outcome (list text) :=
  match words with
  | [] => Returned []
  | word :: words' =>
      obind (check_word spell word) (fun w =>
      obind (check_words spell words') (fun rest => Returned (w :: rest)))
  end.

(** [apply_spellcheck]; [spell] is [None] until the checker has been
    initialized.  An exception in the body gives the text back as it
    came. *)
Definition apply_spellcheck (USE_SPELLCHECK : bool) (spell : option checker)
  (txt : text) : outcome text :=
  if negb USE_SPELLCHECK then Returned txt
  else
    match spell with
    | None => Returned txt
    | Some sp =>
        match check_words sp (Str.split txt) with
        | Returned corrected_words => Returned (Str.join (T " ") corrected_words)
        | Raised => Returned txt
        | Unmodelled => Unmodelled
        end
    end.

End Spell.

(** ** The [difflib.SequenceMatcher] fragment

    [SequenceMatcher(None, a, b)]: no junk predicate, [autojunk] on. *)

Module Difflib.

Definition block : Type := (nat * nat * nat)%type.
Definition window : Type := (nat * nat * nat * nat)%type.

Inductive tag : Type := Replace | Delete | Insert | Equal.

Definition opcode : Type := (tag * nat * nat * nat * nat)%type.

Section SequenceMatcher.
Variables a b : list text.

(** The positions of [x] in [l], counted from [j], in increasing order. *)
Fixpoint indices_from (x : text) (l : list text) (j : nat) : list nat :=
  match l with
  | [] => []
  | y :: l' =>
      if Str.text_eqb x y then j :: indices_from x l' (S j)
      else indices_from x l' (S j)
  end.

(** [__chain_b]: with 200 elements or more, an element occurring more
    than [n // 100 + 1] times is "popular" and loses its entry. *)
Definition popular (x : text) : bool :=
  (200 <=? List.length b)
  && (List.length b / 100 + 1 <? List.length (indices_from x b 0)).

(** [b2j.get(x, [])]. *)
Definition b2j (x : text) : list nat :=
  if popular x then [] else indices_from x b 0.

(** [j2len]: a dictionary from positions of [b] to run lengths. *)
Fixpoint dget (d : list (nat * nat)) (key : nat) : nat :=
  match d with
  | [] => 0
  | (k, v) :: d' => if k =? key then v else dget d' key
  end.

(** [j2len.get(j-1, 0)]. *)
Definition dget_pred (d : list (nat * nat)) (j : nat) : nat :=
  match j with
  | 0 => 0
  | S j' => dget d j'
  end.

(** The inner loop of [find_longest_match] for row [i]. *)
Fixpoint row (i blo bhi : nat) (js : list nat) (j2len newj2len : list (nat * nat))
  (best : block) : list (nat * nat) * block :=
  match js with
  | [] => (newj2len, best)
  | j :: js' =>
      if j <? blo then row i blo bhi js' j2len newj2len best
      else if bhi <=? j then (newj2len, best)
      else
        let k := dget_pred j2len j + 1 in
        let best' := if snd best <? k then (i + 1 - k, j + 1 - k, k) else best in
        row i blo bhi js' j2len ((j, k) :: newj2len) best'
  end.

(** The outer loop, over [range(alo, ahi)]. *)
Fixpoint rows (range : list nat) (blo bhi : nat) (j2len : list (nat * nat))
  (best : block) : block :=
  match range with
  | [] => best
  | i :: range' =>
      match nth_error a i with
      | None => best
      | Some x =>
          let '(newj2len, best') := row i blo bhi (b2j x) j2len [] best in
          rows range' blo bhi newj2len best'
      end
  end.

Definition same_at (i j : nat) : bool :=
  match nth_error a i, nth_error b j with
  | Some x, Some y => Str.text_eqb x y
  | _, _ => false
  end.

(** The two loops that extend the best block; the set of junk elements
    is empty, so the tests on it are constant and the junk-extending
    loops never run. *)
Fixpoint extend_left (fuel alo blo : nat) (best : block) : block :=
  match fuel with
  | 0 => best
  | S fuel' =>
      let '(besti, bestj, bestsize) := best in
      if (alo <? besti) && (blo <? bestj) && same_at (besti - 1) (bestj - 1)
      then extend_left fuel' alo blo (besti - 1, bestj - 1, bestsize + 1)
      else best
  end.

Fixpoint extend_right (fuel ahi bhi : nat) (best : block) : block :=
  match fuel with
  | 0 => best
  | S fuel' =>
      let '(besti, bestj, bestsize) := best in
      if (besti + bestsize <? ahi) && (bestj + bestsize <? bhi)
         && same_at (besti + bestsize) (bestj + bestsize)
      then extend_right fuel' ahi bhi (besti, bestj, bestsize + 1)
      else best
  end.

Definition find_longest_match (w : window) : block :=
  let '(alo, ahi, blo, bhi) := w in
  let best := rows (seq alo (ahi - alo)) blo bhi [] (alo, blo, 0) in
  let best1 := extend_left (fst (fst best)) alo blo best in
  extend_right ahi ahi bhi best1.

(** The work-list loop of [get_matching_blocks]; the head of [queue] is
    the window appended last. *)
Fixpoint blocks_loop (fuel : nat) (queue : list window) (found : list block)
  : option (list block) :=
  match queue with
  | [] => Some (rev found)
  | (alo, ahi, blo, bhi) :: queue' =>
      match fuel with
      | 0 => None
      | S fuel' =>
          let '(i, j, k) := find_longest_match (alo, ahi, blo, bhi) in
          if k =? 0 then blocks_loop fuel' queue' found
          else
            let q1 := if (alo <? i) && (blo <? j)
                      then (alo, i, blo, j) :: queue' else queue' in
            let q2 := if (i + k <? ahi) && (j + k <? bhi)
                      then (i + k, ahi, j + k, bhi) :: q1 else q1 in
            blocks_loop fuel' q2 ((i, j, k) :: found)
      end
  end.

End SequenceMatcher.

(** Tuple order of the blocks, for [matching_blocks.sort()]. *)
Definition block_leb (x y : block) : bool :=
  let '(i1, j1, k1) := x in
  let '(i2, j2, k2) := y in
  (i1 <? i2) || ((i1 =? i2) && ((j1 <? j2) || ((j1 =? j2) && (k1 <=? k2)))).

Fixpoint insert_block (x : block) (l : list block) : list block :=
  match l with
  | [] => [x]
  | y :: l' => if block_leb x y then x :: l else y :: insert_block x l'
  end.

Definition sort_blocks (l : list block) : list block :=
  fold_right insert_block [] l.

(** Merging of adjacent blocks; [cur] is [(i1, j1, k1)]. *)
Fixpoint collapse (cur : block) (l : list block) : list block :=
  let '(i1, j1, k1) := cur in
  match l with
  | [] => if k1 =? 0 then [] else [cur]
  | (i2, j2, k2) :: l' =>
      if (i1 + k1 =? i2) && (j1 + k1 =? j2) then collapse (i1, j1, k1 + k2) l'
      else (if k1 =? 0 then [] else [cur]) ++ collapse (i2, j2, k2) l'
  end.

Definition loop_fuel (a b : list text) : nat := 2 * List.length a + 2.

Definition get_matching_blocks (a b : list text) : list block :=
  let la := List.length a in
  let lb := List.length b in
  let matching_blocks :=
    match blocks_loop a b (loop_fuel a b) [(0, la, 0, lb)] [] with
    | Some l => l
    | None => []
    end in
  collapse (0, 0, 0) (sort_blocks matching_blocks) ++ [(la, lb, 0)].

Fixpoint opcodes_from (i j : nat) (blocks : list block) : list opcode :=
  match blocks with
  | [] => []
  | (ai, bj, size) :: blocks' =>
      let gap :=
        if (i <? ai) && (j <? bj) then [(Replace, i, ai, j, bj)]
        else if i <? ai then [(Delete, i, ai, j, bj)]
        else if j <? bj then [(Insert, i, ai, j, bj)]
        else [] in
      let eq := if size =? 0 then []
                else [(Equal, ai, ai + size, bj, bj + size)] in
      gap ++ eq ++ opcodes_from (ai + size) (bj + size) blocks'
  end.

Definition get_opcodes (a b : list text) : list opcode :=
  opcodes_from 0 0 (get_matching_blocks a b).

End Difflib.

(** ** Training samples *)

Record sample : Type := Sample {
  id : text;
  timestamp : Z;
  ocr_text : text;
  corrected_text : text;
  image_path : text
}.

(** ** The extractor and the synthesizer of learn.py *)

Module Learn.
Import Difflib.

(** [word_changes]: wrong word, then right word, then count; both levels
    in insertion order. *)
Definition counts : Type := list (text * nat).
Definition changes : Type := list (text * counts).

Fixpoint lookup_counts (wc : changes) (wrong : text) : counts :=
  match wc with
  | [] => []
  | (w, rights) :: wc' => if Str.text_eqb w wrong then rights else lookup_counts wc' wrong
  end.

Fixpoint lookup_count (rights : counts) (right : text) : nat :=
  match rights with
  | [] => 0
  | (r, n) :: rights' => if Str.text_eqb r right then n else lookup_count rights' right
  end.

Fixpoint bump_right (rights : counts) (right : text) : counts :=
  match rights with
  | [] => [(right, 1)]
  | (r, n) :: rights' =>
      if Str.text_eqb r right then (r, n + 1) :: rights'
      else (r, n) :: bump_right rights' right
  end.

(** [word_changes[wrong][right] += 1]. *)
Fixpoint bump (wc : changes) (obs : text * text) : changes :=
  match wc with
  | [] => [(fst obs, [(snd obs, 1)])]
  | (w, rights) :: wc' =>
      if Str.text_eqb w (fst obs) then (w, bump_right rights (snd obs)) :: wc'
      else (w, rights) :: bump wc' obs
  end.

(** The pairs of one opcode (lines 70-77). *)
Definition opcode_pairs (ocr_words correct_words : list text) (op : opcode)
  : list (text * text) :=
  let '(tg, i1, i2, j1, j2) := op in
  match tg with
  | Replace =>
      flat_map (fun ij =>
                  match nth_error ocr_words (fst ij), nth_error correct_words (snd ij) with
                  | Some wrong_word, Some right_word => [(wrong_word, right_word)]
                  | _, _ => []
                  end)
               (combine (seq i1 (i2 - i1)) (seq j1 (j2 - j1)))
  | _ => []
  end.

(** The observations of one sample (lines 52-77), in the order in which
    they are counted. *)
Definition sample_observations (s : sample) : list (text * text) :=
  if Str.text_eqb (ocr_text s) (corrected_text s) then []
  else
    let ocr_words := Str.split (ocr_text s) in
    let correct_words := Str.split (corrected_text s) in
    flat_map (opcode_pairs ocr_words correct_words)
             (get_opcodes ocr_words correct_words).

Definition observations (samples : list sample) : list (text * text) :=
  flat_map sample_observations samples.

Definition analyze_corrections (samples : list sample) : changes :=
  fold_left (fun wc s => fold_left bump (sample_observations s) wc) samples [].

(** [max(rights.items(), key=lambda x: x[1])]: the first item with the
    greatest count; nothing for an empty dictionary. *)
Definition max_item (rights : counts) : option (text * nat) :=
  match rights with
  | [] => None
  | x :: xs => Some (fold_left (fun best y => if snd best <? snd y then y else best) xs x)
  end.

(** [d[key] = value] on an insertion-ordered dictionary. *)
Fixpoint dict_set (d : list (text * text)) (key value : text) : list (text * text) :=
  match d with
  | [] => [(key, value)]
  | (k, v) :: d' =>
      if Str.text_eqb k key then (k, value) :: d'
      else (k, v) :: dict_set d' key value
  end.

Fixpoint dict_get (d : list (text * text)) (key : text) : option text :=
  match d with
  | [] => None
  | (k, v) :: d' => if Str.text_eqb k key then Some v else dict_get d' key
  end.

(** The loop over [word_changes.items()] (lines 94-99); [max] of an
    empty dictionary raises. *)
Fixpoint store_replacements (wc : changes) (wr : list (text * text))
  : outcome (list (text * text)) :=
  match wc with
  | [] => Returned wr
  | (wrong, rights) :: wc' =>
      match max_item rights with
      | None => Raised
      | Some (most_common_fix, _) =>
          let count := lookup_count rights most_common_fix in
          if 2 <=? count
          then store_replacements wc' (dict_set wr wrong most_common_fix)
          else store_replacements wc' wr
      end
  end.

(** [re.search(p, s)] as a condition, for the constant patterns. *)
Definition re_search (p s : text) : bool :=
  match Re.search_text p s with
  | Returned found => found
  | _ => false
  end.

Definition qq_rule : pattern_fix :=
  PatternFix (T "(\d+)\.qq\b") (T "\1.99") (T "qq at end of price -> 99").
Definition dollar_rule : pattern_fix :=
  PatternFix (T "\$[Oo]") (T "$0") (T "$O or $o -> $0").
Definition one_rule : pattern_fix :=
  PatternFix (T "(\d)[lI](\d)") (T "\g<1>1\2") (T "l or I between numbers -> 1").
Definition zero_rule : pattern_fix :=
  PatternFix (T "(\d)[Oo](\d)") (T "\g<1>0\2") (T "O in numbers -> 0").

Definition qq_evidence (s : sample) : bool :=
  Str.contains (T "qq") (ocr_text s) && Str.contains (T "99") (corrected_text s).
Definition dollar_evidence (s : sample) : bool :=
  Str.contains (T "$O") (ocr_text s) || Str.contains (T "$o") (ocr_text s).
Definition one_evidence (s : sample) : bool :=
  re_search (T "\d[lI]\d") (ocr_text s) && re_search (T "\d1\d") (corrected_text s).
Definition zero_evidence (s : sample) : bool :=
  re_search (T "\dO\d") (ocr_text s) && re_search (T "\d0\d") (corrected_text s).

(** One hypothesis of the catalogue: [if any(...): append]. *)
Definition gated (evidence : sample -> bool) (rule : pattern_fix) (samples : list sample)
  : list pattern_fix :=
  if existsb evidence samples then [rule] else [].

Definition create_learned_corrections (word_changes : changes) (samples : list sample)
  : outcome rule_set :=
  obind (store_replacements word_changes []) (fun wr =>
  Returned (RuleSet wr
              (gated qq_evidence qq_rule samples
               ++ gated dollar_evidence dollar_rule samples
               ++ gated one_evidence one_rule samples
               ++ gated zero_evidence zero_rule samples)
              [])).

(** Steps 2 and 3 of [main]. *)
Definition learn (samples : list sample) : outcome rule_set :=
  create_learned_corrections (analyze_corrections samples) samples.

End Learn.

(** ** The synthesizer of pp6.py *)

Module Pp6.
Import Learn.

Definition one_evidence (s : sample) : bool :=
  re_search (T "\dl") (ocr_text s) && re_search (T "\d1") (corrected_text s).

(** [learn_from_corrections] on the loaded [samples] and the global
    [learned_corrections]: the returned flag and the global afterwards.
    The last [except] turns any exception into [False]. *)
Definition learn_from_corrections (samples : list sample) (learned_corrections : rule_set)
  : bool * rule_set :=
  if List.length samples <? 5 then (false, learned_corrections)
  else
    let word_changes :=
      fold_left (fun wc s => fold_left bump (sample_observations s) wc) samples [] in
    match store_replacements word_changes (word_replacements learned_corrections) with
    | Returned wr =>
        let char_patterns :=
          gated qq_evidence qq_rule samples
          ++ gated dollar_evidence dollar_rule samples
          ++ gated one_evidence one_rule samples in
        (true, RuleSet wr char_patterns (context_corrections learned_corrections))
    | _ => (false, learned_corrections)
    end.

End Pp6.

(** ** The sample store *)

Inductive jval : Type :=
| JStr (s : text)
| JInt (z : Z).

(** A file is a JSON object or anything else (an image, text that is not
    a JSON object). *)
Inductive file : Type :=
| FJson (d : gmap text jval)
| FBlob (bytes : text).

Module Store.

(** [os.path.join] of two components. *)
Definition path_join (d name : text) : text :=
  if Str.starts_with (T "/") name then name
  else if Str.text_eqb d [] || Str.ends_with (T "/") d then d ++ name
  else d ++ T "/" ++ name.

Definition LEARNING_DIR : text := T "/home/admin/pi/corrections/".
Definition TRAINING_DATA_DIR : text := path_join LEARNING_DIR (T "training_data").

Definition sample_id_of (timestamp : Z) : text := T "sample_" ++ Str.of_Z timestamp.

Definition image_dest_of (timestamp : Z) : text :=
  path_join TRAINING_DATA_DIR (sample_id_of timestamp ++ T ".jpg").

Definition metadata_path_of (timestamp : Z) : text :=
  path_join TRAINING_DATA_DIR (sample_id_of timestamp ++ T ".json").

Definition metadata_of (timestamp : Z) (ocr : text) : gmap text jval :=
  <[T "id" := JStr (sample_id_of timestamp)]>
  (<[T "timestamp" := JInt timestamp]>
  (<[T "ocr_text" := JStr ocr]>
  (<[T "corrected_text" := JStr ocr]>
  (<[T "image_path" := JStr (image_dest_of timestamp)]> ∅)))).

(** pp6.py [save_training_sample]; [now] is [int(time.time())].  The
    copy fails when there is no source image or when source and
    destination are the same file. *)
Definition save_training_sample (now : Z) (image : text) (ocr : text)
  (fs : gmap text file) : bool * gmap text file :=
  let image_dest := image_dest_of now in
  match fs !! image with
  | None => (false, fs)
  | Some img =>
      if Str.text_eqb image image_dest then (false, fs)
      else
        let fs1 := <[image_dest := img]> fs in
        (true, <[metadata_path_of now := FJson (metadata_of now ocr)]> fs1)
  end.

End Store.

(** ** train.py: the correction tool *)

Module Train.

Definition TRAINING_DIR : text := T "/home/admin/pi/ai_models/training_data/".

Fixpoint text_ltb (s t : text) : bool :=
  match s, t with
  | _, [] => false
  | [], _ :: _ => true
  | c :: s', d :: t' =>
      (Chars.code c <? Chars.code d)
      || ((Chars.code c =? Chars.code d) && text_ltb s' t')
  end.

(** [x < y] on sort keys; [None] is the [TypeError] of a mixed pair. *)
Definition key_ltb (x y : jval) : option bool :=
  match x, y with
  | JInt m, JInt n => Some (Z.ltb m n)
  | JStr s, JStr t => Some (text_ltb s t)
  | _, _ => None
  end.

Definition same_kind (x y : jval) : bool :=
  match key_ltb x y with Some _ => true | None => false end.

Definition key_lt (x y : jval) : bool :=
  match key_ltb x y with Some c => c | None => false end.

Fixpoint insert_sorted (x : jval * gmap text jval) (l : list (jval * gmap text jval))
  : list (jval * gmap text jval) :=
  match l with
  | [] => [x]
  | y :: l' => if key_lt (fst x) (fst y) then x :: l else y :: insert_sorted x l'
  end.

Fixpoint with_keys (samples : list (gmap text jval))
  : outcome (list (jval * gmap text jval)) :=
  match samples with
  | [] => Returned []
  | s :: samples' =>
      match s !! T "timestamp" with
      | None => Raised
      | Some k => obind (with_keys samples') (fun l => Returned ((k, s) :: l))
      end
  end.

(** [sorted(samples, key=lambda x: x['timestamp'])]: stable; comparing
    keys of different types raises. *)
Definition sorted_by_timestamp (samples : list (gmap text jval))
  : outcome (list (gmap text jval)) :=
  obind (with_keys samples) (fun keyed =>
  match keyed with
  | [] => Returned []
  | (k0, _) :: _ =>
      if forallb (fun kd => same_kind k0 (fst kd)) keyed
      then Returned (map snd (fold_left (fun acc x => insert_sorted x acc) keyed []))
      else Raised
  end).

Fixpoint read_samples (fs : gmap text file) (names : list text)
  : outcome (list (gmap text jval)) :=
  match names with
  | [] => Returned []
  | filename :: names' =>
      if Str.ends_with (T ".json") filename then
        let path := Store.path_join TRAINING_DIR filename in
        match fs !! path with
        | Some (FJson data) =>
            obind (read_samples fs names') (fun rest =>
            Returned (<[T "json_path" := JStr path]> data :: rest))
        | _ => Raised
        end
      else read_samples fs names'
  end.

(** [load_samples]; [names] is what [os.listdir(TRAINING_DIR)] returns. *)
Definition load_samples (fs : gmap text file) (names : list text)
  : outcome (list (gmap text jval)) :=
  obind (read_samples fs names) sorted_by_timestamp.

(** [save_sample]: opening the file for writing empties it before the
    dictionary to dump is built. *)
Definition save_sample (smp : gmap text jval) (fs : gmap text file)
  : outcome unit * gmap text file :=
  match smp !! T "json_path" with
  | Some (JStr path) =>
      match smp !! T "id", smp !! T "timestamp", smp !! T "ocr_text",
            smp !! T "corrected_text", smp !! T "image_path" with
      | Some i, Some t, Some o, Some c, Some p =>
          (Returned tt,
           <[path := FJson (<[T "id" := i]> (<[T "timestamp" := t]>
                           (<[T "ocr_text" := o]> (<[T "corrected_text" := c]>
                           (<[T "image_path" := p]> ∅)))))]> fs)
      | _, _, _, _, _ => (Raised, <[path := FBlob []]> fs)
      end
  | _ => (Raised, fs)
  end.

(** The loop of [main] over the loaded samples; [inputs] are the lines
    typed at the prompts.  The store when the program ends, whether by
    finishing, by [q], or by an uncaught exception. *)
Fixpoint correct_loop (samples : list (gmap text jval)) (inputs : list text)
  (fs : gmap text file) : gmap text file :=
  match samples with
  | [] => fs
  | smp :: samples' =>
      match smp !! T "id", smp !! T "image_path", smp !! T "ocr_text" with
      | Some _, Some _, Some ocr =>
          let current_correction :=
            match smp !! T "corrected_text" with Some c => c | None => ocr end in
          match inputs with
          | [] => fs
          | line :: inputs' =>
              let choice := Str.strip line in
              if Str.text_eqb (Str.lower choice) (T "q") then fs
              else if Str.text_eqb (Str.lower choice) (T "s")
              then correct_loop samples' inputs' fs
              else
                let smp' :=
                  if Str.text_eqb choice []
                  then <[T "corrected_text" := current_correction]> smp
                  else <[T "corrected_text" := JStr choice]> smp in
                match save_sample smp' fs with
                | (Returned _, fs') => correct_loop samples' inputs' fs'
                | (_, fs') => fs'
                end
          end
      | _, _, _ => fs
      end
  end.

(** [main]: [listing] is [None] when the training directory is missing. *)
Definition main (listing : option (list text)) (inputs : list text)
  (fs : gmap text file) : gmap text file :=
  match listing with
  | None => fs
  | Some names =>
      match load_samples fs names with
      | Returned samples => correct_loop samples inputs fs
      | _ => fs
      end
  end.

End Train.

(** ** learn.py as a program *)

Module Learner.
Import Learn.

Definition LEARNING_DIR : text := T "/home/admin/pi/corrections/".
Definition TRAINING_DATA_DIR : text := Store.path_join LEARNING_DIR (T "training_data").

(** The loop of [load_training_samples] over [os.listdir].  A file that
    cannot be opened is skipped with a warning; a file that is not a
    JSON object with string and integer members is outside the embedded
    fragment. *)
Fixpoint read_all (fs : gmap text file) (names : list text)
  : outcome (list (gmap text jval)) :=
  match names with
  | [] => Returned []
  | filename :: names' =>
      if Str.ends_with (T ".json") filename then
        match fs !! Store.path_join TRAINING_DATA_DIR filename with
        | Some (FJson smp) =>
            obind (read_all fs names') (fun rest => Returned (smp :: rest))
        | Some (FBlob _) => Unmodelled
        | None => read_all fs names'
        end
      else read_all fs names'
  end.

(** [load_training_samples]; [listing] is [None] when the directory
    does not exist. *)
Definition load_training_samples (listing : option (list text)) (fs : gmap text file)
  : outcome (list (gmap text jval)) :=
  match listing with
  | None => Returned []
  | Some names => read_all fs names
  end.

(** [sample.get(key, '')], where the code goes on to use the value as a
    string; a member that is not a string is outside the embedded
    fragment. *)
Definition get_text (d : gmap text jval) (key : text) : outcome text :=
  match d !! key with
  | None => Returned []
  | Some (JStr s) => Returned s
  | Some (JInt _) => Unmodelled
  end.

(** The two fields of a loaded dictionary that learn.py reads; the other
    fields of the record are left blank. *)
Definition as_sample (d : gmap text jval) : outcome sample :=
  obind (get_text d (T "ocr_text")) (fun ocr =>
  obind (get_text d (T "corrected_text")) (fun corrected =>
  Returned (Sample [] 0 ocr corrected []))).

Fixpoint as_samples (l : list (gmap text jval)) : outcome (list sample) :=
  match l with
  | [] => Returned []
  | d :: l' =>
      obind (as_sample d) (fun s =>
      obind (as_samples l') (fun rest => Returned (s :: rest)))
  end.

(** [main] up to the call of [save_corrections]: the rule set handed to
    it, or [None] when [main] returns before.  [answer] is the line
    typed at the prompt that comes with fewer than five samples. *)
Definition main (listing : option (list text)) (fs : gmap text file) (answer : text)
  : outcome (option rule_set) :=
  obind (load_training_samples listing fs) (fun loaded =>
  if List.length loaded =? 0 then Returned None
  else if (List.length loaded <? 5) && negb (Str.text_eqb (Str.lower answer) (T "y"))
  then Returned None
  else
    obind (as_samples loaded) (fun samples =>
    let word_changes := analyze_corrections samples in
    match word_changes with
    | [] => Returned None
    | _ :: _ =>
        obind (create_learned_corrections word_changes samples) (fun learned =>
        Returned (Some learned))
    end)).

End Learner.

(** ** pp6.py: [learn_from_corrections] on the files

    The function as it runs on the device: it loads the records itself,
    takes their fields as they come, and updates the global
    [learned_corrections] in place.  One [try] spans its body: whatever
    raises makes it return [False], with the global as it is by then. *)

Module Pp6Run.
Import Learn.

(** Lines 195-199, no handler per file.  For a file that is not a JSON
    object, [json.load] raises or returns a value on which line 213
    raises (unless line 204 ends the run first); in each case the run
    returns [False] with nothing learned, which [Raised] stands for. *)
Fixpoint read_all (fs : gmap text file) (names : list text)
  : outcome (list (gmap text jval)) :=
  match names with
  | [] => Returned []
  | filename :: names' =>
      if Str.ends_with (T ".json") filename then
        match fs !! Store.path_join Store.TRAINING_DATA_DIR filename with
        | Some (FJson smp) =>
            obind (read_all fs names') (fun rest => Returned (smp :: rest))
        | Some (FBlob _) => Raised
        | None => Raised
        end
      else read_all fs names'
  end.

(** Lines 213-235 for one sample: a missing field raises; equal fields
    are skipped whatever they are; [split] on a number raises. *)
Definition observe (smp : gmap text jval) : outcome (list (text * text)) :=
  match smp !! T "ocr_text" with
  | None => Raised
  | Some ocr =>
      match smp !! T "corrected_text" with
      | None => Raised
      | Some correct =>
          match ocr, correct with
          | JStr ocr_text, JStr correct_text =>
              Returned (sample_observations (Sample [] 0 ocr_text correct_text []))
          | JInt x, JInt y => if (x =? y)%Z then Returned [] else Raised
          | _, _ => Raised
          end
      end
  end.

(** The loop of lines 212-235 over the samples. *)
Fixpoint count_changes (samples : list (gmap text jval)) (word_changes : changes)
  : outcome changes :=
  match samples with
  | [] => Returned word_changes
  | smp :: samples' =>
      obind (observe smp) (fun obs =>
      count_changes samples' (fold_left bump obs word_changes))
  end.

(** Lines 238-241: the loop stores into the global as it goes; the flag
    tells whether it came to its end. *)
Fixpoint store_in_place (wc : changes) (wr : list (text * text))
  : bool * list (text * text) :=
  match wc with
  | [] => (true, wr)
  | (wrong, rights) :: wc' =>
      match max_item rights with
      | None => (false, wr)
      | Some (most_common_fix, _) =>
          if 2 <=? lookup_count rights most_common_fix
          then store_in_place wc' (dict_set wr wrong most_common_fix)
          else store_in_place wc' wr
      end
  end.

(** [s[key]] where the code needs a string: [in] and [re.search] raise
    on a number. *)
Definition text_of (smp : gmap text jval) (key : text) : outcome text :=
  match smp !! key with
  | Some (JStr s) => Returned s
  | _ => Raised
  end.

(** [any(test(s) for s in samples)]: it stops at the first sample for
    which the test holds. *)
Fixpoint any_lazy (test : gmap text jval -> outcome bool)
  (samples : list (gmap text jval)) : outcome bool :=
  match samples with
  | [] => Returned false
  | smp :: samples' =>
      obind (test smp) (fun found =>
      if found then Returned true else any_lazy test samples')
  end.

Definition qq_test (smp : gmap text jval) : outcome bool :=
  obind (text_of smp (T "ocr_text")) (fun ocr_text =>
  if Str.contains (T "qq") ocr_text
  then obind (text_of smp (T "corrected_text")) (fun correct_text =>
       Returned (Str.contains (T "99") correct_text))
  else Returned false).

Definition dollar_test (smp : gmap text jval) : outcome bool :=
  obind (text_of smp (T "ocr_text")) (fun ocr_text =>
  Returned (Str.contains (T "$O") ocr_text || Str.contains (T "$o") ocr_text)).

Definition one_test (smp : gmap text jval) : outcome bool :=
  obind (text_of smp (T "ocr_text")) (fun ocr_text =>
  if re_search (T "\dl") ocr_text
  then obind (text_of smp (T "corrected_text")) (fun correct_text =>
       Returned (re_search (T "\d1") correct_text))
  else Returned false).

(** Lines 244-265. *)
Definition char_patterns (samples : list (gmap text jval)) : outcome (list pattern_fix) :=
  obind (any_lazy qq_test samples) (fun qq =>
  obind (any_lazy dollar_test samples) (fun dollar =>
  obind (any_lazy one_test samples) (fun one =>
  Returned ((if qq then [qq_rule] else [])
            ++ (if dollar then [dollar_rule] else [])
            ++ (if one then [one_rule] else []))))).

(** [learn_from_corrections]: the returned flag and the global
    afterwards; [listing] is [None] when the training directory does not
    exist. *)
Definition learn_from_corrections (listing : option (list text))
  (fs : gmap text file) (learned_corrections : rule_set) : bool * rule_set :=
  match listing with
  | None => (false, learned_corrections)
  | Some names =>
      match read_all fs names with
      | Returned samples =>
          if List.length samples <? 5 then (false, learned_corrections)
          else
            match count_changes samples [] with
            | Returned word_changes =>
                let '(stored, wr) :=
                  store_in_place word_changes
                                 (word_replacements learned_corrections) in
                let updated :=
                  RuleSet wr (pattern_fixes learned_corrections)
                          (context_corrections learned_corrections) in
                if stored then
                  match char_patterns samples with
                  | Returned fixes =>
                      (true, RuleSet wr fixes (context_corrections learned_corrections))
                  | _ => (false, updated)
                  end
                else (false, updated)
            | _ => (false, learned_corrections)
            end
      | _ => (false, learned_corrections)
      end
  end.

End Pp6Run.

(** ** pp6.py: speaking, repeating, capturing *)

Module Device.

Definition TRAINING_MODE : bool := true.

(** What the functions below read and write: the global
    [last_text_read], the file /tmp/text.txt ([None]: no such file), the
    other files, the global [learned_corrections], and the texts handed
    to the speech synthesizer, latest first. *)
Record state : Type := State {
  last_text_read : text;
  text_file : option text;
  files : gmap text file;
  learned_corrections : rule_set;
  said : list text
}.

(** What [f.read()] returns for the content of a file opened in text
    mode, as [cleanText], [getData] and [playTTS] open /tmp/text.txt:
    the line ends \r\n and \r come as \n. *)
Fixpoint read_text (content : text) : text :=
  match content with
  | [] => []
  | c :: rest =>
      if Chars.code c =? 13 then
        ascii_of_nat 10
        :: match rest with
           | d :: rest' => if Chars.code d =? 10 then read_text rest' else read_text rest
           | [] => []
           end
      else c :: read_text rest
  end.

(** [speak(val, store_for_repeat)]; an exception of the synthesizer is
    caught and logged. *)
Definition speak (val : text) (store_for_repeat : bool) (st : state) : state :=
  State (if store_for_repeat then val else last_text_read st)
        (text_file st) (files st) (learned_corrections st) (val :: said st).

(** [playTTS]: an unreadable file ends it in the [except]. *)
Definition playTTS (st : state) : state :=
  match text_file st with
  | None => st
  | Some content =>
      let text_content := Str.strip (read_text content) in
      if Str.text_eqb text_content [] then speak (T "No text detected") false st
      else State text_content (text_file st) (files st) (learned_corrections st)
                 (text_content :: said st)
  end.

Definition repeatLastText (st : state) : state :=
  if Str.text_eqb (last_text_read st) [] then speak (T "No text to repeat") false st
  else speak (last_text_read st) false st.

(** [cleanText] on the state: the file is read in text mode and
    rewritten when the body of the [try] returns; an exception leaves it
    as it is. *)
Definition cleanText (apply_spellcheck : text -> text) (st : state) : outcome state :=
  match text_file st with
  | None => Returned st
  | Some content =>
      match Applicator.clean_pipeline (learned_corrections st) apply_spellcheck
                                      (read_text content) with
      | Returned cleaned =>
          Returned (State (last_text_read st) (Some cleaned) (files st)
                          (learned_corrections st) (said st))
      | Raised => Returned st
      | Unmodelled => Unmodelled
      end
  end.

(** [getData].  [photo] is what the camera writes to /tmp/image.jpg and
    [ocr] what Tesseract writes to /tmp/text.txt ([None]: the command
    fails and writes nothing); [now] is the clock read by
    [save_training_sample]. *)
Definition getData (photo ocr : option text) (now : Z)
  (apply_spellcheck : text -> text) (st : state) : outcome state :=
  let st1 :=
    match photo with
    | Some img => State (last_text_read st) (text_file st)
                        (<[T "/tmp/image.jpg" := FBlob img]> (files st))
                        (learned_corrections st) (said st)
    | None => st
    end in
  let st2 := speak (T "taking picture. hold still for 5 seconds") false st1 in
  let st3 :=
    match ocr with
    | Some t => State (last_text_read st2) (Some t) (files st2)
                      (learned_corrections st2) (said st2)
    | None => st2
    end in
  let st4 :=
    if TRAINING_MODE then
      match text_file st3 with
      | Some content =>
          let ocr_text := read_text content in
          let saved := Store.save_training_sample now (T "/tmp/image.jpg") ocr_text
                         (files st3) in
          speak (T "Training sample saved") false
                (State (last_text_read st3) (text_file st3) (snd saved)
                       (learned_corrections st3) (said st3))
      | None => st3
      end
    else st3 in
  obind (cleanText apply_spellcheck st4) (fun st5 => Returned (playTTS st5)).

(** The two buttons of the main loop. *)
Inductive event : Type :=
| Button1 (photo ocr : option text) (now : Z)
| Button2.

Definition step (apply_spellcheck : text -> text) (e : event) (st : state)
  : outcome state :=
  match e with
  | Button1 photo ocr now =>
      obind (getData photo ocr now apply_spellcheck st) (fun st' =>
      Returned (speak (if TRAINING_MODE then T "Sample saved. Ready for next"
                       else T "OK, ready") false st'))
  | Button2 => Returned (repeatLastText st)
  end.

Fixpoint run (apply_spellcheck : text -> text) (events : list event) (st : state)
  : outcome state :=
  match events with
  | [] => Returned st
  | e :: events' =>
      obind (step apply_spellcheck e st) (run apply_spellcheck events')
  end.

End Device.

(** ** Example data *)

Module Examples.

(** End-to-end example 2 of the specification. *)
Definition teh_corpus : list sample :=
  [Sample (T "sample_1") 1 (T "teh cat sat") (T "the cat sat") (T "1.jpg");
   Sample (T "sample_2") 2 (T "teh dog ran") (T "the dog ran") (T "2.jpg")].

(** End-to-end example 1 of the specification. *)
Definition qq_corpus : list sample :=
  [Sample (T "sample_1") 1 (T "price tag q2.qq") (T "price tag $2.99") (T "1.jpg");
   Sample (T "sample_2") 2 (T "total: qq cents") (T "total: 99 cents") (T "2.jpg")].

Definition five_corpus : list sample :=
  [Sample (T "sample_1") 1 (T "teh cat sat") (T "the cat sat") (T "1.jpg");
   Sample (T "sample_2") 2 (T "teh dog ran") (T "the dog ran") (T "2.jpg");
   Sample (T "sample_3") 3 (T "cost 5.qq") (T "cost 5.99") (T "3.jpg");
   Sample (T "sample_4") 4 (T "c") (T "c") (T "4.jpg");
   Sample (T "sample_5") 5 (T "d") (T "d") (T "5.jpg")].

(** Five samples, one of them with an O read for a 0 between digits. *)
Definition zero_corpus : list sample :=
  [Sample (T "sample_1") 1 (T "part 1O5") (T "part 105") (T "1.jpg");
   Sample (T "sample_2") 2 (T "a") (T "a") (T "2.jpg");
   Sample (T "sample_3") 3 (T "b") (T "b") (T "3.jpg");
   Sample (T "sample_4") 4 (T "c") (T "c") (T "4.jpg");
   Sample (T "sample_5") 5 (T "d") (T "d") (T "5.jpg")].

(** The word "teh" corrected to "ten" twice, then to "the" twice. *)
Definition tie_corpus : list sample :=
  [Sample (T "sample_1") 1 (T "teh cat") (T "ten cat") (T "1.jpg");
   Sample (T "sample_2") 2 (T "teh dog") (T "ten dog") (T "2.jpg");
   Sample (T "sample_3") 3 (T "teh sat") (T "the sat") (T "3.jpg");
   Sample (T "sample_4") 4 (T "teh ran") (T "the ran") (T "4.jpg");
   Sample (T "sample_5") 5 (T "d") (T "d") (T "5.jpg")].

(** One substituted word, the wrong word occurring again later. *)
Definition be_sample : sample :=
  Sample (T "sample_1") 1 (T "to be be") (T "to go be") (T "1.jpg").

(** 200 words on each side, one substituted. *)
Definition long_sample : sample :=
  Sample (T "sample_1") 1
    (T "x" ++ concat (repeat (T " a") 199))
    (T "y" ++ concat (repeat (T " a") 199)) (T "1.jpg").

(** A pattern fix whose pattern lost its closing parenthesis. *)
Definition damaged_rule : pattern_fix :=
  PatternFix (T "(\d+\.qq") (T "\1.99") (T "damaged entry").

Definition damaged_rules : rule_set :=
  RuleSet [] [damaged_rule; Learn.qq_rule] [].

Definition one_rules : rule_set := RuleSet [] [Learn.one_rule] [].

Definition teh_rules : rule_set := RuleSet [(T "teh", T "the")] [Learn.qq_rule] [].

Definition comma_rules : rule_set := RuleSet [(T "teh,", T "the,")] [] [].

(** A store that holds the camera image only. *)
Definition capture_store : gmap text file :=
  <[T "/tmp/image.jpg" := FBlob (T "jpeg")]> ∅.

Definition first_save : bool * gmap text file :=
  Store.save_training_sample 1700000000 (T "/tmp/image.jpg") (T "first page")
    capture_store.

(** A second capture within the same second, and one seven seconds
    later. *)
Definition same_second_save : bool * gmap text file :=
  Store.save_training_sample 1700000000 (T "/tmp/image.jpg") (T "second page")
    (snd first_save).

Definition later_save : bool * gmap text file :=
  Store.save_training_sample 1700000007 (T "/tmp/image.jpg") (T "second page")
    (snd first_save).

Definition tool_path : text := Train.TRAINING_DIR ++ T "sample_5.json".

Definition tool_store : gmap text file :=
  <[tool_path := FJson (Store.metadata_of 5 (T "teh cat"))]> ∅.

(** Two records in the directory of the tool, the later one listed
    first. *)
Definition two_store : gmap text file :=
  <[Train.TRAINING_DIR ++ T "sample_7.json" := FJson (Store.metadata_of 7 (T "a dog"))]>
  tool_store.

Definition two_listing : list text := [T "sample_7.json"; T "sample_5.json"].

(** The device after start-up, nothing read yet, no rule learned. *)
Definition boot : Device.state := Device.State [] None ∅ empty_rules [].

(** Two records of the training directory, corrected by hand. *)
Definition corrected_record (z : Z) (ocr corrected : text) : gmap text jval :=
  <[T "corrected_text" := JStr corrected]> (Store.metadata_of z ocr).

Definition learner_store : gmap text file :=
  <[Store.metadata_path_of 1 :=
      FJson (corrected_record 1 (T "teh cat sat") (T "the cat sat"))]>
  (<[Store.metadata_path_of 2 :=
      FJson (corrected_record 2 (T "teh dog ran") (T "the dog ran"))]> ∅).

(** A record whose two texts were turned into numbers, and the training
    directory of the device with five records, this one last. *)
Definition number_record (z : Z) : gmap text jval :=
  <[T "ocr_text" := JInt 5]> (<[T "corrected_text" := JInt 5]> (Store.metadata_of z [])).

Definition device_store : gmap text file :=
  <[Store.metadata_path_of 5 := FJson (number_record 5)]>
  (<[Store.metadata_path_of 4 := FJson (Store.metadata_of 4 (T "a"))]>
  (<[Store.metadata_path_of 3 := FJson (Store.metadata_of 3 (T "b"))]>
   learner_store)).

Definition device_listing : list text :=
  [T "sample_1.json"; T "sample_2.json"; T "sample_3.json"; T "sample_4.json";
   T "sample_5.json"].

(** A page on which Tesseract finds two words. *)
Definition page : text := T " teh  cat ".

(** A page with the line ends of another system, and one with a bare
    carriage return. *)
Definition dos_page : text :=
  T "teh" ++ [ascii_of_nat 13; ascii_of_nat 10] ++ T "cat" ++ [ascii_of_nat 13].

Definition cr_page : text := T "teh" ++ [ascii_of_nat 13] ++ T "cat".

(** The device after start-up with a rule set that [cleanText] cannot
    apply. *)
Definition damaged_boot : Device.state :=
  Device.State [] None ∅ damaged_rules [].

(** A checker that knows two words and has one suggestion. *)
Definition small_checker : Spell.checker :=
  Spell.Checker
    (fun w => Returned (Str.text_eqb w (T "the") || Str.text_eqb w (T "cat")))
    (fun w => Returned (if Str.text_eqb (Str.lower w) (T "teh")
                        then Some (T "the") else None)).

(** A checker whose dictionary fails at every lookup. *)
Definition broken_checker : Spell.checker :=
  Spell.Checker (fun _ => Raised) (fun _ => Raised).

End Examples.

(** ** Vocabulary of the statements *)

Module Spec.
Import Learn.

(** How often the pair (wrong, right) was observed. *)
Definition count_pair (wrong_word right_word : text) (obs : list (text * text)) : nat :=
  List.length (List.filter (fun o => Str.text_eqb (fst o) wrong_word
                                && Str.text_eqb (snd o) right_word) obs).

(** The replacement the synthesizer keeps for a wrong word, if any. *)
Definition chosen (wc : changes) (wrong_word : text) : option text :=
  match max_item (lookup_counts wc wrong_word) with
  | Some (m, _) =>
      if 2 <=? lookup_count (lookup_counts wc wrong_word) m then Some m else None
  | None => None
  end.



Definition keys_unique {V : Type} (d : list (text * V)) : Prop := List.NoDup (map fst d).

(** The table [wc] holds a count for the pair (wrong, right). *)
Definition seen (wc : changes) (wrong_word right_word : text) : Prop :=
  exists rights n, In (wrong_word, rights) wc /\ In (right_word, n) rights.

Definition well_formed (wc : changes) : Prop :=
  keys_unique wc /\ Forall (fun e => snd e <> [] /\ keys_unique (snd e)) wc.

(** One space for each run of whitespace; [in_run] tells that the
    character before was whitespace. *)
Fixpoint squeeze (in_run : bool) (s : text) : text :=
  match s with
  | [] => []
  | c :: s' =>
      if Chars.is_space c
      then (if in_run then squeeze true s' else " "%char :: squeeze true s')
      else c :: squeeze false s'
  end.

(** A word as [str.split()] returns them: not empty, no whitespace. *)
Definition is_token (w : text) : Prop :=
  w <> [] /\ Forall (fun c => Chars.is_space c = false) w.

(** The characters that [cleanText] spells out. *)
Definition symbols : text := T "%&@#+=*" ++ [ascii_of_nat 176].

(** The fields of a stored record that the correction tool has to
    leave alone. *)
Definition frame_keys : list text :=
  [T "id"; T "timestamp"; T "ocr_text"; T "image_path"].

Definition agrees (d d' : gmap text jval) : Prop :=
  forall k, In k frame_keys -> d' !! k = d !! k.

(** Every JSON record of [fs0] is still a JSON record in [fs], with the
    same frame fields. *)
Definition preserved (fs0 fs : gmap text file) : Prop :=
  forall p d, fs0 !! p = Some (FJson d) ->
    exists d', fs !! p = Some (FJson d') /\ agrees d d'.

(** The sample [a] may come before the sample [b] in the order of the
    timestamps: the timestamp of [b] is not less than that of [a]. *)
Definition in_order (a b : gmap text jval) : Prop :=
  forall ka kb, a !! T "timestamp" = Some ka -> b !! T "timestamp" = Some kb ->
                Train.key_lt kb ka = false.

(** The order that sorting establishes on the keyed samples. *)
Definition key_order (x y : jval * gmap text jval) : Prop :=
  Train.key_lt (fst y) (fst x) = false.

(** A record with the five fields of a sample and nothing else. *)
Definition plain_record (d : gmap text jval) : Prop :=
  exists i t o c p,
    d = <[T "id" := i]> (<[T "timestamp" := t]> (<[T "ocr_text" := o]>
        (<[T "corrected_text" := c]> (<[T "image_path" := p]> ∅)))).

(** A sample as [read_samples] builds it from a plain record of the
    store [fs]. *)
Definition plain_sample (fs : gmap text file) (smp : gmap text jval) : Prop :=
  exists p d, smp = <[T "json_path" := JStr p]> d
              /\ fs !! p = Some (FJson d) /\ plain_record d.

(** A line typed at the prompt that asks for no correction: empty, or
    the letter s or q in either case, whitespace around it aside. *)
Definition passive (line : text) : Prop :=
  Str.strip line = [] \/ Str.lower (Str.strip line) = T "s"
  \/ Str.lower (Str.strip line) = T "q".

(** The records of a directory that only [save_training_sample] has
    written to: every listed file named [*.json] that can be opened is a
    record as that function builds it. *)
Definition as_saved (fs : gmap text file) (names : list text) : Prop :=
  forall name f, In name names -> Str.ends_with (T ".json") name = true ->
    fs !! Store.path_join Learner.TRAINING_DATA_DIR name = Some f ->
    exists now ocr, f = FJson (Store.metadata_of now ocr).

(** What the repeat button can say in a state: nothing stored, or a
    text without whitespace at its ends that the device has said. *)
Definition repeatable (st : Device.state) : Prop :=
  Device.last_text_read st = []
  \/ (Device.last_text_read st <> []
      /\ Str.strip (Device.last_text_read st) = Device.last_text_read st
      /\ In (Device.last_text_read st) (Device.said st)).

(** A sample dictionary as [load_samples] hands it out. *)
Definition loaded_from (fs0 : gmap text file) (smp : gmap text jval) : Prop :=
  is_Some (smp !! T "timestamp")
  /\ exists p d, smp !! T "json_path" = Some (JStr p)
                 /\ fs0 !! p = Some (FJson d) /\ agrees d smp.

(** The characters of a number or a price: a digit or one of $ . , % @ #. *)
Definition price_char (c : ascii) : bool :=
  Chars.is_digit c || existsb (Chars.ascii_eqb c) (T "$.,%@#").

(** What may follow the first character of a number: more of its
    characters, then the end or one last newline. *)
Fixpoint price_tail (w : text) : bool :=
  match w with
  | [] => true
  | c :: w' =>
      if price_char c then price_tail w'
      else (Chars.code c =? 10) && match w' with [] => true | _ :: _ => false end
  end.

(** A number or a price as the test of line 104 takes it. *)
Definition number_word (w : text) : bool :=
  match w with
  | [] => false
  | c :: w' => price_char c && price_tail w'
  end.

(** No letter, digit or underscore. *)
Definition no_word_char (w : text) : bool :=
  forallb (fun c => negb (Chars.is_word c)) w.

(** A word that the spell checking pass does not look up: a number or a
    price, at most two characters, or nothing but punctuation. *)
Definition exempt (w : text) : bool :=
  forallb price_char w || (List.length w <=? 2) || no_word_char w.

(** A suggestion whose uppercase stays below U+0100: no micro sign, no
    y with diaeresis. *)
Definition plain_suggestion (s : text) : bool :=
  forallb (fun c => negb (Chars.code c =? 181) && negb (Chars.code c =? 255)) s.

(** A word of letters, digits and underscores only. *)
Definition plain_word (w : text) : bool := forallb Chars.is_word w.

(** An entry of [word_replacements] whose key is a plain word, not
    empty, and whose value is a plain word. *)
Definition plain_entry (e : text * text) : Prop :=
  fst e <> [] /\ plain_word (fst e) = true /\ plain_word (snd e) = true.

(** No value of the dictionary is one of its keys. *)
Definition values_not_keys (wr : list (text * text)) : Prop :=
  forall e e', In e wr -> In e' wr -> snd e <> fst e'.

(** The word characters that start a text, and what follows them. *)
Fixpoint word_prefix (s : text) : text :=
  match s with
  | c :: s' => if Chars.is_word c then c :: word_prefix s' else []
  | [] => []
  end.

Fixpoint word_rest (s : text) : text :=
  match s with
  | c :: s' => if Chars.is_word c then word_rest s' else s
  | [] => []
  end.

(** What a run of word characters becomes under [f]; no run, nothing. *)
Definition emit (f : text -> text) (run : text) : text :=
  match run with
  | [] => []
  | _ :: _ => f run
  end.

(** [f] on every maximal run of word characters of [s]; [cur] is the
    run being read, in reverse. *)
Fixpoint map_runs (f : text -> text) (cur s : text) : text :=
  match s with
  | [] => emit f (rev cur)
  | c :: s' =>
      if Chars.is_word c then map_runs f (c :: cur) s'
      else emit f (rev cur) ++ c :: map_runs f [] s'
  end.

(** What follows a run: the character that ended it, then the runs of
    the rest. *)
Definition after_run (f : text -> text) (s : text) : text :=
  match s with
  | [] => []
  | c :: s' => c :: map_runs f [] s'
  end.

(** What a scan that stands after the character [prev] makes of [s]: in
    the middle of a run, the rest of the run is copied. *)
Definition scan_from (f : text -> text) (prev : option ascii) (s : text) : text :=
  (if Re.word_opt prev then word_prefix s else emit f (word_prefix s))
  ++ after_run f (word_rest s).

(** One word rule on one run, and the rules of a dictionary in order. *)
Definition rewrite_word (entry : text * text) (w : text) : text :=
  if Str.text_eqb w (fst entry) then snd entry else w.

Definition rewrite_all (wr : list (text * text)) (w : text) : text :=
  fold_left (fun x e => rewrite_word e x) wr w.

(** A checker that answers or raises, and suggests plain words only. *)
Definition answers_plainly (sp : Spell.checker) : Prop :=
  forall q, Spell.known sp q <> Unmodelled
            /\ Spell.correction sp q <> Unmodelled
            /\ forall s, Spell.correction sp q = Returned (Some s) ->
                         plain_suggestion s = true.

End Spec.

(** Vocabulary for the matcher: [e] is reached from [st] by consuming
    characters of the subject. *)
Module Progress.
Import Re.

Definition advance (st e : mstate) : Prop :=
  ms_pos st <= ms_pos e
  /\ ms_pos e - ms_pos st <= List.length (ms_rest st)
  /\ ms_rest e = skipn (ms_pos e - ms_pos st) (ms_rest st).

(** The compiled form of the pattern [\s+]. *)
Definition ws_regex : regex := RRepeat (RSet false [CSpace true]) 1 true.

(** The position after the whitespace that starts [rest]. *)
Fixpoint skip_ws (prev : option ascii) (rest : text) (pos : nat)
  (caps : list (nat * text)) : mstate :=
  match rest with
  | c :: rest' =>
      if Chars.is_space c then skip_ws (Some c) rest' (S pos) caps
      else MState prev rest pos caps
  | [] => MState prev [] pos caps
  end.

(** The item that a literal character compiles to. *)
Definition lit (c : ascii) : regex := RSet false [CLit c].

(** What the parser has to do with one character of an escaped word:
    take the escaped character as a literal, or take the character
    itself as a literal. *)
Definition escape_ok (c : ascii) : bool :=
  if escape_special c
  then match escape_item c with
       | POk (RSet false [CLit d]) => Chars.ascii_eqb c d
       | _ => false
       end
  else negb (Chars.ascii_eqb c ")") && negb (Chars.ascii_eqb c "\")
       && negb (Chars.ascii_eqb c "[") && negb (Chars.ascii_eqb c "*")
       && negb (Chars.ascii_eqb c "+") && negb (Chars.ascii_eqb c "?")
       && negb (Chars.ascii_eqb c ".") && negb (Chars.ascii_eqb c "(")
       && negb (is_special c).

(** The compiled form of the pattern built for the wrong word [w]:
    [\b], its characters, [\b]. *)
Definition word_regex (w : text) : regex :=
  RSeq (RBoundary true) (seq_of (map lit w ++ [RBoundary true])).

(** The position after the characters of [w]. *)
Definition past (w : text) (prev : option ascii) (rest : text) (pos : nat)
  (caps : list (nat * text)) : mstate :=
  MState (List.last (map Some w) prev) rest (pos + List.length w) caps.

(** The members of the set of the pattern of line 104 of pp6.py. *)
Definition price_items : list citem :=
  [CDigit true; CLit "$"; CLit "."; CLit ","; CLit "%"; CLit "@"; CLit "#"].

(** Whether an attempt of the matcher found a match. *)
Definition reached (o : option mstate) : bool :=
  match o with Some _ => true | None => false end.

End Progress.

(** Vocabulary for the scan of [find_longest_match]. *)
Module Scan.
Import Difflib.

Section Runs.
Variables a b : list text.

(** The number of equal pairs that end at [(i, j)] going down the
    diagonal, not below [alo] in [a] nor below [blo] in [b]. *)
Fixpoint run (alo blo i j : nat) {struct i} : nat :=
  if same_at a b i j && (alo <=? i) && (blo <=? j)
  then S (match i, j with
          | S i', S j' => run alo blo i' j'
          | _, _ => 0
          end)
  else 0.

Definition prev_run (alo blo i j : nat) : nat :=
  match i, j with
  | S i', S j' => run alo blo i' j'
  | _, _ => 0
  end.

(** What row [i] leaves in [j2len] at key [j]. *)
Definition cell (alo blo bhi i j : nat) : nat :=
  if j <? bhi then run alo blo i j else 0.

End Runs.

(** The scan has gone past the pair [(I, J)] when it is about to look
    at [(i, j)]. *)
Definition passed (I J i j : nat) : Prop := I < i \/ (I = i /\ J < j).

Definition scan_inv (I J K i j : nat) (best : block) : Prop :=
  (passed I J i j /\ best = (I + 1 - K, J + 1 - K, K))
  \/ (~ passed I J i j /\ snd best < K).

(** Total length of the windows still to do, for the work-list loop. *)
Definition weight (queue : list window) : nat :=
  fold_right (fun w acc => let '(alo, ahi, _, _) := w in 2 * (ahi - alo) + 1 + acc) 0 queue.

Definition proper (w : window) : Prop := let '(alo, ahi, _, _) := w in alo <= ahi.

End Scan.

(** * Properties *)

Lemma obind_returned {A B : Type} (o : outcome A) (f : A -> outcome B) (v : B) :
  obind o f = Returned v -> exists x, o = Returned x /\ f x = Returned v.
Proof.
  destruct o as [x| |]; simpl; try discriminate.
  intros H. exists x. split; [reflexivity | exact H].
Qed.

(** ** The applicator *)

Section ApplicatorFacts.
Import Re Applicator.

Lemma search_none_walk (r : regex) (tmpl : list titem) :
  forall (rest : text) (prev : option ascii) (pos fuel : nat),
    List.length rest < fuel ->
    search_from r prev rest pos = None ->
    sub_walk fuel r tmpl prev rest pos = rest.
Proof.
  induction rest as [|c rest IH]; intros prev pos fuel Hfuel Hnone;
    destruct fuel as [|fuel]; simpl in Hfuel; try lia;
    simpl in Hnone; simpl;
    destruct (match_at r false (MState prev _ pos [])); try discriminate.
  - reflexivity.
  - f_equal. apply IH; [lia | exact Hnone].
Qed.

(** No match anywhere: [re.sub] returns its subject. *)
Lemma sub_no_match (p repl s : text) (r : regex) (n : nat) (tmpl : list titem) :
  compile p = POk (r, n) ->
  compile_template n repl = POk tmpl ->
  found r s = false ->
  sub p repl s = Returned s.
Proof.
  intros Hc Ht Hf. unfold sub. rewrite Hc, Ht. f_equal.
  apply search_none_walk; [lia|].
  unfold found, search in Hf.
  destruct (search_from r None s 0); [discriminate | reflexivity].
Qed.

(** Whether [re.sub] returns does not depend on the subject. *)
Lemma sub_returned_inv (p repl s out : text) :
  sub p repl s = Returned out ->
  exists r n tmpl, compile p = POk (r, n) /\ compile_template n repl = POk tmpl.
Proof.
  unfold sub. destruct (compile p) as [[r n]| |]; try discriminate.
  destruct (compile_template n repl) as [tmpl| |] eqn:Ht; try discriminate.
  intros _. exists r, n, tmpl. split; [reflexivity | exact Ht].
Qed.

Lemma sub_bad_pattern (p repl s : text) :
  compile p = PError -> sub p repl s = Raised.
Proof. intros H. unfold sub. rewrite H. reflexivity. Qed.

Lemma sub_each_stable {R : Type} (pat repl : R -> text) :
  forall (rules : list R) (t out fixed : text),
    sub_each pat repl rules t = Returned out ->
    (forall rule r n, In rule rules -> compile (pat rule) = POk (r, n) ->
                      found r fixed = false) ->
    sub_each pat repl rules fixed = Returned fixed.
Proof.
  induction rules as [|rule rules IH]; intros t out fixed Hret Hnone; simpl.
  - reflexivity.
  - simpl in Hret.
    destruct (sub (pat rule) (repl rule) t) as [t'| |] eqn:Hsub; try discriminate.
    simpl in Hret.
    destruct (sub_returned_inv _ _ _ _ Hsub) as (r & n & tmpl & Hc & Ht).
    rewrite (sub_no_match _ _ _ r n tmpl Hc Ht).
    + simpl. apply (IH t' out); [exact Hret|].
      intros rule' r' n' Hin. apply Hnone. right. exact Hin.
    + apply (Hnone rule r n); [left; reflexivity | exact Hc].
Qed.

Lemma sub_each_bad {R : Type} (pat repl : R -> text) (bad : R) :
  compile (pat bad) = PError ->
  forall (rules : list R) (t out : text),
    In bad rules -> sub_each pat repl rules t <> Returned out.
Proof.
  intros Hbad. induction rules as [|rule rules IH]; intros t out Hin; simpl.
  - destruct Hin.
  - destruct Hin as [->|Hin].
    + rewrite (sub_bad_pattern _ _ _ Hbad). discriminate.
    + destruct (sub (pat rule) (repl rule) t) as [t'| |]; simpl;
        [apply IH; exact Hin | discriminate | discriminate].
Qed.

End ApplicatorFacts.

(** C1, evaluated on the text of the example: with the learned qq rule
    in the rule set and the spell checker standing aside, [cleanText]
    turns "Total $ 12.qq & 5O% off" into
    "Total 12.99 dollars and 5 0 percent off": the pass that rewrites a
    digit followed by O inserts a space before the 0, so the text is not
    "... and 50 percent off".  The whole learned catalogue in the rule
    set gives the same text. *)
Theorem cleanText_total_example :
  Applicator.cleanText (RuleSet [] [Learn.qq_rule] []) (fun t => t)
    (T "Total $ 12.qq & 5O% off")
  = Returned (T "Total 12.99 dollars and 5 0 percent off")
  /\ Applicator.cleanText
       (RuleSet [] [Learn.qq_rule; Learn.dollar_rule; Learn.one_rule; Learn.zero_rule] [])
       (fun t => t) (T "Total $ 12.qq & 5O% off")
     = Returned (T "Total 12.99 dollars and 5 0 percent off")
  /\ T "Total 12.99 dollars and 5 0 percent off"
     <> T "Total 12.99 dollars and 50 percent off".
Proof. split; [|split]; [vm_compute; reflexivity | vm_compute; reflexivity | discriminate]. Qed.

(** C3, as stated, fails: the rule set synthesized from "l between
    digits" evidence has no word replacements at all, and applying it to
    "1l1l1" gives "111l1", which a second application turns into
    "11111". *)
Lemma idempotence_counterexample :
  word_replacements Examples.one_rules = []
  /\ Applicator.apply_learned_corrections Examples.one_rules (T "1l1l1")
     = Returned (T "111l1")
  /\ Applicator.apply_learned_corrections Examples.one_rules (T "111l1")
     = Returned (T "11111")
  /\ obind (Applicator.apply_learned_corrections Examples.one_rules (T "1l1l1"))
           (Applicator.apply_learned_corrections Examples.one_rules)
     <> Applicator.apply_learned_corrections Examples.one_rules (T "1l1l1").
Proof.
  split; [reflexivity|].
  split; [vm_compute; reflexivity|].
  split; [vm_compute; reflexivity|].
  intros H. vm_compute in H. discriminate.
Qed.

(** The same failure with word replacements only: the value "y-" is not
    a key, yet it contains the key "y" as a word. *)
Example idempotence_counterexample_words :
  Applicator.apply_learned_corrections
    (RuleSet [(T "y", T "q"); (T "x", T "y-")] [] []) (T "x") = Returned (T "y-")
  /\ Applicator.apply_learned_corrections
       (RuleSet [(T "y", T "q"); (T "x", T "y-")] [] []) (T "y-") = Returned (T "q-").
Proof. split; vm_compute; reflexivity. Qed.

(** ** Word rules on plain words *)

Section WordRuleFacts.
Import Re Applicator Spec Progress.

Lemma escape_ok_all (c : ascii) : escape_ok c = true.
Proof. destruct c as [[] [] [] [] [] [] [] []]; vm_compute; reflexivity. Qed.

Lemma parse_escaped_char (c : ascii) (fuel : nat) (acc : list regex) (ng : nat)
  (rest : text) :
  parse_items (S fuel) acc ng (escape [c] ++ rest)
  = parse_items fuel (lit c :: acc) ng rest.
Proof.
  pose proof (escape_ok_all c) as H. unfold escape_ok in H.
  unfold escape. cbn [flat_map app].
  destruct (escape_special c).
  - cbn [app parse_items]. change (Chars.ascii_eqb "\" ")") with false.
    change (Chars.ascii_eqb "\" "\") with true. cbn iota.
    destruct (escape_item c) as [r| |]; try discriminate.
    destruct r as [| neg items | | | |]; try discriminate.
    destruct neg; try discriminate.
    destruct items as [|[d| | | | |] [|]]; try discriminate.
    unfold Chars.ascii_eqb in H. apply Ascii.eqb_eq in H. subst d. reflexivity.
  - cbn [app parse_items].
    repeat (apply andb_prop in H as [H ?]).
    repeat match goal with
    | E : negb ?b = true |- _ => apply negb_true_iff in E; rewrite E; clear E
    end.
    reflexivity.
Qed.

Lemma escape_cons (c : ascii) (w : text) : escape (c :: w) = escape [c] ++ escape w.
Proof. unfold escape. simpl. rewrite app_nil_r. reflexivity. Qed.

Lemma parse_escaped (w : text) :
  forall (fuel : nat) (acc : list regex) (ng : nat) (rest : text),
    parse_items (List.length w + fuel) acc ng (escape w ++ rest)
    = parse_items fuel (rev (map lit w) ++ acc) ng rest.
Proof.
  induction w as [|c w IH]; intros fuel acc ng rest; [reflexivity|].
  rewrite escape_cons, <- app_assoc. cbn [List.length Nat.add].
  rewrite parse_escaped_char, IH. cbn [map rev]. rewrite <- app_assoc. reflexivity.
Qed.

Lemma escape_length (w : text) : List.length w <= List.length (escape w).
Proof.
  induction w as [|c w IH]; [simpl; lia|].
  rewrite escape_cons, length_app.
  assert (1 <= List.length (escape [c])).
  { unfold escape. simpl. destruct (escape_special c); simpl; lia. }
  cbn [List.length]. lia.
Qed.

Lemma plain_template (repl : text) (groups : nat) :
  ~ In "\"%char repl ->
  forall fuel, List.length repl < fuel ->
    parse_template fuel groups repl = POk (map TLit repl).
Proof.
  induction repl as [|c repl IH]; intros Hno fuel Hfuel;
    (destruct fuel as [|fuel]; [simpl in Hfuel; lia|]); [reflexivity|].
  cbn [parse_template].
  assert (Hc : Chars.ascii_eqb c "\" = false).
  { unfold Chars.ascii_eqb. apply Ascii.eqb_neq. intros ->. apply Hno. left. reflexivity. }
  rewrite Hc. cbn [negb]. cbn iota.
  rewrite IH; [reflexivity | intros H; apply Hno; right; exact H | simpl in Hfuel; lia].
Qed.

Lemma starts_with_app (p s : text) : Str.starts_with p (p ++ s) = true.
Proof.
  induction p as [|c p IH]; simpl; [reflexivity|].
  unfold Chars.ascii_eqb. rewrite Ascii.eqb_refl. exact IH.
Qed.

(** The pattern of a word rule, compiled. *)
Lemma word_pattern_form (entry : text * text) :
  compile (word_pattern entry) = POk (word_regex (fst entry), 0).
Proof.
  unfold word_pattern, compile. set (w := fst entry).
  pose proof (escape_length w) as Hlen.
  remember (List.length (T "\b" ++ escape w ++ T "\b")) as n eqn:Hn.
  rewrite !length_app in Hn. simpl in Hn.
  assert (Hf : exists f, n = List.length w + S (S f)).
  { exists (n - List.length w - 2). lia. }
  destruct Hf as [f ->].
  change (T "\b" ++ escape w ++ T "\b")
    with ("\"%char :: "b"%char :: escape w ++ T "\b").
  cbn [parse_items]. change (Chars.ascii_eqb "\" ")") with false.
  change (Chars.ascii_eqb "\" "\") with true. cbn iota.
  change (escape_item "b") with (POk (RBoundary true)). cbn iota.
  rewrite parse_escaped.
  cbn [parse_items T list_ascii_of_string]. change (Chars.ascii_eqb "\" ")") with false.
  change (Chars.ascii_eqb "\" "\") with true. cbn iota.
  change (escape_item "b") with (POk (RBoundary true)). cbn iota.
  cbn [rev]. rewrite rev_app_distr, rev_involutive. cbn [rev app].
  unfold word_regex.
  destruct (map lit w ++ [RBoundary true]) as [|r rs] eqn:E; [|reflexivity].
  apply app_eq_nil in E as [_ E]. discriminate E.
Qed.

Lemma seq_of_cons (r : regex) (rs : list regex) :
  rs <> [] -> seq_of (r :: rs) = RSeq r (seq_of rs).
Proof. destruct rs; [congruence | reflexivity]. Qed.

Lemma lit_step (c : ascii) (rs : list regex) (prev : option ascii) (rest : text)
  (pos : nat) (caps : list (nat * text)) (k : mstate -> option mstate) :
  rs <> [] ->
  rmatch (seq_of (lit c :: rs)) (MState prev rest pos caps) k
  = match rest with
    | d :: rest' =>
        if Chars.ascii_eqb c d
        then rmatch (seq_of rs) (MState (Some d) rest' (S pos) caps) k
        else None
    | [] => None
    end.
Proof.
  intros Hrs. rewrite (seq_of_cons _ _ Hrs). unfold lit.
  cbn [rmatch ms_rest ms_pos ms_caps].
  destruct rest as [|d rest']; [reflexivity|].
  unfold set_match. cbn [existsb citem_match xorb]. rewrite orb_false_r.
  reflexivity.
Qed.

Lemma last_cons {A : Type} (x : A) (l : list A) (d : A) :
  List.last (x :: l) d = List.last l x.
Proof.
  revert x d. induction l as [|y l IH]; intros x d; [reflexivity|].
  change (List.last (x :: y :: l) d) with (List.last (y :: l) d).
  rewrite (IH y d), (IH y x). reflexivity.
Qed.

Lemma lits_not_nil (w : text) : map lit w ++ [RBoundary true] <> [].
Proof. intros E. apply app_eq_nil in E as [_ E]. discriminate E. Qed.

(** The characters of the word do not stand at the position. *)
Lemma lits_miss (w : text) :
  forall (prev : option ascii) (rest : text) (pos : nat) (caps : list (nat * text))
         (k : mstate -> option mstate),
    Str.starts_with w rest = false ->
    rmatch (seq_of (map lit w ++ [RBoundary true])) (MState prev rest pos caps) k = None.
Proof.
  induction w as [|c w IH]; intros prev rest pos caps k H.
  - destruct rest; discriminate H.
  - cbn [map app]. rewrite (lit_step _ _ _ _ _ _ _ (lits_not_nil w)).
    destruct rest as [|d rest']; [reflexivity|].
    cbn [Str.starts_with] in H. destruct (Chars.ascii_eqb c d); [|reflexivity].
    cbn [andb] in H. apply IH. exact H.
Qed.

(** They stand there: the closing boundary is tried after them. *)
Lemma lits_hit (w : text) :
  forall (prev : option ascii) (rest : text) (pos : nat) (caps : list (nat * text))
         (k : mstate -> option mstate),
    rmatch (seq_of (map lit w ++ [RBoundary true])) (MState prev (w ++ rest) pos caps) k
    = rmatch (RBoundary true) (past w prev rest pos caps) k.
Proof.
  induction w as [|c w IH]; intros prev rest pos caps k.
  - unfold past. cbn [map app List.last List.length seq_of]. rewrite Nat.add_0_r.
    reflexivity.
  - cbn [map app]. rewrite (lit_step _ _ _ _ _ _ _ (lits_not_nil w)).
    unfold Chars.ascii_eqb. rewrite Ascii.eqb_refl. rewrite IH.
    unfold past. cbn [List.length]. replace (S pos + List.length w) with (pos + S (List.length w)) by lia.
    f_equal. f_equal. cbn [map]. symmetry. apply last_cons.
Qed.

Lemma starts_with_split (w rest : text) :
  Str.starts_with w rest = true -> exists rest', rest = w ++ rest'.
Proof.
  revert rest. induction w as [|c w IH]; intros rest H.
  - exists rest. reflexivity.
  - destruct rest as [|d rest]; [discriminate H|].
    cbn [Str.starts_with] in H. apply andb_prop in H as [Hc Hw].
    unfold Chars.ascii_eqb in Hc. apply Ascii.eqb_eq in Hc. subst d.
    destruct (IH rest Hw) as [rest' ->]. exists rest'. reflexivity.
Qed.

(** *** Runs of word characters *)

Lemma prefix_rest (s : text) : s = word_prefix s ++ word_rest s.
Proof.
  induction s as [|c s IH]; [reflexivity|]. cbn [word_prefix word_rest].
  destruct (Chars.is_word c); [|reflexivity]. cbn [app]. f_equal. exact IH.
Qed.

Lemma prefix_plain (w s : text) :
  plain_word w = true -> word_prefix (w ++ s) = w ++ word_prefix s.
Proof.
  induction w as [|c w IH]; intros H; [reflexivity|].
  unfold plain_word in H. cbn [forallb] in H. apply andb_prop in H as [Hc Hw].
  cbn [app word_prefix]. rewrite Hc. f_equal. exact (IH Hw).
Qed.

Lemma rest_plain (w s : text) :
  plain_word w = true -> word_rest (w ++ s) = word_rest s.
Proof.
  induction w as [|c w IH]; intros H; [reflexivity|].
  unfold plain_word in H. cbn [forallb] in H. apply andb_prop in H as [Hc Hw].
  cbn [app word_rest]. rewrite Hc. exact (IH Hw).
Qed.

Lemma prefix_is_plain (s : text) : plain_word (word_prefix s) = true.
Proof.
  induction s as [|c s IH]; [reflexivity|]. cbn [word_prefix].
  destruct (Chars.is_word c) eqn:Hc; [|reflexivity].
  unfold plain_word. cbn [forallb]. rewrite Hc. exact IH.
Qed.

Lemma map_runs_span (f : text -> text) (s : text) :
  forall cur,
    map_runs f cur s
    = emit f (rev cur ++ word_prefix s) ++ after_run f (word_rest s).
Proof.
  induction s as [|c s IH]; intros cur; cbn [map_runs word_prefix word_rest].
  - rewrite !app_nil_r. reflexivity.
  - destruct (Chars.is_word c).
    + rewrite IH. cbn [rev]. rewrite <- app_assoc. reflexivity.
    + rewrite app_nil_r. reflexivity.
Qed.


Lemma rest_of_rest (s : text) : word_rest (word_rest s) = word_rest s.
Proof.
  induction s as [|c s IH]; [reflexivity|]. cbn [word_rest].
  destruct (Chars.is_word c) eqn:Hc; [exact IH|]. cbn [word_rest]. rewrite Hc.
  reflexivity.
Qed.

Lemma prefix_of_rest (s : text) : word_prefix (word_rest s) = [].
Proof.
  induction s as [|c s IH]; [reflexivity|]. cbn [word_rest].
  destruct (Chars.is_word c) eqn:Hc; [exact IH|]. cbn [word_prefix]. rewrite Hc.
  reflexivity.
Qed.

Lemma rest_length (s : text) : List.length (word_rest s) <= List.length s.
Proof.
  induction s as [|c s IH]; [reflexivity|]. cbn [word_rest].
  destruct (Chars.is_word c); cbn [List.length]; lia.
Qed.

Lemma map_runs_scan (f : text -> text) (s : text) :
  map_runs f [] s = scan_from f None s.
Proof. rewrite map_runs_span. reflexivity. Qed.

(** *** One word rule *)

Lemma last_is_word (k : text) (prev : option ascii) :
  k <> [] -> plain_word k = true ->
  word_opt (List.last (map Some k) prev) = true.
Proof.
  revert prev. induction k as [|c w IH]; intros prev Hne Hp.
  - congruence.
  - unfold plain_word in Hp. cbn [forallb] in Hp. apply andb_prop in Hp as [Hc Hw].
    cbn [map]. rewrite last_cons. destruct w as [|d w'].
    + exact Hc.
    + apply IH; [discriminate | exact Hw].
Qed.

Lemma word_regex_step (k : text) (st : mstate) (kont : mstate -> option mstate) :
  rmatch (word_regex k) st kont
  = if boundary_test true st
    then rmatch (seq_of (map lit k ++ [RBoundary true])) st kont
    else None.
Proof. reflexivity. Qed.

Lemma text_eqb_refl (w : text) : Str.text_eqb w w = true.
Proof. unfold Str.text_eqb. case_bool_decide; congruence. Qed.

Lemma text_eqb_other (w w' : text) : w <> w' -> Str.text_eqb w w' = false.
Proof. unfold Str.text_eqb. case_bool_decide; congruence. Qed.

(** Where the pattern of a word rule matches: at the start of a run that
    is the key, and nowhere else. *)
Lemma word_match_at (k : text) (prev : option ascii) (rest : text) (pos : nat) :
  k <> [] -> plain_word k = true ->
  match_at (word_regex k) false (MState prev rest pos [])
  = if negb (word_opt prev) && Str.text_eqb (word_prefix rest) k
    then Some (past k prev (word_rest rest) pos [])
    else None.
Proof.
  intros Hk Hp. unfold match_at. cbn [ms_prev ms_rest ms_pos andb].
  rewrite word_regex_step.
  destruct k as [|c0 k0] eqn:Ek; [congruence|]. rewrite <- Ek in *.
  assert (Hc0 : Chars.is_word c0 = true).
  { rewrite Ek in Hp. unfold plain_word in Hp. cbn [forallb] in Hp.
    apply andb_prop in Hp as [H _]. exact H. }
  assert (Hstop : forall d rest', Chars.is_word d = false ->
             Str.starts_with k (d :: rest') = false).
  { intros d rest' Hd. rewrite Ek. cbn [Str.starts_with].
    unfold Chars.ascii_eqb. destruct (Ascii.eqb c0 d) eqn:E; [|reflexivity].
    apply Ascii.eqb_eq in E. subst d. congruence. }
  destruct (word_opt prev) eqn:Hprev; cbn [negb andb].
  - (* inside a run *)
    destruct rest as [|d rest'].
    + destruct prev as [p|]; [|discriminate Hprev].
      unfold boundary_test, at_boundary. cbn [ms_prev ms_rest hd_error word_opt].
      cbn [word_opt] in Hprev. rewrite Hprev. cbn [xorb Bool.eqb].
      apply lits_miss. rewrite Ek. reflexivity.
    + destruct prev as [p|]; [|discriminate Hprev].
      unfold boundary_test, at_boundary. cbn [ms_prev ms_rest hd_error word_opt].
      cbn [word_opt] in Hprev. rewrite Hprev.
      destruct (Chars.is_word d) eqn:Hd; cbn [xorb Bool.eqb]; [reflexivity|].
      apply lits_miss. apply Hstop. exact Hd.
  - (* not inside a run *)
    destruct rest as [|d rest'].
    + cbn [word_prefix]. rewrite text_eqb_other by congruence.
      unfold boundary_test, at_boundary. cbn [ms_prev ms_rest hd_error].
      rewrite Hprev. destruct prev; reflexivity.
    + assert (Hb : boundary_test true (MState prev (d :: rest') pos [])
                   = Chars.is_word d).
      { unfold boundary_test, at_boundary. cbn [ms_prev ms_rest hd_error word_opt].
        rewrite Hprev. destruct prev; destruct (Chars.is_word d); reflexivity. }
      rewrite Hb. cbn [word_prefix word_rest].
      destruct (Chars.is_word d) eqn:Hd.
      2:{ rewrite text_eqb_other by congruence. reflexivity. }
      destruct (Str.starts_with k (d :: rest')) eqn:Hs.
      * destruct (starts_with_split _ _ Hs) as [tail Htail].
        assert (Hpre : d :: word_prefix rest' = k ++ word_prefix tail).
        { change (d :: word_prefix rest')
            with (if true then d :: word_prefix rest' else []).
          rewrite <- Hd. change (word_prefix (d :: rest') = k ++ word_prefix tail).
          rewrite Htail. apply prefix_plain. exact Hp. }
        assert (Hrest : word_rest rest' = word_rest tail).
        { change (word_rest rest')
            with (if true then word_rest rest' else d :: rest').
          rewrite <- Hd. change (word_rest (d :: rest') = word_rest tail).
          rewrite Htail. apply rest_plain. exact Hp. }
        rewrite Htail, lits_hit. cbn [rmatch].
        assert (Hb2 : boundary_test true (past k prev tail pos [])
                      = negb (word_opt (hd_error tail))).
        { unfold boundary_test, at_boundary, past. cbn [ms_prev ms_rest].
          pose proof (last_is_word k prev Hk Hp) as Hl.
          destruct (List.last (map Some k) prev) as [l|]; [|discriminate Hl].
          cbn [word_opt] in Hl |- *. rewrite Hl.
          destruct (word_opt (hd_error tail)); reflexivity. }
        rewrite Hb2, Hpre, Hrest.
        destruct tail as [|e tail']; cbn [hd_error word_opt word_prefix word_rest].
        -- rewrite app_nil_r, text_eqb_refl. reflexivity.
        -- destruct (Chars.is_word e) eqn:He; cbn [negb].
           ++ rewrite text_eqb_other; [reflexivity|].
              intros H. apply (f_equal (@List.length ascii)) in H.
              rewrite length_app in H. cbn [List.length] in H. lia.
           ++ rewrite app_nil_r, text_eqb_refl. reflexivity.
      * rewrite lits_miss by exact Hs.
        rewrite text_eqb_other; [reflexivity|].
        intros H. 
        assert (Hd' : d :: rest' = k ++ word_rest rest').
        { rewrite <- H. rewrite (prefix_rest (d :: rest')) at 1.
          cbn [word_prefix word_rest]. rewrite Hd. reflexivity. }
        rewrite Hd', starts_with_app in Hs. discriminate Hs.
Qed.

Lemma expand_lits (v whole : text) (caps : list (nat * text)) :
  expand (map TLit v) whole caps = v.
Proof.
  unfold expand. induction v as [|c v IH]; [reflexivity|].
  cbn [map flat_map app]. rewrite IH. reflexivity.
Qed.

(** The scan of [re.sub] with the pattern of a word rule. *)
Lemma sub_walk_word (k v : text) :
  k <> [] -> plain_word k = true ->
  forall (fuel : nat) (prev : option ascii) (rest : text) (pos : nat),
    List.length rest < fuel ->
    sub_walk fuel (word_regex k) (map TLit v) prev rest pos
    = scan_from (rewrite_word (k, v)) prev rest.
Proof.
  intros Hk Hp. induction fuel as [|fuel IH]; intros prev rest pos Hfuel; [lia|].
  cbn [sub_walk]. rewrite (word_match_at k prev rest pos Hk Hp).
  destruct (negb (word_opt prev) && Str.text_eqb (word_prefix rest) k) eqn:Hm.
  - apply andb_prop in Hm as [Hprev Hrun]. apply negb_true_iff in Hprev.
    unfold Str.text_eqb in Hrun. apply bool_decide_eq_true_1 in Hrun.
    assert (Hlen : 0 < List.length k) by (destruct k; [congruence | simpl; lia]).
    assert (Hsplit : rest = k ++ word_rest rest).
    { rewrite <- Hrun. apply prefix_rest. }
    unfold past. cbn [ms_pos ms_prev ms_rest ms_caps].
    replace (pos + List.length k =? pos) with false
      by (symmetry; apply Nat.eqb_neq; lia).
    rewrite expand_lits, IH.
    2:{ apply (f_equal (@List.length ascii)) in Hsplit. rewrite length_app in Hsplit.
        lia. }
    unfold scan_from. rewrite (last_is_word k prev Hk Hp), Hprev.
    rewrite prefix_of_rest, rest_of_rest, Hrun. cbn [app].
    unfold emit. destruct k as [|c0 k0] eqn:Ek; [congruence|]. rewrite <- Ek.
    unfold rewrite_word. cbn [fst snd]. rewrite text_eqb_refl. reflexivity.
  - destruct rest as [|c rest'].
    + unfold scan_from. cbn [word_prefix word_rest after_run emit].
      destruct (word_opt prev); reflexivity.
    + rewrite IH by (cbn [List.length] in Hfuel; lia).
      unfold scan_from at 2. cbn [word_prefix word_rest word_opt].
      destruct (Chars.is_word c) eqn:Hc.
      * unfold scan_from. cbn [word_opt]. rewrite Hc.
        destruct (word_opt prev) eqn:Hprev; cbn [negb andb] in Hm.
        -- reflexivity.
        -- cbn [word_prefix] in Hm. rewrite Hc in Hm.
           cbn [emit]. unfold rewrite_word. cbn [fst snd]. rewrite Hm. reflexivity.
      * cbn [after_run]. rewrite map_runs_scan. unfold scan_from.
        cbn [word_opt]. rewrite Hc. destruct (word_opt prev); reflexivity.
Qed.

Lemma plain_no_backslash (v : text) : plain_word v = true -> ~ In "\"%char v.
Proof.
  intros Hp Hin. unfold plain_word in Hp.
  rewrite forallb_forall in Hp. specialize (Hp _ Hin). vm_compute in Hp.
  discriminate Hp.
Qed.

(** One word rule rewrites the runs that are its key. *)
Lemma sub_word_rule (e : text * text) (s : text) :
  plain_entry e ->
  sub (word_pattern e) (snd e) s = Returned (map_runs (rewrite_word e) [] s).
Proof.
  intros (Hk & Hpk & Hpv). unfold sub. rewrite word_pattern_form.
  unfold compile_template.
  rewrite (plain_template _ 0 (plain_no_backslash _ Hpv)) by lia.
  destruct e as [k v]. cbn [fst snd] in *.
  rewrite (sub_walk_word k v Hk Hpk) by lia.
  rewrite map_runs_scan. reflexivity.
Qed.

(** *** The rules of a dictionary, one after the other *)

Lemma map_runs_ext (f g : text -> text) :
  (forall w, f w = g w) ->
  forall s cur, map_runs f cur s = map_runs g cur s.
Proof.
  intros H. assert (He : forall w, emit f w = emit g w).
  { intros [|c w]; [reflexivity | apply H]. }
  induction s as [|c s IH]; intros cur; cbn [map_runs].
  - apply He.
  - destruct (Chars.is_word c); [apply IH|]. rewrite He, IH. reflexivity.
Qed.

Lemma map_runs_id (s : text) :
  forall cur, map_runs (fun w => w) cur s = rev cur ++ s.
Proof.
  assert (He : forall w : text, emit (fun w => w) w = w) by (intros [|c w]; reflexivity).
  induction s as [|c s IH]; intros cur; cbn [map_runs].
  - rewrite He, app_nil_r. reflexivity.
  - destruct (Chars.is_word c).
    + rewrite IH. cbn [rev]. rewrite <- app_assoc. reflexivity.
    + rewrite He, IH. reflexivity.
Qed.

Lemma rest_head (s : text) :
  word_rest s = []
  \/ exists d s', word_rest s = d :: s' /\ Chars.is_word d = false
                  /\ List.length s' < List.length s.
Proof.
  induction s as [|c s IH]; [left; reflexivity|]. cbn [word_rest].
  destruct (Chars.is_word c) eqn:Hc.
  - destruct IH as [IH | (d & s' & IH & Hd & Hlen)]; [left; exact IH|].
    right. exists d, s'. cbn [List.length]. repeat split; [exact IH | exact Hd | lia].
  - right. exists c, s. cbn [List.length]. repeat split; [exact Hc | lia].
Qed.

Lemma map_runs_compose (f g : text -> text) :
  (forall w, plain_word w = true -> plain_word (f w) = true) ->
  g [] = [] ->
  forall s, map_runs g [] (map_runs f [] s) = map_runs (fun w => g (f w)) [] s.
Proof.
  intros Hf Hg.
  assert (Hemit : forall w, plain_word w = true ->
            plain_word (emit f w) = true
            /\ emit g (emit f w) = emit (fun w => g (f w)) w).
  { intros [|c w] Hw; [split; reflexivity|]. cbn [emit]. split; [apply Hf; exact Hw|].
    destruct (f (c :: w)); [symmetry; exact Hg | reflexivity]. }
  assert (H : forall n s, List.length s <= n ->
            map_runs g [] (map_runs f [] s) = map_runs (fun w => g (f w)) [] s).
  { induction n as [|n IH]; intros s Hn.
    - destruct s; [reflexivity | simpl in Hn; lia].
    - rewrite (map_runs_span f s []), (map_runs_span (fun w => g (f w)) s []).
      cbn [rev app].
      destruct (Hemit (word_prefix s) (prefix_is_plain s)) as [Hp He].
      rewrite map_runs_span. cbn [rev app].
      rewrite (prefix_plain _ _ Hp), (rest_plain _ _ Hp).
      destruct (rest_head s) as [E | (d & s' & E & Hd & Hlen)]; rewrite E.
      + cbn [after_run word_prefix word_rest]. rewrite !app_nil_r. exact He.
      + cbn [after_run word_prefix word_rest]. rewrite Hd. cbn [after_run].
        rewrite app_nil_r, He, IH by lia. reflexivity. }
  intros s. apply (H (List.length s)). lia.
Qed.

Lemma rewrite_word_plain (e : text * text) (w : text) :
  plain_entry e -> plain_word w = true -> plain_word (rewrite_word e w) = true.
Proof.
  intros (_ & _ & Hv) Hw. unfold rewrite_word.
  destruct (Str.text_eqb w (fst e)); assumption.
Qed.

Lemma rewrite_all_plain (wr : list (text * text)) :
  Forall plain_entry wr ->
  forall w, plain_word w = true -> plain_word (rewrite_all wr w) = true.
Proof.
  unfold rewrite_all. induction 1 as [|e wr He _ IH]; intros w Hw; [exact Hw|].
  cbn [fold_left]. apply IH. apply rewrite_word_plain; assumption.
Qed.

Lemma rewrite_all_nil (wr : list (text * text)) :
  Forall plain_entry wr -> rewrite_all wr [] = [].
Proof.
  unfold rewrite_all. induction 1 as [|e wr (Hk & _) _ IH]; [reflexivity|].
  cbn [fold_left]. unfold rewrite_word at 2. rewrite text_eqb_other by congruence.
  exact IH.
Qed.

(** The word stage of the applicator rewrites every run with the rules
    in order. *)
Lemma sub_each_words (wr : list (text * text)) :
  Forall plain_entry wr ->
  forall t, sub_each word_pattern snd wr t
            = Returned (map_runs (rewrite_all wr) [] t).
Proof.
  induction 1 as [|e wr He Hwr IH]; intros t; cbn [sub_each].
  - rewrite (map_runs_ext (rewrite_all []) (fun w => w)) by reflexivity.
    rewrite map_runs_id. reflexivity.
  - rewrite (sub_word_rule e t He). cbn [obind]. rewrite IH.
    rewrite (map_runs_compose (rewrite_word e) (rewrite_all wr)).
    + reflexivity.
    + intros w. apply rewrite_word_plain. exact He.
    + apply rewrite_all_nil. exact Hwr.
Qed.

Lemma rewrite_all_fixed (wr : list (text * text)) (x : text) :
  (forall e, In e wr -> fst e <> x) -> rewrite_all wr x = x.
Proof.
  unfold rewrite_all. induction wr as [|e wr IH]; intros H; [reflexivity|].
  cbn [fold_left]. unfold rewrite_word at 2.
  rewrite text_eqb_other.
  - apply IH. intros e' He'. apply H. right. exact He'.
  - intros E. apply (H e); [left; reflexivity | symmetry; exact E].
Qed.

Lemma rewrite_all_value (all wr : list (text * text)) :
  values_not_keys all -> incl wr all ->
  forall w, rewrite_all wr w = w
            \/ exists e, In e all /\ rewrite_all wr w = snd e.
Proof.
  intros Hall. induction wr as [|e wr IH]; intros Hincl w; [left; reflexivity|].
  assert (He : In e all) by (apply Hincl; left; reflexivity).
  assert (Hwr : incl wr all) by (intros x Hx; apply Hincl; right; exact Hx).
  change (rewrite_all (e :: wr) w) with (rewrite_all wr (rewrite_word e w)).
  unfold rewrite_word. destruct (Str.text_eqb w (fst e)).
  - right. exists e. split; [exact He|]. apply rewrite_all_fixed.
    intros e' He' E. apply (Hall e e' He (Hwr _ He')). symmetry. exact E.
  - apply IH. exact Hwr.
Qed.

(** With no value among the keys, the rules leave what they produce as
    it is. *)
Lemma rewrite_all_twice (wr : list (text * text)) (w : text) :
  values_not_keys wr ->
  rewrite_all wr (rewrite_all wr w) = rewrite_all wr w.
Proof.
  intros H.
  destruct (rewrite_all_value wr wr H (incl_refl wr) w) as [E | (e & He & E)].
  - rewrite E. exact E.
  - rewrite E. apply rewrite_all_fixed.
    intros e' He' E'. apply (H e e' He He'). symmetry. exact E'.
Qed.

End WordRuleFacts.

(** The conditions of the amended C3 at their boundaries.  A key with a
    character that is not a word character: "x-b" becomes "a-b", which
    the rule for "a-b" then turns into "z".  An empty key: its pattern
    matches at every word boundary, and the value is inserted again on
    every application. *)
Example idempotence_counterexample_keys :
  Applicator.apply_learned_corrections
    (RuleSet [(T "a-b", T "z"); (T "x", T "a")] [] []) (T "x-b") = Returned (T "a-b")
  /\ Applicator.apply_learned_corrections
       (RuleSet [(T "a-b", T "z"); (T "x", T "a")] [] []) (T "a-b") = Returned (T "z")
  /\ Applicator.apply_learned_corrections (RuleSet [([], T "z")] [] []) (T "x")
     = Returned (T "zxz")
  /\ Applicator.apply_learned_corrections (RuleSet [([], T "z")] [] []) (T "zxz")
     = Returned (T "zzxzz").
Proof. repeat split; vm_compute; reflexivity. Qed.

(** A pattern fix next to word rules that meet every condition: the qq
    rule writes "99", which is a key, although no value is a key; and
    the qq rule alone, on "5.qq.qq". *)
Example idempotence_counterexample_fixes :
  Applicator.apply_learned_corrections
    (RuleSet [(T "99", T "xx")] [Learn.qq_rule] []) (T "5.qq") = Returned (T "5.99")
  /\ Applicator.apply_learned_corrections
       (RuleSet [(T "99", T "xx")] [Learn.qq_rule] []) (T "5.99") = Returned (T "5.xx")
  /\ Applicator.apply_learned_corrections
       (RuleSet [] [Learn.qq_rule] []) (T "5.qq.qq") = Returned (T "5.99.qq")
  /\ Applicator.apply_learned_corrections
       (RuleSet [] [Learn.qq_rule] []) (T "5.99.qq") = Returned (T "5.99.99").
Proof. repeat split; vm_compute; reflexivity. Qed.

(** C3, amended: for a rule set without pattern fixes whose word
    replacements have non-empty keys made of letters, digits and
    underscores, values made of such characters, and no value among the
    keys, the applicator returns, and applying it to its result returns
    that result again. *)
Theorem apply_twice_stable (rs : rule_set) (t : text) :
  pattern_fixes rs = [] ->
  Forall Spec.plain_entry (word_replacements rs) ->
  Spec.values_not_keys (word_replacements rs) ->
  exists t1,
    Applicator.apply_learned_corrections rs t = Returned t1
    /\ Applicator.apply_learned_corrections rs t1 = Returned t1.
Proof.
  intros Hfix Hplain Hvals.
  exists (Spec.map_runs (Spec.rewrite_all (word_replacements rs)) [] t).
  unfold Applicator.apply_learned_corrections, Applicator.LEARNING_ENABLED.
  cbn [negb]. rewrite Hfix, !(sub_each_words _ Hplain). cbn [obind Applicator.sub_each].
  split; [reflexivity|]. f_equal.
  rewrite map_runs_compose.
  - apply map_runs_ext. intros w. apply rewrite_all_twice. exact Hvals.
  - apply rewrite_all_plain. exact Hplain.
  - apply rewrite_all_nil. exact Hplain.
Qed.

Lemma apply_twice_stable_witness :
  exists t1,
    Applicator.apply_learned_corrections (RuleSet [(T "teh", T "the")] [] [])
      (T "teh cat, teh_ teh") = Returned t1
    /\ Applicator.apply_learned_corrections (RuleSet [(T "teh", T "the")] [] []) t1
       = Returned t1.
Proof.
  apply apply_twice_stable.
  - reflexivity.
  - repeat constructor. discriminate.
  - intros e e' [<-|[]] [<-|[]]. discriminate.
Defined.

(** C4, as stated, fails: with a pattern that does not compile ahead of
    the qq rule, the applicator returns nothing, although the qq rule
    alone would turn "cost 5.qq" into "cost 5.99". *)
Lemma invalid_pattern_counterexample :
  Re.compile (pattern Examples.damaged_rule) = Re.PError
  /\ Applicator.apply_learned_corrections (RuleSet [] [Learn.qq_rule] []) (T "cost 5.qq")
     = Returned (T "cost 5.99")
  /\ Applicator.apply_learned_corrections Examples.damaged_rules (T "cost 5.qq")
     = Raised
  /\ ~ (exists out,
         Applicator.apply_learned_corrections Examples.damaged_rules (T "cost 5.qq")
         = Returned out).
Proof.
  split; [vm_compute; reflexivity|].
  split; [vm_compute; reflexivity|].
  split; [vm_compute; reflexivity|].
  intros [out H]. vm_compute in H. discriminate.
Qed.

(** C4, amended: a pattern fix that does not compile makes the whole
    applicator call raise, whatever the text and the other rules: no
    text is returned, and [cleanText], which catches the exception,
    leaves the text file as it was. *)
Theorem invalid_pattern_aborts (rs : rule_set) (bad : pattern_fix) :
  In bad (pattern_fixes rs) ->
  Re.compile (pattern bad) = Re.PError ->
  (forall t out, Applicator.apply_learned_corrections rs t <> Returned out)
  /\ (forall spell file out,
        Applicator.cleanText rs spell file = Returned out -> out = file).
Proof.
  intros Hin Hbad.
  assert (Happly : forall t out,
             Applicator.apply_learned_corrections rs t <> Returned out).
  { intros t out. unfold Applicator.apply_learned_corrections. simpl.
    destruct (Applicator.sub_each Applicator.word_pattern snd (word_replacements rs) t)
      as [t'| |]; simpl; try discriminate.
    apply (sub_each_bad _ _ bad Hbad). exact Hin. }
  split; [exact Happly|].
  intros spell file out. unfold Applicator.cleanText.
  destruct (Applicator.clean_pipeline rs spell file) as [t| |] eqn:Hp;
    [| intros [= <-]; reflexivity | discriminate].
  exfalso. unfold Applicator.clean_pipeline in Hp.
  apply obind_returned in Hp as (t1 & _ & Hp).
  apply obind_returned in Hp as (t2 & _ & Hp).
  apply obind_returned in Hp as (t3 & Ha & _).
  exact (Happly _ _ Ha).
Qed.

Lemma invalid_pattern_aborts_witness :
  Applicator.cleanText Examples.damaged_rules (fun t => t) (T "cost  5.qq")
  = Returned (T "cost  5.qq").
Proof.
  pose proof (proj2 (invalid_pattern_aborts Examples.damaged_rules Examples.damaged_rule
                       (or_introl eq_refl) eq_refl) (fun t => t) (T "cost  5.qq")) as H.
  destruct (Applicator.cleanText Examples.damaged_rules (fun t => t) (T "cost  5.qq"))
    as [out| |] eqn:E.
  - rewrite (H out eq_refl). reflexivity.
  - vm_compute in E. discriminate.
  - vm_compute in E. discriminate.
Defined.

(** C7, evaluated on two texts: the key "teh," learned from a token
    that keeps its comma is not replaced where it stands as a whole
    token, and is replaced where it is the front part of a longer
    token. *)
Theorem punctuated_key_example :
  Applicator.apply_learned_corrections Examples.comma_rules (T "teh, cat sat")
  = Returned (T "teh, cat sat")
  /\ Applicator.apply_learned_corrections Examples.comma_rules (T "teh,x cat sat")
     = Returned (T "the,x cat sat").
Proof. split; vm_compute; reflexivity. Qed.

(** ** The scan of [re.sub] stays within its fuel *)

Section MatcherFacts.
Import Re Progress.

Lemma advance_refl (st : mstate) : advance st st.
Proof.
  unfold advance. rewrite Nat.sub_diag. simpl. repeat split; lia.
Qed.

Lemma advance_trans (s1 s2 s3 : mstate) :
  advance s1 s2 -> advance s2 s3 -> advance s1 s3.
Proof.
  unfold advance. intros (H1 & H2 & H3) (H4 & H5 & H6).
  rewrite H3 in H5, H6. rewrite length_skipn in H5. rewrite skipn_skipn in H6.
  repeat split; [lia | lia |].
  rewrite H6. f_equal. lia.
Qed.

Lemma advance_caps (st e : mstate) (caps : list (nat * text)) :
  advance st e -> advance st (MState (ms_prev e) (ms_rest e) (ms_pos e) caps).
Proof. unfold advance. simpl. tauto. Qed.

Lemma repeat_loop_through
  (body : mstate -> (mstate -> option mstate) -> option mstate)
  (lo : nat) (unbounded : bool) (k : mstate -> option mstate) :
  (forall st k' e, body st k' = Some e ->
                   exists st', advance st st' /\ k' st' = Some e) ->
  forall (fuel count : nat) (last : option nat) (st0 e : mstate),
    repeat_loop body lo unbounded k fuel count last st0 = Some e ->
    exists st', advance st0 st' /\ k st' = Some e.
Proof.
  intros Hbody. induction fuel as [|fuel IHf]; intros count last st0 e H.
  - simpl in H. destruct (lo <=? count); [|discriminate].
    exists st0. split; [apply advance_refl | exact H].
  - cbn [repeat_loop] in H.
    assert (Hstop : k st0 = Some e ->
                    exists st', advance st0 st' /\ k st' = Some e).
    { intros Hk. exists st0. split; [apply advance_refl | exact Hk]. }
    assert (Hmore : forall last',
      body st0 (fun st' => repeat_loop body lo unbounded k fuel (S count) last' st')
      = Some e -> exists st', advance st0 st' /\ k st' = Some e).
    { intros last' Hm. apply Hbody in Hm as (s1 & A1 & Hm).
      apply IHf in Hm as (s2 & A2 & Hm).
      exists s2. split; [exact (advance_trans _ _ _ A1 A2) | exact Hm]. }
    destruct (count <? lo); [exact (Hmore _ H)|].
    destruct ((unbounded || (count <? 1)) && negb (same_place last st0));
      [|exact (Hstop H)].
    match type of H with
    | match ?m with _ => _ end = _ => destruct m as [e'|] eqn:Hm
    end; [|exact (Hstop H)].
    injection H as ->. exact (Hmore _ Hm).
Qed.

(** A match hands to its continuation a state reached by consuming
    input. *)
Lemma rmatch_through :
  forall (r : regex) (st : mstate) (k : mstate -> option mstate) (e : mstate),
    rmatch r st k = Some e ->
    exists st', advance st st' /\ k st' = Some e.
Proof.
  induction r as [| neg items | pos | r1 IH1 r2 IH2 | r1 IH1 lo unbounded | n r1 IH1];
    intros st k e H; cbn [rmatch] in H.
  - exists st. split; [apply advance_refl | exact H].
  - destruct (ms_rest st) as [|c rest'] eqn:Hrest; [discriminate|].
    destruct (set_match neg items c); [|discriminate].
    eexists. split; [|exact H].
    unfold advance. simpl. rewrite Hrest.
    replace (S (ms_pos st) - ms_pos st) with 1 by lia. simpl.
    repeat split; lia.
  - destruct (boundary_test pos st); [|discriminate].
    exists st. split; [apply advance_refl | exact H].
  - apply IH1 in H as (s1 & A1 & H). apply IH2 in H as (s2 & A2 & H).
    exists s2. split; [exact (advance_trans _ _ _ A1 A2) | exact H].
  - exact (repeat_loop_through (rmatch r1) lo unbounded k IH1 _ _ _ _ _ H).
  - apply IH1 in H as (s1 & A1 & H).
    eexists. split; [|exact H]. unfold set_cap. apply advance_caps. exact A1.
Qed.

Lemma match_at_advance (r : regex) (must_advance : bool)
  (prev : option ascii) (rest : text) (pos : nat) (e : mstate) :
  match_at r must_advance (MState prev rest pos []) = Some e ->
  ms_pos e - pos <= List.length rest
  /\ ms_rest e = skipn (ms_pos e - pos) rest
  /\ pos <= ms_pos e
  /\ (must_advance = true -> ms_pos e <> pos).
Proof.
  unfold match_at. simpl. intros H.
  apply rmatch_through in H as (st' & (A1 & A2 & A3) & H). simpl in *.
  destruct (must_advance && (ms_pos st' =? pos)) eqn:E; [discriminate|].
  injection H as <-. repeat split; try assumption.
  intros ->. simpl in E. apply Nat.eqb_neq in E. exact E.
Qed.

(** More fuel than the subject is long changes nothing. *)
Lemma sub_walk_fuel (r : regex) (tmpl : list titem) :
  forall (fuel1 fuel2 : nat) (rest : text) (prev : option ascii) (pos : nat),
    List.length rest < fuel1 -> List.length rest < fuel2 ->
    sub_walk fuel1 r tmpl prev rest pos = sub_walk fuel2 r tmpl prev rest pos.
Proof.
  induction fuel1 as [|fuel1 IH]; intros fuel2 rest prev pos H1 H2; [lia|].
  destruct fuel2 as [|fuel2]; [lia|].
  cbn [sub_walk].
  assert (Hcopy :
    match rest with
    | [] => []
    | c :: rest' => c :: sub_walk fuel1 r tmpl (Some c) rest' (S pos)
    end
    = match rest with
      | [] => []
      | c :: rest' => c :: sub_walk fuel2 r tmpl (Some c) rest' (S pos)
      end).
  { destruct rest as [|c rest']; [reflexivity|]. simpl in H1, H2.
    f_equal. apply IH; lia. }
  assert (Hresume : forall e b,
    match_at r b (MState prev rest pos []) = Some e -> ms_pos e <> pos ->
    sub_walk fuel1 r tmpl (ms_prev e) (ms_rest e) (ms_pos e)
    = sub_walk fuel2 r tmpl (ms_prev e) (ms_rest e) (ms_pos e)).
  { intros e b He Hne. apply match_at_advance in He as (A1 & A2 & A3 & _).
    assert (List.length (ms_rest e) < List.length rest).
    { rewrite A2, length_skipn. lia. }
    apply IH; lia. }
  destruct (match_at r false (MState prev rest pos [])) as [e|] eqn:He;
    [|exact Hcopy].
  destruct (Nat.eqb_spec (ms_pos e) pos) as [Heq|Hne].
  - f_equal.
    destruct (match_at r true (MState prev rest pos [])) as [e2|] eqn:He2;
      [|exact Hcopy].
    f_equal. apply (Hresume e2 true He2).
    apply (match_at_advance _ _ _ _ _ _ He2). reflexivity.
  - f_equal. exact (Hresume e false He Hne).
Qed.

End MatcherFacts.

(** The patterns of the evidence tests are in the embedded fragment. *)
Lemma evidence_patterns_compile :
  Forall (fun p => exists r n, Re.compile (T p) = Re.POk (r, n))
         ["\d[lI]\d"; "\d1\d"; "\dO\d"; "\d0\d"; "\dl"; "\d1"]%string.
Proof. repeat constructor; eexists; eexists; vm_compute; reflexivity. Qed.

(** End-to-end examples 1 and 2 of the specification. *)
Example spec_example_1 :
  Learn.learn Examples.qq_corpus = Returned (RuleSet [] [Learn.qq_rule] [])
  /\ Applicator.apply_learned_corrections (RuleSet [] [Learn.qq_rule] []) (T "cost 5.qq")
     = Returned (T "cost 5.99").
Proof. split; vm_compute; reflexivity. Qed.

Example spec_example_2 :
  Learn.learn Examples.teh_corpus = Returned (RuleSet [(T "teh", T "the")] [] [])
  /\ Applicator.apply_learned_corrections (RuleSet [(T "teh", T "the")] [] [])
       (T "teh bird flew")
     = Returned (T "the bird flew").
Proof. split; vm_compute; reflexivity. Qed.

(** ** The synthesizer *)

Section LearnFacts.
Import Learn Spec.

Ltac eqb_cases :=
  unfold Str.text_eqb in *; repeat case_bool_decide; subst;
  try congruence; try lia.

Lemma fold_left_flat_map {A B C : Type} (f : A -> B -> A) (g : C -> list B) :
  forall (l : list C) (acc : A),
    fold_left f (flat_map g l) acc
    = fold_left (fun acc x => fold_left f (g x) acc) l acc.
Proof.
  induction l as [|x l IH]; intros acc; simpl; [reflexivity|].
  rewrite fold_left_app. apply IH.
Qed.

Lemma analyze_as_fold (samples : list sample) :
  analyze_corrections samples = fold_left bump (observations samples) [].
Proof. unfold analyze_corrections, observations. symmetry. apply fold_left_flat_map. Qed.

Lemma lookup_count_bump_right (rights : counts) (r' r : text) :
  lookup_count (bump_right rights r') r
  = lookup_count rights r + (if Str.text_eqb r' r then 1 else 0).
Proof.
  induction rights as [|[k n] rights IH]; simpl.
  - eqb_cases.
  - destruct (Str.text_eqb k r') eqn:E1; simpl;
      destruct (Str.text_eqb k r) eqn:E2; try rewrite IH; eqb_cases.
Qed.

Lemma lookup_counts_bump (wc : changes) (w' r' w : text) :
  lookup_counts (bump wc (w', r')) w
  = if Str.text_eqb w' w then bump_right (lookup_counts wc w) r'
    else lookup_counts wc w.
Proof.
  induction wc as [|[k rights] wc IH]; simpl.
  - eqb_cases.
  - destruct (Str.text_eqb k w') eqn:E1; simpl;
      destruct (Str.text_eqb k w) eqn:E2; try rewrite IH; eqb_cases.
Qed.

Lemma count_pair_cons (w r : text) (o : text * text) (obs : list (text * text)) :
  count_pair w r (o :: obs)
  = (if Str.text_eqb (fst o) w && Str.text_eqb (snd o) r then 1 else 0)
    + count_pair w r obs.
Proof.
  unfold count_pair. simpl.
  destruct (Str.text_eqb (fst o) w && Str.text_eqb (snd o) r); reflexivity.
Qed.

(** The table built by the extractor loop counts the observations. *)
Lemma lookup_count_fold (w r : text) :
  forall (obs : list (text * text)) (wc : changes),
    lookup_count (lookup_counts (fold_left bump obs wc) w) r
    = lookup_count (lookup_counts wc w) r + count_pair w r obs.
Proof.
  induction obs as [|[w' r'] obs IH]; intros wc; simpl.
  - unfold count_pair. simpl. lia.
  - rewrite IH, count_pair_cons, lookup_counts_bump. simpl.
    destruct (Str.text_eqb w' w) eqn:E; simpl.
    + rewrite lookup_count_bump_right. lia.
    + lia.
Qed.

Lemma keys_bump_right (rights : counts) (r : text) :
  map fst (bump_right rights r) = map fst rights
  \/ (~ In r (map fst rights)
      /\ map fst (bump_right rights r) = map fst rights ++ [r]).
Proof.
  induction rights as [|[k n] rights IH]; simpl.
  - right. split; [tauto | reflexivity].
  - destruct (Str.text_eqb k r) eqn:E; simpl.
    + left. reflexivity.
    + destruct IH as [IH | [Hnot IH]]; rewrite IH; [left; reflexivity|].
      right. split; [|reflexivity]. intros [->|H]; [|tauto].
      rewrite text_eqb_refl in E. discriminate.
Qed.

Lemma NoDup_snoc {A : Type} (l : list A) (x : A) :
  List.NoDup l -> ~ In x l -> List.NoDup (l ++ [x]).
Proof.
  intros Hl Hx. induction Hl as [|y l Hy Hl IH]; simpl.
  - constructor; [tauto | constructor].
  - constructor.
    + rewrite in_app_iff. simpl. intros [H|[H|[]]]; [tauto|].
      subst. apply Hx. left. reflexivity.
    + apply IH. intros H. apply Hx. right. exact H.
Qed.

Lemma keys_unique_bump_right (rights : counts) (r : text) :
  keys_unique rights -> keys_unique (bump_right rights r).
Proof.
  unfold keys_unique. intros H.
  destruct (keys_bump_right rights r) as [-> | [Hnot ->]];
    [exact H | apply NoDup_snoc; assumption].
Qed.

Lemma bump_right_not_nil (rights : counts) (r : text) : bump_right rights r <> [].
Proof.
  destruct rights as [|[k n] rights]; simpl; [discriminate|].
  destruct (Str.text_eqb k r); discriminate.
Qed.

Lemma keys_bump (wc : changes) (o : text * text) :
  map fst (bump wc o) = map fst wc
  \/ (~ In (fst o) (map fst wc) /\ map fst (bump wc o) = map fst wc ++ [fst o]).
Proof.
  induction wc as [|[k rights] wc IH]; simpl.
  - right. split; [tauto | reflexivity].
  - destruct (Str.text_eqb k (fst o)) eqn:E; simpl.
    + left. reflexivity.
    + destruct IH as [IH | [Hnot IH]]; rewrite IH; [left; reflexivity|].
      right. split; [|reflexivity]. intros [H|H]; [|tauto].
      subst. rewrite text_eqb_refl in E. discriminate.
Qed.

Lemma well_formed_bump (wc : changes) (o : text * text) :
  well_formed wc -> well_formed (bump wc o).
Proof.
  intros [Hk Hall]. split.
  - unfold keys_unique in *.
    destruct (keys_bump wc o) as [-> | [Hnot ->]];
      [exact Hk | apply NoDup_snoc; assumption].
  - clear Hk. induction Hall as [|[k rights] wc [Hne Hu] Hall IH]; simpl.
    + constructor; [|constructor]. simpl. split; [discriminate|].
      unfold keys_unique. simpl. constructor; [tauto | constructor].
    + destruct (Str.text_eqb k (fst o)); constructor; simpl; try assumption.
      * split; [apply bump_right_not_nil | apply keys_unique_bump_right; exact Hu].
      * split; assumption.
Qed.

Lemma well_formed_fold (obs : list (text * text)) :
  forall wc, well_formed wc -> well_formed (fold_left bump obs wc).
Proof.
  induction obs as [|o obs IH]; intros wc H; simpl; [exact H|].
  apply IH, well_formed_bump, H.
Qed.

Lemma well_formed_nil : well_formed [].
Proof. split; [constructor | constructor]. Qed.

Lemma well_formed_analyze (samples : list sample) :
  well_formed (analyze_corrections samples).
Proof. rewrite analyze_as_fold. apply well_formed_fold, well_formed_nil. Qed.

(** *** The maximum scan *)

Lemma max_scan_spec (xs : counts) :
  forall (x : text * nat),
    let best := fold_left (fun best y => if snd best <? snd y then y else best) xs x in
    In best (x :: xs) /\ forall y, In y (x :: xs) -> snd y <= snd best.
Proof.
  induction xs as [|z xs IH]; intros x; simpl.
  - split; [left; reflexivity|]. intros y [<-|[]]. lia.
  - specialize (IH (if snd x <? snd z then z else x)). simpl in IH.
    destruct IH as [Hin Hmax]. split.
    + destruct Hin as [Hin|Hin]; [|right; right; exact Hin].
      rewrite <- Hin. destruct (snd x <? snd z); [right; left | left]; reflexivity.
    + intros y [<-|[<-|Hy]].
      * etransitivity; [|apply Hmax; left; reflexivity].
        destruct (snd x <? snd z) eqn:E; [apply Nat.ltb_lt in E|]; lia.
      * etransitivity; [|apply Hmax; left; reflexivity].
        destruct (snd x <? snd z) eqn:E; [|apply Nat.ltb_ge in E]; lia.
      * apply Hmax. right. exact Hy.
Qed.

Lemma max_item_spec (rights : counts) (m : text) (n : nat) :
  max_item rights = Some (m, n) ->
  In (m, n) rights /\ forall y, In y rights -> snd y <= n.
Proof.
  destruct rights as [|x xs]; simpl; [discriminate|].
  intros [= H]. pose proof (max_scan_spec xs x) as Hs. simpl in Hs.
  rewrite H in Hs. exact Hs.
Qed.

Lemma max_item_some (rights : counts) :
  rights <> [] -> exists m n, max_item rights = Some (m, n).
Proof.
  destruct rights as [|x xs]; [congruence|]. intros _. simpl.
  destruct (fold_left (fun best y => if snd best <? snd y then y else best) xs x)
    as [m n]. exists m, n. reflexivity.
Qed.

Lemma lookup_count_in (rights : counts) (r : text) (n : nat) :
  keys_unique rights -> In (r, n) rights -> lookup_count rights r = n.
Proof.
  unfold keys_unique. induction rights as [|[k c] rights IH]; simpl; intros Hu Hin.
  - destruct Hin.
  - inversion Hu as [|? ? Hk Hu']; subst.
    destruct Hin as [[= -> ->]|Hin].
    + rewrite text_eqb_refl. reflexivity.
    + destruct (Str.text_eqb k r) eqn:E; [|apply IH; assumption].
      exfalso. apply Hk. assert (k = r) by eqb_cases. subst.
      apply (in_map fst) in Hin. exact Hin.
Qed.

Lemma lookup_count_pos (rights : counts) (r : text) :
  0 < lookup_count rights r -> In (r, lookup_count rights r) rights.
Proof.
  induction rights as [|[k c] rights IH]; simpl; intros H; [lia|].
  destruct (Str.text_eqb k r) eqn:E.
  - left. assert (k = r) by eqb_cases. subst. reflexivity.
  - right. apply IH, H.
Qed.

Lemma lookup_counts_in (wc : changes) (w : text) (rights : counts) :
  keys_unique wc -> In (w, rights) wc -> lookup_counts wc w = rights.
Proof.
  unfold keys_unique. induction wc as [|[k c] wc IH]; simpl; intros Hu Hin.
  - destruct Hin.
  - inversion Hu as [|? ? Hk Hu']; subst.
    destruct Hin as [[= -> ->]|Hin].
    + rewrite text_eqb_refl. reflexivity.
    + destruct (Str.text_eqb k w) eqn:E; [|apply IH; assumption].
      exfalso. apply Hk. assert (k = w) by eqb_cases. subst.
      apply (in_map fst) in Hin. exact Hin.
Qed.

Lemma lookup_counts_absent (wc : changes) (w : text) :
  ~ In w (map fst wc) -> lookup_counts wc w = [].
Proof.
  induction wc as [|[k c] wc IH]; simpl; intros H; [reflexivity|].
  destruct (Str.text_eqb k w) eqn:E.
  - exfalso. apply H. left. eqb_cases.
  - apply IH. tauto.
Qed.

Lemma dict_get_set (d : list (text * text)) (k v k' : text) :
  dict_get (dict_set d k v) k'
  = if Str.text_eqb k k' then Some v else dict_get d k'.
Proof.
  induction d as [|[a b] d IH]; simpl.
  - reflexivity.
  - destruct (Str.text_eqb a k) eqn:E1; simpl;
      destruct (Str.text_eqb a k') eqn:E2; try rewrite IH; eqb_cases.
Qed.

(** The loop over the table returns, and keeps for each wrong word
    exactly what [chosen] says. *)
Lemma store_replacements_spec :
  forall (wc : changes) (wr0 : list (text * text)),
    well_formed wc ->
    exists wr, store_replacements wc wr0 = Returned wr
      /\ forall w, dict_get wr w
                   = match chosen wc w with
                     | Some m => Some m
                     | None => dict_get wr0 w
                     end.
Proof.
  induction wc as [|[k rights] wc IH]; intros wr0 [Hk Hall].
  - exists wr0. split; [reflexivity|]. intros w. reflexivity.
  - inversion Hk as [|? ? Hnotin Hk']; subst.
    inversion Hall as [|? ? [Hne Hu] Hall']; subst. simpl in Hne, Hu.
    destruct (max_item_some rights Hne) as (m & n & Hmax).
    cbn [store_replacements]. rewrite Hmax.
    assert (Hchosen : forall w,
      chosen ((k, rights) :: wc) w
      = if Str.text_eqb k w
        then (if 2 <=? lookup_count rights m then Some m else None)
        else chosen wc w).
    { intros w. unfold chosen. simpl.
      destruct (Str.text_eqb k w); [rewrite Hmax|]; reflexivity. }
    assert (Hk_tail : chosen wc k = None).
    { unfold chosen. rewrite (lookup_counts_absent wc k Hnotin). reflexivity. }
    destruct (2 <=? lookup_count rights m) eqn:Hcount.
    + destruct (IH (dict_set wr0 k m) (conj Hk' Hall')) as (wr & Hret & Hget).
      exists wr. split; [exact Hret|]. intros w. rewrite Hget, Hchosen, dict_get_set.
      destruct (Str.text_eqb k w) eqn:E; [|reflexivity].
      assert (k = w) by eqb_cases. subst. rewrite Hk_tail. reflexivity.
    + destruct (IH wr0 (conj Hk' Hall')) as (wr & Hret & Hget).
      exists wr. split; [exact Hret|]. intros w. rewrite Hget, Hchosen.
      destruct (Str.text_eqb k w) eqn:E; [|reflexivity].
      assert (k = w) by eqb_cases. subst. rewrite Hk_tail. reflexivity.
Qed.

(** What [chosen] means in terms of the observations. *)
Lemma chosen_some (samples : list sample) (w m : text) :
  chosen (analyze_corrections samples) w = Some m ->
  2 <= count_pair w m (observations samples)
  /\ forall r, count_pair w r (observations samples)
               <= count_pair w m (observations samples).
Proof.
  unfold chosen.
  pose proof (lookup_count_fold w) as Hcount.
  pose proof (well_formed_analyze samples) as [Hk Hall].
  rewrite analyze_as_fold in *.
  set (wc := fold_left bump (observations samples) []) in *.
  destruct (max_item (lookup_counts wc w)) as [[m' n]|] eqn:Hmax; [|discriminate].
  destruct (2 <=? lookup_count (lookup_counts wc w) m') eqn:H2; [|discriminate].
  intros [= ->]. apply Nat.leb_le in H2.
  assert (Hc : forall r, lookup_count (lookup_counts wc w) r
                         = count_pair w r (observations samples)).
  { intros r. unfold wc. rewrite Hcount. simpl. reflexivity. }
  rewrite Hc in H2. split; [exact H2|].
  intros r. rewrite <- !Hc.
  destruct (max_item_spec _ _ _ Hmax) as [Hin Hle].
  assert (Hu : keys_unique (lookup_counts wc w)).
  { destruct (in_dec (fun s t : text => decide (s = t)) w (map fst wc)) as [Hw|Hw].
    - apply in_map_iff in Hw as ([k rights] & Hfst & Hin'). simpl in Hfst. subst k.
      rewrite (lookup_counts_in wc w rights Hk Hin').
      apply (proj1 (List.Forall_forall _ _) Hall _ Hin').
    - rewrite (lookup_counts_absent wc w Hw). constructor. }
  rewrite (lookup_count_in _ _ _ Hu Hin).
  destruct (Nat.eq_dec (lookup_count (lookup_counts wc w) r) 0) as [->|Hpos]; [lia|].
  apply (Hle (r, lookup_count (lookup_counts wc w) r)).
  apply lookup_count_pos. lia.
Qed.

Lemma chosen_none (samples : list sample) (w : text) :
  chosen (analyze_corrections samples) w = None ->
  forall r, count_pair w r (observations samples) < 2.
Proof.
  unfold chosen.
  pose proof (lookup_count_fold w) as Hcount.
  pose proof (well_formed_analyze samples) as [Hk Hall].
  rewrite analyze_as_fold in *.
  set (wc := fold_left bump (observations samples) []) in *.
  assert (Hc : forall r, lookup_count (lookup_counts wc w) r
                         = count_pair w r (observations samples)).
  { intros r. unfold wc. rewrite Hcount. simpl. reflexivity. }
  assert (Hu : keys_unique (lookup_counts wc w)).
  { destruct (in_dec (fun s t : text => decide (s = t)) w (map fst wc)) as [Hw|Hw].
    - apply in_map_iff in Hw as ([k rights] & Hfst & Hin'). simpl in Hfst. subst k.
      rewrite (lookup_counts_in wc w rights Hk Hin').
      apply (proj1 (List.Forall_forall _ _) Hall _ Hin').
    - rewrite (lookup_counts_absent wc w Hw). constructor. }
  intros Hnone r. rewrite <- Hc.
  destruct (Nat.eq_dec (lookup_count (lookup_counts wc w) r) 0) as [->|Hpos]; [lia|].
  assert (Hin : In (r, lookup_count (lookup_counts wc w) r) (lookup_counts wc w))
    by (apply lookup_count_pos; lia).
  destruct (max_item (lookup_counts wc w)) as [[m n]|] eqn:Hmax.
  - destruct (max_item_spec _ _ _ Hmax) as [Hm Hle].
    rewrite (lookup_count_in _ _ _ Hu Hm) in Hnone.
    destruct (2 <=? n) eqn:H2; [discriminate|]. apply Nat.leb_gt in H2.
    specialize (Hle _ Hin). simpl in Hle. lia.
  - destruct (lookup_counts wc w); [destruct Hin | discriminate].
Qed.

End LearnFacts.

Section SynthesizerFacts.
Import Learn Spec.

Lemma learn_returns (samples : list sample) :
  exists wr,
    store_replacements (analyze_corrections samples) [] = Returned wr
    /\ (forall w, dict_get wr w = chosen (analyze_corrections samples) w)
    /\ learn samples
       = Returned (RuleSet wr
                     (gated qq_evidence qq_rule samples
                      ++ gated dollar_evidence dollar_rule samples
                      ++ gated one_evidence one_rule samples
                      ++ gated zero_evidence zero_rule samples) []).
Proof.
  destruct (store_replacements_spec (analyze_corrections samples) []
              (well_formed_analyze samples)) as (wr & Hret & Hget).
  exists wr. split; [exact Hret|]. split.
  - intros w. rewrite Hget. destruct (chosen _ w); reflexivity.
  - unfold learn, create_learned_corrections. rewrite Hret. reflexivity.
Qed.

(** pp6.py on five samples or more, from the empty rule set: the same
    word replacements, its own three-entry catalogue. *)
Lemma pp6_returns (samples : list sample) (wr : list (text * text)) :
  5 <= List.length samples ->
  store_replacements (analyze_corrections samples) [] = Returned wr ->
  Pp6.learn_from_corrections samples empty_rules
  = (true, RuleSet wr
             (gated qq_evidence qq_rule samples
              ++ gated dollar_evidence dollar_rule samples
              ++ gated Pp6.one_evidence one_rule samples) []).
Proof.
  intros Hlen Hret. unfold Pp6.learn_from_corrections.
  destruct (List.length samples <? 5) eqn:E; [apply Nat.ltb_lt in E; lia|].
  unfold analyze_corrections in Hret. simpl word_replacements.
  rewrite Hret. reflexivity.
Qed.

Lemma gated_in (ev : sample -> bool) (rule r : pattern_fix) (samples : list sample) :
  In r (gated ev rule samples) -> r = rule /\ existsb ev samples = true.
Proof.
  unfold gated. destruct (existsb ev samples); simpl; [|tauto].
  intros [<-|[]]. split; reflexivity.
Qed.






End SynthesizerFacts.

(** C2, as stated, fails.  On this corpus the pair (teh, the) is
    observed exactly twice, and so is (teh, ten), which was counted
    first: both synthesizers keep teh -> ten, and the pair (teh, the)
    is not in the table.  pp6.py, whose lines 238-241 the claim also
    covers, stores nothing on fewer than five samples, although the
    pair (teh, the) is counted twice in them; and it stores into the
    rule set that it already has, so that a wrong word observed once
    ("5.qq", with "5.99") is in the table after the run when it was
    there before. *)
Lemma threshold_counterexample :
  Spec.count_pair (T "teh") (T "the") (Learn.observations Examples.tie_corpus) = 2
  /\ Learn.learn Examples.tie_corpus = Returned (RuleSet [(T "teh", T "ten")] [] [])
  /\ Pp6.learn_from_corrections Examples.tie_corpus empty_rules
     = (true, RuleSet [(T "teh", T "ten")] [] [])
  /\ Learn.dict_get [(T "teh", T "ten")] (T "teh") <> Some (T "the")
  /\ Spec.count_pair (T "teh") (T "the") (Learn.observations Examples.teh_corpus) = 2
  /\ Pp6.learn_from_corrections Examples.teh_corpus empty_rules = (false, empty_rules)
  /\ Spec.count_pair (T "5.qq") (T "5.99") (Learn.observations Examples.five_corpus) = 1
  /\ (forall r, Spec.count_pair (T "5.qq") r (Learn.observations Examples.five_corpus) <= 1)
  /\ Pp6.learn_from_corrections Examples.five_corpus (RuleSet [(T "5.qq", T "5.00")] [] [])
     = (true, RuleSet [(T "5.qq", T "5.00"); (T "teh", T "the")] [Learn.qq_rule] []).
Proof.
  split; [vm_compute; reflexivity|].
  split; [vm_compute; reflexivity|].
  split; [vm_compute; reflexivity|].
  split; [vm_compute; discriminate|].
  split; [vm_compute; reflexivity|].
  split; [vm_compute; reflexivity|].
  split; [vm_compute; reflexivity|].
  split; [|vm_compute; reflexivity].
  intros r.
  replace (Learn.observations Examples.five_corpus)
    with [(T "teh", T "the"); (T "teh", T "the"); (T "5.qq", T "5.99")]
    by (vm_compute; reflexivity).
  unfold Spec.count_pair. cbn [List.filter fst snd].
  replace (Str.text_eqb (T "teh") (T "5.qq")) with false by (vm_compute; reflexivity).
  cbn [andb]. destruct (Str.text_eqb (T "5.qq") (T "5.qq") && Str.text_eqb (T "5.99") r);
    simpl; lia.
Qed.

(** C2, amended.  The word replacements synthesized by learn.py from
    any corpus contain a wrong word exactly when one of its observed
    replacements was counted at least twice, and then map it to a
    replacement of highest count; a pair counted once is not in the
    table, the wrong word of a pair counted twice is, and a pair
    counted at least twice and more often than every other replacement
    of its wrong word is in the table itself.  pp6.py on fewer than five
    samples stores nothing; on five or more it stores the same entries
    into the rule set that it starts from: from the empty rule set it
    builds the same table, and from any rule set it gives a wrong word
    the replacement of that table, or else the one it had. *)
Theorem word_replacements_threshold (samples : list sample) (w : text) :
  let obs := Learn.observations samples in
  exists rs, Learn.learn samples = Returned rs
    /\ ((exists r, Learn.dict_get (word_replacements rs) w = Some r)
        <-> (exists r, 2 <= Spec.count_pair w r obs))
    /\ (forall r, Learn.dict_get (word_replacements rs) w = Some r ->
          2 <= Spec.count_pair w r obs
          /\ forall r', Spec.count_pair w r' obs <= Spec.count_pair w r obs)
    /\ (forall r, Spec.count_pair w r obs = 1 ->
          Learn.dict_get (word_replacements rs) w <> Some r)
    /\ (forall r, Spec.count_pair w r obs = 2 ->
          exists r', Learn.dict_get (word_replacements rs) w = Some r')
    /\ (forall r, 2 <= Spec.count_pair w r obs ->
          (forall r', r' <> r -> Spec.count_pair w r' obs < Spec.count_pair w r obs) ->
          Learn.dict_get (word_replacements rs) w = Some r)
    /\ (forall rs0, List.length samples < 5 ->
          Pp6.learn_from_corrections samples rs0 = (false, rs0))
    /\ (5 <= List.length samples ->
          exists rs', Pp6.learn_from_corrections samples empty_rules = (true, rs')
                      /\ word_replacements rs' = word_replacements rs)
    /\ (forall rs0, 5 <= List.length samples ->
          exists rs', Pp6.learn_from_corrections samples rs0 = (true, rs')
            /\ Learn.dict_get (word_replacements rs') w
               = match Learn.dict_get (word_replacements rs) w with
                 | Some r => Some r
                 | None => Learn.dict_get (word_replacements rs0) w
                 end).
Proof.
  intros obs.
  destruct (learn_returns samples) as (wr & Hstore & Hget & Hlearn).
  exists (RuleSet wr
            (Learn.gated Learn.qq_evidence Learn.qq_rule samples
             ++ Learn.gated Learn.dollar_evidence Learn.dollar_rule samples
             ++ Learn.gated Learn.one_evidence Learn.one_rule samples
             ++ Learn.gated Learn.zero_evidence Learn.zero_rule samples) []).
  split; [exact Hlearn|]. simpl word_replacements.
  assert (Hsome : forall r, Learn.dict_get wr w = Some r ->
            2 <= Spec.count_pair w r obs
            /\ forall r', Spec.count_pair w r' obs <= Spec.count_pair w r obs).
  { intros r Hr. rewrite Hget in Hr. exact (chosen_some samples w r Hr). }
  assert (Hiff : (exists r, Learn.dict_get wr w = Some r)
                 <-> (exists r, 2 <= Spec.count_pair w r obs)).
  { split.
    - intros [r Hr]. exists r. apply (Hsome r Hr).
    - intros [r Hr]. destruct (Learn.dict_get wr w) as [m|] eqn:Hm; [exists m; reflexivity|].
      rewrite Hget in Hm. pose proof (chosen_none samples w Hm r) as Hlt.
      fold obs in Hlt. lia. }
  split; [exact Hiff|]. split; [exact Hsome|].
  split; [|split; [|split; [|split; [|split]]]].
  - intros r H1 Hr. destruct (Hsome r Hr) as [H2 _]. lia.
  - intros r H2. apply Hiff. exists r. lia.
  - intros r H2 Hmax.
    destruct (proj2 Hiff (ex_intro _ r H2)) as [r0 Hr0].
    destruct (Hsome r0 Hr0) as [_ Hall].
    destruct (decide (r0 = r)) as [->|Hne]; [exact Hr0|].
    specialize (Hmax r0 Hne). specialize (Hall r). lia.
  - intros rs0 Hlen. unfold Pp6.learn_from_corrections.
    apply Nat.ltb_lt in Hlen. rewrite Hlen. reflexivity.
  - intros Hlen. eexists. split; [apply (pp6_returns samples wr Hlen Hstore)|].
    reflexivity.
  - intros rs0 Hlen. unfold Pp6.learn_from_corrections.
    destruct (List.length samples <? 5) eqn:E; [apply Nat.ltb_lt in E; lia|].
    destruct (store_replacements_spec (Learn.analyze_corrections samples)
                (word_replacements rs0) (well_formed_analyze samples))
      as (wr' & Hret & Hget').
    unfold Learn.analyze_corrections in Hret. rewrite Hret.
    eexists. split; [reflexivity|]. simpl word_replacements.
    rewrite Hget', Hget. reflexivity.
Qed.

Lemma word_replacements_threshold_witness :
  exists rs, Learn.learn Examples.teh_corpus = Returned rs
             /\ Learn.dict_get (word_replacements rs) (T "teh") = Some (T "the").
Proof.
  destruct (word_replacements_threshold Examples.teh_corpus (T "teh"))
    as (rs & Hlearn & _ & _ & _ & _ & Hpair & _).
  exists rs. split; [exact Hlearn|].
  apply Hpair.
  - vm_compute. lia.
  - intros r' Hne.
    replace (Learn.observations Examples.teh_corpus)
      with [(T "teh", T "the"); (T "teh", T "the")] by (vm_compute; reflexivity).
    unfold Spec.count_pair. cbn [List.filter fst snd].
    replace (Str.text_eqb (T "teh") (T "teh")) with true by (vm_compute; reflexivity).
    replace (Str.text_eqb (T "the") (T "the")) with true by (vm_compute; reflexivity).
    replace (Str.text_eqb (T "the") r') with false.
    + simpl. lia.
    + symmetry. unfold Str.text_eqb. apply bool_decide_eq_false_2.
      intros E. apply Hne. symmetry. exact E.
Defined.



(** C10, as stated, fails: on this corpus of five samples learn.py
    learns the "O in numbers" rule and pp6.py learns no pattern fix. *)
Lemma synthesizers_counterexample :
  Learn.learn Examples.zero_corpus = Returned (RuleSet [] [Learn.zero_rule] [])
  /\ Pp6.learn_from_corrections Examples.zero_corpus empty_rules
     = (true, RuleSet [] [] [])
  /\ RuleSet [] [Learn.zero_rule] [] <> RuleSet [] [] [].
Proof.
  split; [vm_compute; reflexivity|].
  split; [vm_compute; reflexivity | discriminate].
Qed.

(** C10, amended: from the empty rule set and on five samples or more,
    the two synthesizers return the same word replacements and pattern
    fixes that begin with the same qq and $O entries, each present on
    the same evidence; after these learn.py lists its l/I and O entries
    and pp6.py an l/I entry on its own test.  On fewer than five samples
    pp6.py returns false and learns nothing. *)
Theorem synthesizers_common_part (samples : list sample) :
  let common := Learn.gated Learn.qq_evidence Learn.qq_rule samples
                ++ Learn.gated Learn.dollar_evidence Learn.dollar_rule samples in
  (5 <= List.length samples ->
   exists wr,
     Learn.learn samples
     = Returned (RuleSet wr
                   (common ++ Learn.gated Learn.one_evidence Learn.one_rule samples
                           ++ Learn.gated Learn.zero_evidence Learn.zero_rule samples) [])
     /\ Pp6.learn_from_corrections samples empty_rules
        = (true, RuleSet wr
                   (common ++ Learn.gated Pp6.one_evidence Learn.one_rule samples) []))
  /\ (List.length samples < 5 ->
      Pp6.learn_from_corrections samples empty_rules = (false, empty_rules)).
Proof.
  intros common. split.
  - intros Hlen. destruct (learn_returns samples) as (wr & Hstore & _ & Hlearn).
    exists wr. unfold common. rewrite <- !app_assoc. split; [exact Hlearn|].
    exact (pp6_returns samples wr Hlen Hstore).
  - intros Hlen. unfold Pp6.learn_from_corrections.
    destruct (List.length samples <? 5) eqn:E; [reflexivity|].
    apply Nat.ltb_ge in E. lia.
Qed.

Lemma synthesizers_common_part_witness :
  (exists wr pf,
      Learn.learn Examples.five_corpus = Returned (RuleSet wr pf [])
      /\ Pp6.learn_from_corrections Examples.five_corpus empty_rules
         = (true, RuleSet wr pf []))
  /\ Pp6.learn_from_corrections Examples.teh_corpus empty_rules = (false, empty_rules).
Proof.
  split.
  - destruct (proj1 (synthesizers_common_part Examples.five_corpus)) as (wr & Hl & Hp).
    + simpl. lia.
    + exists wr. eexists. split; [exact Hl|]. rewrite Hp. vm_compute. reflexivity.
  - apply (proj2 (synthesizers_common_part Examples.teh_corpus)). simpl. lia.
Defined.

(** ** The sample store *)

Section StoreFacts.
Import Store.

Lemma T_inj (s t : string) : T s = T t -> s = t.
Proof.
  unfold T. intros H. apply (f_equal string_of_list_ascii) in H.
  rewrite !string_of_list_ascii_of_string in H. exact H.
Qed.

Lemma to_int_proper (z : Z) :
  Z.to_int z <> Decimal.Pos Decimal.Nil /\ Z.to_int z <> Decimal.Neg Decimal.Nil.
Proof.
  destruct z as [|q|q]; simpl; split; try discriminate;
    intros [= H]; exact (DecimalPos.Unsigned.to_uint_nonnil q H).
Qed.

(** [str] of an integer determines the integer. *)
Lemma of_Z_inj (z1 z2 : Z) : Str.of_Z z1 = Str.of_Z z2 -> z1 = z2.
Proof.
  unfold Str.of_Z. intros H. apply T_inj in H.
  apply (f_equal NilZero.int_of_string) in H.
  destruct (to_int_proper z1) as [A1 B1]. destruct (to_int_proper z2) as [A2 B2].
  rewrite !NilZero.isi in H by assumption.
  injection H as H. exact (DecimalZ.to_int_inj _ _ H).
Qed.

Lemma metadata_path_eq (z : Z) :
  metadata_path_of z
  = T "/home/admin/pi/corrections/training_data/sample_" ++ Str.of_Z z ++ T ".json".
Proof. reflexivity. Qed.

Lemma image_dest_eq (z : Z) :
  image_dest_of z
  = T "/home/admin/pi/corrections/training_data/sample_" ++ Str.of_Z z ++ T ".jpg".
Proof. reflexivity. Qed.

Lemma sample_id_inj (z1 z2 : Z) : sample_id_of z1 = sample_id_of z2 -> z1 = z2.
Proof. unfold sample_id_of. intros H. apply app_inv_head in H. exact (of_Z_inj _ _ H). Qed.

Lemma metadata_path_inj (z1 z2 : Z) : metadata_path_of z1 = metadata_path_of z2 -> z1 = z2.
Proof.
  rewrite !metadata_path_eq. intros H.
  apply app_inv_head in H. apply app_inv_tail in H. exact (of_Z_inj _ _ H).
Qed.

Lemma metadata_path_not_image (z1 z2 : Z) : metadata_path_of z1 <> image_dest_of z2.
Proof.
  rewrite metadata_path_eq, image_dest_eq. intros H.
  apply app_inv_head in H. apply (f_equal (@rev ascii)) in H.
  rewrite !rev_app_distr in H. simpl in H. discriminate.
Qed.

(** A successful save leaves its record under its own path. *)
Lemma save_writes (now : Z) (image ocr : text) (fs fs' : gmap text file) :
  save_training_sample now image ocr fs = (true, fs') ->
  fs' !! metadata_path_of now = Some (FJson (metadata_of now ocr)).
Proof.
  unfold save_training_sample. destruct (fs !! image); [|discriminate].
  destruct (Str.text_eqb image (image_dest_of now)); [discriminate|].
  intros [= <-]. apply lookup_insert_eq.
Qed.

(** A save at another second leaves the record of this one in place. *)
Lemma save_keeps (now now' : Z) (image ocr : text) (fs : gmap text file) (r : file) :
  now' <> now ->
  fs !! metadata_path_of now = Some r ->
  snd (save_training_sample now' image ocr fs) !! metadata_path_of now = Some r.
Proof.
  intros Hne Hr. unfold save_training_sample. destruct (fs !! image); [|exact Hr].
  destruct (Str.text_eqb image (image_dest_of now')); [exact Hr|]. simpl.
  rewrite lookup_insert_ne.
  - rewrite lookup_insert_ne; [exact Hr|].
    intros H. symmetry in H. exact (metadata_path_not_image _ _ H).
  - intros H. apply metadata_path_inj in H. congruence.
Qed.

End StoreFacts.

(** C8, as stated, fails: two captures within the same clock second get
    the same id, and the record of the second replaces that of the
    first. *)
Lemma same_second_counterexample :
  fst Examples.first_save = true
  /\ fst Examples.same_second_save = true
  /\ Store.metadata_of 1700000000 (T "first page") !! T "id"
     = Store.metadata_of 1700000000 (T "second page") !! T "id"
  /\ snd Examples.first_save !! Store.metadata_path_of 1700000000
     = Some (FJson (Store.metadata_of 1700000000 (T "first page")))
  /\ snd Examples.same_second_save !! Store.metadata_path_of 1700000000
     = Some (FJson (Store.metadata_of 1700000000 (T "second page")))
  /\ Store.metadata_of 1700000000 (T "second page")
     <> Store.metadata_of 1700000000 (T "first page").
Proof.
  assert (F1 : fst Examples.first_save = true) by (vm_compute; reflexivity).
  assert (F2 : fst Examples.same_second_save = true) by (vm_compute; reflexivity).
  assert (H1 : Examples.first_save = (true, snd Examples.first_save))
    by (rewrite <- F1; apply surjective_pairing).
  assert (H2 : Examples.same_second_save = (true, snd Examples.same_second_save))
    by (rewrite <- F2; apply surjective_pairing).
  split; [exact F1|]. split; [exact F2|].
  split; [vm_compute; reflexivity|].
  split; [exact (save_writes _ _ _ _ _ H1)|].
  split; [exact (save_writes _ _ _ _ _ H2)|].
  intros H. apply (f_equal (fun d => d !! T "ocr_text")) in H.
  vm_compute in H. discriminate.
Qed.

(** C8, amended: two saves that succeed at different clock seconds give
    their records different ids and different paths, and after the later
    save both records are in the store as written. *)
Theorem distinct_seconds_distinct_ids (fs fs1 fs2 : gmap text file)
  (now1 now2 : Z) (image1 image2 ocr1 ocr2 : text) :
  now1 <> now2 ->
  Store.save_training_sample now1 image1 ocr1 fs = (true, fs1) ->
  Store.save_training_sample now2 image2 ocr2 fs1 = (true, fs2) ->
  Store.sample_id_of now1 <> Store.sample_id_of now2
  /\ Store.metadata_of now1 ocr1 !! T "id" = Some (JStr (Store.sample_id_of now1))
  /\ Store.metadata_of now2 ocr2 !! T "id" = Some (JStr (Store.sample_id_of now2))
  /\ fs2 !! Store.metadata_path_of now1 = Some (FJson (Store.metadata_of now1 ocr1))
  /\ fs2 !! Store.metadata_path_of now2 = Some (FJson (Store.metadata_of now2 ocr2)).
Proof.
  intros Hne H1 H2.
  split; [intros H; apply sample_id_inj in H; contradiction|].
  split; [apply lookup_insert_eq|]. split; [apply lookup_insert_eq|].
  split; [|exact (save_writes _ _ _ _ _ H2)].
  pose proof (save_keeps now1 now2 image2 ocr2 fs1 _ (not_eq_sym Hne)
                (save_writes _ _ _ _ _ H1)) as Hk.
  rewrite H2 in Hk. exact Hk.
Qed.

Lemma distinct_seconds_distinct_ids_witness :
  Store.sample_id_of 1700000000 <> Store.sample_id_of 1700000007
  /\ snd Examples.later_save !! Store.metadata_path_of 1700000000
     = Some (FJson (Store.metadata_of 1700000000 (T "first page"))).
Proof.
  assert (F1 : fst Examples.first_save = true) by (vm_compute; reflexivity).
  assert (F2 : fst Examples.later_save = true) by (vm_compute; reflexivity).
  destruct (distinct_seconds_distinct_ids Examples.capture_store
              (snd Examples.first_save) (snd Examples.later_save)
              1700000000 1700000007 (T "/tmp/image.jpg") (T "/tmp/image.jpg")
              (T "first page") (T "second page")) as (Hid & _ & _ & Hrec & _).
  - lia.
  - change (Examples.first_save = (true, snd Examples.first_save)).
    rewrite <- F1. apply surjective_pairing.
  - change (Examples.later_save = (true, snd Examples.later_save)).
    rewrite <- F2. apply surjective_pairing.
  - split; [exact Hid | exact Hrec].
Defined.

(** ** The correction tool *)

Section TrainFacts.
Import Train Spec.

Ltac key_ne := let H := fresh in intros H; vm_compute in H; discriminate.

Lemma agrees_refl (d : gmap text jval) : agrees d d.
Proof. intros k _. reflexivity. Qed.

Lemma preserved_refl (fs : gmap text file) : preserved fs fs.
Proof. intros p d H. exists d. split; [exact H | apply agrees_refl]. Qed.

Lemma agrees_json_path (d : gmap text jval) (v : jval) :
  agrees d (<[T "json_path" := v]> d).
Proof.
  intros k Hk. apply lookup_insert_ne. intros <-.
  simpl in Hk. destruct Hk as [H|[H|[H|[H|[]]]]]; vm_compute in H; discriminate.
Qed.

Lemma agrees_corrected_text (d : gmap text jval) (v : jval) :
  agrees d (<[T "corrected_text" := v]> d).
Proof.
  intros k Hk. apply lookup_insert_ne. intros <-.
  simpl in Hk. destruct Hk as [H|[H|[H|[H|[]]]]]; vm_compute in H; discriminate.
Qed.

Lemma read_samples_loaded (fs : gmap text file) :
  forall names l, read_samples fs names = Returned l ->
    Forall (fun smp => exists p d, smp !! T "json_path" = Some (JStr p)
                         /\ fs !! p = Some (FJson d) /\ agrees d smp) l.
Proof.
  induction names as [|name names IH]; intros l; cbn [read_samples].
  - intros [= <-]. constructor.
  - destruct (Str.ends_with (T ".json") name); [|apply IH].
    destruct (fs !! Store.path_join TRAINING_DIR name) as [[d|]|] eqn:Hf;
      try discriminate.
    destruct (read_samples fs names) as [rest| |]; cbn [obind]; try discriminate.
    intros [= <-]. constructor; [|apply IH; reflexivity].
    exists (Store.path_join TRAINING_DIR name), d.
    split; [apply lookup_insert_eq|]. split; [exact Hf | apply agrees_json_path].
Qed.

Lemma with_keys_spec :
  forall samples keyed, with_keys samples = Returned keyed ->
    map snd keyed = samples
    /\ Forall (fun kd => snd kd !! T "timestamp" = Some (fst kd)) keyed.
Proof.
  induction samples as [|s samples IH]; intros keyed; cbn [with_keys].
  - intros [= <-]. split; [reflexivity | constructor].
  - destruct (s !! T "timestamp") as [k|] eqn:Hk; [|discriminate].
    destruct (with_keys samples) as [l| |]; cbn [obind]; try discriminate.
    intros [= <-]. destruct (IH l eq_refl) as [Hmap Hall].
    split; [simpl; f_equal; exact Hmap|]. constructor; [exact Hk | exact Hall].
Qed.

Lemma insert_sorted_Forall (P : jval * gmap text jval -> Prop)
  (x : jval * gmap text jval) (l : list (jval * gmap text jval)) :
  P x -> Forall P l -> Forall P (insert_sorted x l).
Proof.
  intros Hx Hl. induction Hl as [|y l Hy Hl IH]; simpl.
  - constructor; [exact Hx | constructor].
  - destruct (key_lt (fst x) (fst y)).
    + constructor; [exact Hx|]. constructor; assumption.
    + constructor; assumption.
Qed.

Lemma sort_fold_Forall (P : jval * gmap text jval -> Prop) :
  forall l acc, Forall P l -> Forall P acc ->
    Forall P (fold_left (fun acc x => insert_sorted x acc) l acc).
Proof.
  induction l as [|x l IH]; intros acc Hl Hacc; simpl; [exact Hacc|].
  inversion Hl; subst. apply IH; [assumption|].
  apply insert_sorted_Forall; assumption.
Qed.

(** Sorting hands out the samples that were read, each with a
    timestamp. *)
Lemma load_samples_loaded (fs : gmap text file) (names : list text)
  (samples : list (gmap text jval)) :
  load_samples fs names = Returned samples ->
  Forall (loaded_from fs) samples.
Proof.
  unfold load_samples. intros H.
  apply obind_returned in H as (l & Hread & Hsort).
  pose proof (read_samples_loaded fs names l Hread) as Hl.
  unfold sorted_by_timestamp in Hsort.
  apply obind_returned in Hsort as (keyed & Hkeys & Hsort).
  destruct (with_keys_spec l keyed Hkeys) as [Hmap Hts].
  assert (Hboth : Forall (fun kd => loaded_from fs (snd kd)) keyed).
  { subst l. clear Hkeys Hsort Hread.
    induction keyed as [|kd keyed IH]; [constructor|].
    inversion Hl; subst. inversion Hts; subst.
    constructor; [|apply IH; assumption].
    split; [eexists; eassumption | assumption]. }
  assert (Hsorted : Forall (fun kd => loaded_from fs (snd kd))
                      (fold_left (fun acc x => insert_sorted x acc) keyed []))
    by (apply sort_fold_Forall; [exact Hboth | constructor]).
  destruct keyed as [|[k0 s0] keyed']; [injection Hsort as <-; constructor|].
  destruct (forallb _ _); [|discriminate].
  injection Hsort as <-.
  apply List.Forall_map. exact Hsorted.
Qed.

Lemma save_sample_preserves (fs0 fs : gmap text file) (smp : gmap text jval) (c : jval) :
  preserved fs0 fs ->
  loaded_from fs0 smp ->
  is_Some (smp !! T "id") -> is_Some (smp !! T "ocr_text") ->
  is_Some (smp !! T "image_path") ->
  exists fs', save_sample (<[T "corrected_text" := c]> smp) fs = (Returned tt, fs')
              /\ preserved fs0 fs'.
Proof.
  intros Hpres [[t Ht] (p & d & Hpath & Hfile & Hagree)] [i Hi] [o Ho] [ip Hip].
  unfold save_sample.
  rewrite lookup_insert_ne by key_ne. rewrite Hpath.
  rewrite (lookup_insert_ne _ _ (T "id")) by key_ne. rewrite Hi.
  rewrite (lookup_insert_ne _ _ (T "timestamp")) by key_ne. rewrite Ht.
  rewrite (lookup_insert_ne _ _ (T "ocr_text")) by key_ne. rewrite Ho.
  rewrite lookup_insert_eq.
  rewrite (lookup_insert_ne _ _ (T "image_path")) by key_ne. rewrite Hip.
  eexists. split; [reflexivity|].
  intros q dq Hq.
  destruct (decide (p = q)) as [<-|Hne].
  - rewrite lookup_insert_eq. eexists. split; [reflexivity|].
    assert (dq = d) by congruence. subst dq.
    intros k Hk. rewrite <- (Hagree k Hk).
    simpl in Hk. destruct Hk as [<-|[<-|[<-|[<-|[]]]]].
    + rewrite lookup_insert_eq. symmetry. exact Hi.
    + rewrite lookup_insert_ne by key_ne. rewrite lookup_insert_eq.
      symmetry. exact Ht.
    + do 2 rewrite lookup_insert_ne by key_ne. rewrite lookup_insert_eq.
      symmetry. exact Ho.
    + do 4 rewrite lookup_insert_ne by key_ne. rewrite lookup_insert_eq.
      symmetry. exact Hip.
  - rewrite lookup_insert_ne by exact Hne. exact (Hpres q dq Hq).
Qed.

Lemma correct_loop_preserves (fs0 : gmap text file) :
  forall (samples : list (gmap text jval)) (inputs : list text) (fs : gmap text file),
    Forall (loaded_from fs0) samples ->
    preserved fs0 fs ->
    preserved fs0 (correct_loop samples inputs fs).
Proof.
  induction samples as [|smp samples IH]; intros inputs fs Hall Hpres;
    cbn [correct_loop].
  - exact Hpres.
  - inversion Hall as [|? ? Hsmp Hall']; subst.
    destruct (smp !! T "id") as [i|] eqn:Hi; [|exact Hpres].
    destruct (smp !! T "image_path") as [ip|] eqn:Hip; [|exact Hpres].
    destruct (smp !! T "ocr_text") as [o|] eqn:Ho; [|exact Hpres].
    destruct inputs as [|line inputs]; [exact Hpres|].
    destruct (Str.text_eqb (Str.lower (Str.strip line)) (T "q")); [exact Hpres|].
    destruct (Str.text_eqb (Str.lower (Str.strip line)) (T "s"));
      [apply IH; assumption|].
    assert (Hsave : forall c, exists fs',
               save_sample (<[T "corrected_text" := c]> smp) fs = (Returned tt, fs')
               /\ preserved fs0 fs').
    { intros c. apply save_sample_preserves; try assumption; eexists; eassumption. }
    destruct (Str.text_eqb (Str.strip line) []).
    + destruct (Hsave (match smp !! T "corrected_text" with Some c => c | None => o end))
        as (fs' & -> & Hp'). apply IH; assumption.
    + destruct (Hsave (JStr (Str.strip line))) as (fs' & -> & Hp').
      apply IH; assumption.
Qed.

Lemma main_preserves (listing : option (list text)) (inputs : list text)
  (fs : gmap text file) :
  preserved fs (main listing inputs fs).
Proof.
  unfold main. destruct listing as [names|]; [|apply preserved_refl].
  destruct (load_samples fs names) as [samples| |] eqn:Hload;
    try apply preserved_refl.
  apply correct_loop_preserves; [|apply preserved_refl].
  exact (load_samples_loaded fs names samples Hload).
Qed.

End TrainFacts.

(** C9: whatever the directory listing and whatever is typed at the
    prompts, a sample record that was in the store when the correction
    tool started is still a record when the tool ends, and its [id],
    [timestamp], [ocr_text] and [image_path] fields are what they were;
    only [corrected_text] may have changed. *)
Theorem correction_tool_frame (listing : option (list text)) (inputs : list text)
  (fs : gmap text file) (p : text) (d : gmap text jval) :
  fs !! p = Some (FJson d) ->
  exists d', Train.main listing inputs fs !! p = Some (FJson d')
    /\ d' !! T "id" = d !! T "id"
    /\ d' !! T "timestamp" = d !! T "timestamp"
    /\ d' !! T "ocr_text" = d !! T "ocr_text"
    /\ d' !! T "image_path" = d !! T "image_path".
Proof.
  intros Hp. destruct (main_preserves listing inputs fs p d Hp) as (d' & Hd' & Hag).
  exists d'. split; [exact Hd'|].
  repeat split; apply Hag; simpl; tauto.
Qed.

Lemma correction_tool_frame_witness :
  exists d',
    Train.main (Some [T "sample_5.json"]) [T "the cat"] Examples.tool_store
      !! Examples.tool_path = Some (FJson d')
    /\ d' !! T "ocr_text" = Some (JStr (T "teh cat"))
    /\ d' !! T "corrected_text" = Some (JStr (T "the cat")).
Proof.
  destruct (correction_tool_frame (Some [T "sample_5.json"]) [T "the cat"]
              Examples.tool_store Examples.tool_path
              (Store.metadata_of 5 (T "teh cat"))) as (d' & Hd' & _ & _ & Hocr & _).
  - apply lookup_insert_eq.
  - exists d'. split; [exact Hd'|]. split.
    + rewrite Hocr. vm_compute. reflexivity.
    + match type of Hd' with
      | ?stored = _ =>
          assert (Hrun : match stored with
                         | Some (FJson d) => d !! T "corrected_text"
                         | _ => None
                         end = Some (JStr (T "the cat")))
            by (vm_compute; reflexivity)
      end.
      rewrite Hd' in Hrun. exact Hrun.
Defined.

(** ** The scan of [find_longest_match] *)

Section ScanFacts.
Import Difflib Scan.
Variables a b : list text.

Lemma run_unfold (alo blo i j : nat) :
  run a b alo blo i j
  = if same_at a b i j && (alo <=? i) && (blo <=? j)
    then S (prev_run a b alo blo i j) else 0.
Proof. destruct i; reflexivity. Qed.

Lemma run_zero_same (alo blo i j : nat) :
  same_at a b i j = false -> run a b alo blo i j = 0.
Proof. intros H. rewrite run_unfold, H. reflexivity. Qed.

Lemma run_pos (alo blo i j : nat) :
  0 < run a b alo blo i j ->
  same_at a b i j = true /\ alo <= i /\ blo <= j.
Proof.
  rewrite run_unfold.
  destruct (same_at a b i j); simpl; [|lia].
  destruct (Nat.leb_spec alo i); simpl; [|lia].
  destruct (Nat.leb_spec blo j); simpl; [|lia].
  intros _. repeat split; assumption.
Qed.

Lemma run_hit (alo blo i j : nat) :
  same_at a b i j = true -> alo <= i -> blo <= j ->
  run a b alo blo i j = S (prev_run a b alo blo i j).
Proof.
  intros H Hi Hj. rewrite run_unfold, H.
  destruct (Nat.leb_spec alo i); [|lia].
  destruct (Nat.leb_spec blo j); [|lia]. reflexivity.
Qed.

Lemma run_below (alo blo i j : nat) : j < blo -> run a b alo blo i j = 0.
Proof.
  intros H. rewrite run_unfold.
  destruct (Nat.leb_spec blo j); [lia|]. rewrite andb_false_r. reflexivity.
Qed.

Lemma same_at_none_b (i j : nat) : nth_error b j = None -> same_at a b i j = false.
Proof. intros H. unfold same_at. rewrite H. destruct (nth_error a i); reflexivity. Qed.

Lemma same_at_eq (i j : nat) (x y : text) :
  nth_error a i = Some x -> nth_error b j = Some y ->
  same_at a b i j = Str.text_eqb x y.
Proof. intros Hx Hy. unfold same_at. rewrite Hx, Hy. reflexivity. Qed.

(** The run ending at [(i, j)] fits between the lower bounds. *)
Lemma run_le_a (alo blo : nat) : forall i j, run a b alo blo i j <= i + 1 - alo.
Proof.
  induction i as [|i IH]; intros j; rewrite run_unfold.
  - destruct (same_at a b 0 j); simpl; [|lia].
    destruct (Nat.leb_spec alo 0); simpl; [|lia].
    destruct (blo <=? j); simpl; lia.
  - destruct (same_at a b (S i) j); simpl; [|lia].
    destruct (Nat.leb_spec alo (S i)); simpl; [|lia].
    destruct (blo <=? j); simpl; [|lia].
    destruct j as [|j]; [lia|]. specialize (IH j). lia.
Qed.

Lemma run_le_b (alo blo : nat) : forall i j, run a b alo blo i j <= j + 1 - blo.
Proof.
  induction i as [|i IH]; intros j; rewrite run_unfold.
  - destruct (same_at a b 0 j); simpl; [|lia].
    destruct (alo <=? 0); simpl; [|lia].
    destruct (Nat.leb_spec blo j); simpl; lia.
  - destruct (same_at a b (S i) j); simpl; [|lia].
    destruct (alo <=? S i); simpl; [|lia].
    destruct (Nat.leb_spec blo j); simpl; [|lia].
    destruct j as [|j]; [lia|]. specialize (IH j). lia.
Qed.

Hypothesis Hshort : List.length b < 200.

Lemma popular_short (x : text) : popular b x = false.
Proof.
  unfold popular. destruct (Nat.leb_spec 200 (List.length b)); [lia | reflexivity].
Qed.

Lemma b2j_short (x : text) : b2j b x = indices_from x b 0.
Proof. unfold b2j. rewrite popular_short. reflexivity. Qed.

Section Candidate.
Variables alo ahi blo bhi I J K : nat.
Hypothesis HK : 0 < K.
Hypothesis HIhi : I < ahi.
Hypothesis HJhi : J < bhi.
Hypothesis Hahi : ahi <= List.length a.
Hypothesis Hcand : run a b alo blo I J = K.
Hypothesis Hle : forall i j, i < ahi -> j < bhi -> run a b alo blo i j <= K.
Hypothesis Hfirst : forall i j, i < ahi -> j < bhi ->
  run a b alo blo i j = K -> I < i \/ (I = i /\ J <= j).

Lemma cand_same : same_at a b I J = true /\ alo <= I /\ blo <= J.
Proof. apply (run_pos alo blo). rewrite Hcand. exact HK. Qed.

Lemma inv_skip (i j0 : nat) (best : block) :
  scan_inv I J K i j0 best -> ~ (I = i /\ J = j0) ->
  scan_inv I J K i (S j0) best.
Proof.
  unfold scan_inv, passed. intros [[Hp Hb]|[Hp Hb]] Hne; [left | right];
    (split; [lia | assumption]).
Qed.

Lemma inv_end (i j0 : nat) (best : block) :
  scan_inv I J K i j0 best -> (I = i -> J < j0) ->
  scan_inv I J K (S i) 0 best.
Proof.
  unfold scan_inv, passed. intros [[Hp Hb]|[Hp Hb]] Hne; [left | right];
    (split; [lia | assumption]).
Qed.

Lemma inv_step (i j0 : nat) (best : block) :
  i < ahi -> j0 < bhi ->
  scan_inv I J K i j0 best ->
  let k := run a b alo blo i j0 in
  scan_inv I J K i (S j0) (if snd best <? k then (i + 1 - k, j0 + 1 - k, k) else best).
Proof.
  intros Hi Hj Hinv k.
  pose proof (Hle i j0 Hi Hj) as Hk. fold k in Hk.
  pose proof (Hfirst i j0 Hi Hj) as Hf. fold k in Hf.
  unfold scan_inv, passed in *. destruct Hinv as [[Hp Hb]|[Hp Hb]].
  - left. split; [lia|]. rewrite Hb. simpl.
    destruct (Nat.ltb_spec K k); [lia | reflexivity].
  - destruct (Nat.eq_dec k K) as [Heq|Hne].
    + left. specialize (Hf Heq).
      assert (I = i /\ J = j0) as [<- <-] by lia.
      split; [lia|]. destruct (Nat.ltb_spec (snd best) k); [|lia].
      rewrite Heq. reflexivity.
    + right. split; [|destruct (Nat.ltb_spec (snd best) k); simpl; lia].
      intros Hpass. apply Hp.
      assert (Hc := cand_same). unfold k in Hne.
      destruct (Nat.eq_dec I i) as [->|]; [|lia].
      destruct (Nat.eq_dec J j0) as [->|]; [|lia].
      congruence.
Qed.

Lemma row_scan (i : nat) (x : text) (j2len : list (nat * nat)) :
  nth_error a i = Some x -> alo <= i -> i < ahi ->
  (forall j, blo <= j -> j < bhi -> dget_pred j2len j = prev_run a b alo blo i j) ->
  forall (l : list text) (j0 : nat) (new : list (nat * nat)) (best : block),
    (forall t, nth_error l t = nth_error b (j0 + t)) ->
    (forall j, dget new j = if j <? j0 then cell a b alo blo bhi i j else 0) ->
    scan_inv I J K i j0 best ->
    exists new' best',
      row i blo bhi (indices_from x l j0) j2len new best = (new', best')
      /\ (forall j, dget new' j = cell a b alo blo bhi i j)
      /\ scan_inv I J K (S i) 0 best'.
Proof.
  intros Hx Hlo Hhi Hprev.
  destruct cand_same as (HsameIJ & HIlo & HJlo).
  induction l as [|y l IH]; intros j0 new best Hl Hnew Hinv.
  - exists new, best. split; [reflexivity|]. split.
    + intros j. rewrite Hnew. destruct (Nat.ltb_spec j j0); [reflexivity|].
      unfold cell. destruct (j <? bhi); [|reflexivity].
      symmetry. apply run_zero_same, same_at_none_b.
      specialize (Hl (j - j0)). replace (j0 + (j - j0)) with j in Hl by lia.
      rewrite <- Hl. destruct (j - j0); reflexivity.
    + apply (inv_end i j0); [exact Hinv|]. intros <-.
      destruct (Nat.lt_ge_cases J j0) as [|Hge]; [assumption|]. exfalso.
      specialize (Hl (J - j0)). replace (j0 + (J - j0)) with J in Hl by lia.
      unfold same_at in HsameIJ. rewrite <- Hl in HsameIJ.
      destruct (nth_error a I); [|discriminate].
      destruct (J - j0); discriminate.
  - assert (Hy : nth_error b j0 = Some y).
    { specialize (Hl 0). rewrite Nat.add_0_r in Hl. symmetry. exact Hl. }
    assert (Hl' : forall t, nth_error l t = nth_error b (S j0 + t)).
    { intros t. specialize (Hl (S t)). simpl in Hl.
      replace (S j0 + t) with (j0 + S t) by lia. exact Hl. }
    assert (Hsame : same_at a b i j0 = Str.text_eqb x y)
      by (apply same_at_eq; assumption).
    simpl. destruct (Str.text_eqb x y) eqn:Exy.
    + simpl. destruct (Nat.ltb_spec j0 blo) as [Hlt|Hge].
      * (* below the window: continue *)
        apply (IH (S j0)); [exact Hl'| |].
        -- intros j. rewrite Hnew.
           destruct (Nat.ltb_spec j j0), (Nat.ltb_spec j (S j0)); try lia; try reflexivity.
           assert (j = j0) by lia. subst j. unfold cell.
           rewrite (run_below alo blo i j0 Hlt). destruct (j0 <? bhi); reflexivity.
        -- apply inv_skip; [exact Hinv|]. lia.
      * destruct (Nat.leb_spec bhi j0) as [Hout|Hin].
        -- (* past the window: break *)
           exists new, best. split; [reflexivity|]. split.
           ++ intros j. rewrite Hnew. destruct (Nat.ltb_spec j j0); [reflexivity|].
              unfold cell. destruct (Nat.ltb_spec j bhi); [lia | reflexivity].
           ++ apply (inv_end i j0); [exact Hinv|]. lia.
        -- (* inside: count *)
           assert (Hk : dget_pred j2len j0 + 1 = run a b alo blo i j0).
           { rewrite (Hprev j0 Hge Hin), run_hit; [lia | congruence | exact Hlo | exact Hge]. }
           rewrite Hk.
           apply (IH (S j0)); [exact Hl'| |].
           ++ intros j. simpl. rewrite Hnew.
              destruct (Nat.eqb_spec j0 j) as [<-|Hne].
              ** destruct (Nat.ltb_spec j0 (S j0)); [|lia].
                 unfold cell. destruct (Nat.ltb_spec j0 bhi); [reflexivity | lia].
              ** destruct (Nat.ltb_spec j j0), (Nat.ltb_spec j (S j0));
                   try lia; reflexivity.
           ++ apply inv_step; assumption.
    + (* no entry of b2j at j0 *)
      apply (IH (S j0)); [exact Hl'| |].
      * intros j. rewrite Hnew.
        destruct (Nat.ltb_spec j j0), (Nat.ltb_spec j (S j0)); try lia; try reflexivity.
        assert (j = j0) by lia. subst j. unfold cell.
        rewrite (run_zero_same alo blo i j0 Hsame). destruct (j0 <? bhi); reflexivity.
      * apply inv_skip; [exact Hinv|]. intros [<- <-]. congruence.
Qed.

Lemma rows_scan :
  forall (n i : nat) (j2len : list (nat * nat)) (best : block),
    i + n = ahi -> alo <= i ->
    (forall j, blo <= j -> j < bhi -> dget_pred j2len j = prev_run a b alo blo i j) ->
    scan_inv I J K i 0 best ->
    scan_inv I J K ahi 0 (rows a b (seq i n) blo bhi j2len best).
Proof.
  induction n as [|n IH]; intros i j2len best Hn Hlo Hprev Hinv; simpl.
  - replace ahi with i by lia. exact Hinv.
  - destruct (nth_error a i) as [x|] eqn:Hx.
    2:{ apply nth_error_None in Hx. lia. }
    rewrite b2j_short.
    destruct (row_scan i x j2len Hx Hlo ltac:(lia) Hprev b 0 [] best)
      as (new' & best' & Hrow & Hnew' & Hinv').
    + intros t. reflexivity.
    + intros j. reflexivity.
    + exact Hinv.
    + rewrite Hrow. apply IH; [lia | lia | | exact Hinv'].
      intros j Hj1 Hj2. destruct j as [|j]; [reflexivity|]. simpl.
      rewrite Hnew'. unfold cell. destruct (Nat.ltb_spec j bhi); [reflexivity | lia].
Qed.

(** The scan returns the block that ends at [(I, J)]. *)
Lemma rows_candidate :
  alo <= ahi ->
  rows a b (seq alo (ahi - alo)) blo bhi [] (alo, blo, 0)
  = (I + 1 - K, J + 1 - K, K).
Proof.
  intros Hw.
  destruct cand_same as (_ & HIlo & _).
  assert (H : scan_inv I J K ahi 0
                (rows a b (seq alo (ahi - alo)) blo bhi [] (alo, blo, 0))).
  { apply rows_scan; [lia | lia | |].
    - intros j _ _. unfold dget_pred, prev_run.
      destruct j as [|j]; [destruct alo; reflexivity|].
      destruct alo as [|alo']; [reflexivity|]. simpl.
      rewrite run_unfold. destruct (Nat.leb_spec (S alo') alo'); [lia|].
      rewrite andb_false_r. reflexivity.
    - right. unfold passed. simpl. split; lia. }
  destruct H as [[_ H]|[Hp _]]; [exact H|].
  exfalso. apply Hp. unfold passed. lia.
Qed.

End Candidate.
End ScanFacts.

(** ** One substituted word *)

Section OneSubstitution.
Import Difflib Scan.
Variables pre post : list text.
Variables x y : text.

Let a := pre ++ x :: post.
Let b := pre ++ y :: post.
Let p := List.length pre.
Let r0 := List.length post.
Let n := p + S r0.

Hypothesis Hx : ~ In x b.
Hypothesis Hy : ~ In y a.
Hypothesis Hshort : List.length b < 200.

Ltac nb :=
  repeat match goal with
  | |- context [?u <? ?v] =>
      first [ replace (u <? v) with true by (symmetry; apply Nat.ltb_lt; lia)
            | replace (u <? v) with false by (symmetry; apply Nat.ltb_ge; lia) ]
  | |- context [?u <=? ?v] =>
      first [ replace (u <=? v) with true by (symmetry; apply Nat.leb_le; lia)
            | replace (u <=? v) with false by (symmetry; apply Nat.leb_gt; lia) ]
  | |- context [?u =? ?v] =>
      first [ replace (u =? v) with true by (symmetry; apply Nat.eqb_eq; lia)
            | replace (u =? v) with false by (symmetry; apply Nat.eqb_neq; lia) ]
  end.

Lemma length_a : List.length a = n.
Proof. unfold a, n, p, r0. rewrite length_app. simpl. reflexivity. Qed.

Lemma length_b : List.length b = n.
Proof. unfold b, n, p, r0. rewrite length_app. simpl. reflexivity. Qed.

Lemma nth_a_p : nth_error a p = Some x.
Proof. unfold a, p. rewrite nth_error_app2 by lia. rewrite Nat.sub_diag. reflexivity. Qed.

Lemma nth_b_p : nth_error b p = Some y.
Proof. unfold b, p. rewrite nth_error_app2 by lia. rewrite Nat.sub_diag. reflexivity. Qed.

Lemma nth_same (i : nat) : i <> p -> nth_error a i = nth_error b i.
Proof.
  intros Hi. unfold a, b. destruct (Nat.lt_ge_cases i p) as [Hlt|Hge].
  - rewrite !nth_error_app1 by (fold p; lia). reflexivity.
  - rewrite !nth_error_app2 by (fold p; lia). fold p.
    destruct (i - p) eqn:E; [lia | reflexivity].
Qed.

Lemma text_eqb_diff (s t : text) : s <> t -> Str.text_eqb s t = false.
Proof. intros H. unfold Str.text_eqb. apply bool_decide_eq_false. exact H. Qed.

Lemma same_row_p (j : nat) : same_at a b p j = false.
Proof.
  unfold same_at. rewrite nth_a_p. destruct (nth_error b j) as [z|] eqn:Hz; [|reflexivity].
  apply text_eqb_diff. intros <-. apply Hx. exact (nth_error_In _ _ Hz).
Qed.

Lemma same_col_p (i : nat) : same_at a b i p = false.
Proof.
  unfold same_at. rewrite nth_b_p. destruct (nth_error a i) as [z|] eqn:Hz; [|reflexivity].
  apply text_eqb_diff. intros ->. apply Hy. exact (nth_error_In _ _ Hz).
Qed.

Lemma same_diag (i : nat) : i <> p -> i < n -> same_at a b i i = true.
Proof.
  intros Hi Hn. unfold same_at. rewrite <- (nth_same i Hi).
  destruct (nth_error a i) as [z|] eqn:Hz; [apply text_eqb_refl|].
  apply nth_error_None in Hz. rewrite length_a in Hz. lia.
Qed.

Lemma x_absent : indices_from x b 0 = [].
Proof.
  assert (G : forall l j0, ~ In x l -> indices_from x l j0 = []).
  { induction l as [|z l IH]; intros j0 Hl; simpl; [reflexivity|].
    rewrite text_eqb_diff; [apply IH; intros H; apply Hl; right; exact H|].
    intros ->. apply Hl. left. reflexivity. }
  apply G. exact Hx.
Qed.

(** A run cannot step over the substituted position. *)
Lemma run_after_a (alo blo : nat) :
  forall i j, p <= i -> run a b alo blo i j <= i - p.
Proof.
  induction i as [|i IH]; intros j Hi.
  - assert (p = 0) by lia. rewrite run_zero_same; [lia|].
    replace 0 with p at 1 by assumption. apply same_row_p.
  - destruct (Nat.eq_dec p (S i)) as [E|E].
    + rewrite run_zero_same; [lia|]. rewrite <- E. apply same_row_p.
    + rewrite run_unfold.
      destruct (same_at a b (S i) j && (alo <=? S i) && (blo <=? j)); [|lia].
      destruct j as [|j]; simpl; [lia|]. specialize (IH j). lia.
Qed.

Lemma run_after_b (alo blo : nat) :
  forall i j, p <= j -> run a b alo blo i j <= j - p.
Proof.
  induction i as [|i IH]; intros j Hj.
  - rewrite run_unfold.
    destruct (Nat.eq_dec p j) as [<-|E]; [rewrite same_col_p; simpl; lia|].
    destruct (same_at a b 0 j && (alo <=? 0) && (blo <=? j)); simpl; lia.
  - rewrite run_unfold.
    destruct (Nat.eq_dec p j) as [<-|E]; [rewrite same_col_p; simpl; lia|].
    destruct (same_at a b (S i) j && (alo <=? S i) && (blo <=? j)); [|lia].
    destruct j as [|j]; simpl; [lia|]. specialize (IH j). lia.
Qed.

Lemma run_diag_left (lo : nat) :
  forall i, lo <= i -> i < p -> run a b lo lo i i = i + 1 - lo.
Proof.
  induction i as [|i IH]; intros Hlo Hp.
  - rewrite run_hit; [simpl; lia | apply same_diag; unfold n; lia | lia | lia].
  - rewrite run_hit; [| apply same_diag; unfold n; lia | lia | lia]. simpl.
    destruct (Nat.eq_dec lo (S i)) as [->|E].
    + rewrite run_unfold. destruct (Nat.leb_spec (S i) i); [lia|].
      rewrite andb_false_r. simpl. lia.
    + rewrite IH by lia. lia.
Qed.

Lemma run_diag_right (lo : nat) :
  forall i, lo <= p -> p <= i -> i < n -> run a b lo lo i i = i - p.
Proof.
  induction i as [|i IH]; intros Hlo Hp Hn.
  - rewrite run_zero_same; [lia|]. assert (E : p = 0) by lia.
    replace 0 with p by assumption. apply same_row_p.
  - destruct (Nat.eq_dec p (S i)) as [E|E].
    + rewrite run_zero_same; [lia|]. rewrite <- E. apply same_row_p.
    + rewrite run_hit; [| apply same_diag; lia | lia | lia]. simpl.
      rewrite IH by lia. lia.
Qed.

Lemma extend_left_stop (fuel alo blo bi bj bs : nat) :
  (alo <? bi) && (blo <? bj) && same_at a b (bi - 1) (bj - 1) = false ->
  extend_left a b fuel alo blo (bi, bj, bs) = (bi, bj, bs).
Proof. intros H. destruct fuel; simpl; [reflexivity|]. rewrite H. reflexivity. Qed.

Lemma extend_right_stop (fuel ahi bhi bi bj bs : nat) :
  (bi + bs <? ahi) && (bj + bs <? bhi) && same_at a b (bi + bs) (bj + bs) = false ->
  extend_right a b fuel ahi bhi (bi, bj, bs) = (bi, bj, bs).
Proof. intros H. destruct fuel; simpl; [reflexivity|]. rewrite H. reflexivity. Qed.

(** The longest block of a window that straddles the substituted
    position: the part before it when that is at least as long as the
    part after it. *)
Lemma flm_left (lo hi : nat) :
  lo < p -> p < hi -> hi <= n -> hi - p - 1 <= p - lo ->
  find_longest_match a b (lo, hi, lo, hi) = (lo, lo, p - lo).
Proof.
  intros H1 H2 H3 H4. unfold find_longest_match.
  rewrite (rows_candidate a b Hshort lo hi lo hi (p - 1) (p - 1) (p - lo)).
  - replace (p - 1 + 1 - (p - lo)) with lo by lia. simpl fst.
    rewrite extend_left_stop by (nb; reflexivity).
    apply extend_right_stop.
    replace (lo + (p - lo)) with p by lia. rewrite same_row_p. apply andb_false_r.
  - lia.
  - lia.
  - lia.
  - rewrite length_a. exact H3.
  - rewrite run_diag_left by lia. lia.
  - intros i j Hi Hj. destruct (Nat.lt_ge_cases i p).
    + pose proof (run_le_a a b lo lo i j). lia.
    + pose proof (run_after_a lo lo i j). lia.
  - intros i j Hi Hj Hr.
    pose proof (run_le_a a b lo lo i j). pose proof (run_le_b a b lo lo i j). lia.
  - lia.
Qed.

Lemma flm_right (lo hi : nat) :
  lo <= p -> p < hi -> hi <= n -> p - lo < hi - p - 1 ->
  find_longest_match a b (lo, hi, lo, hi) = (p + 1, p + 1, hi - p - 1).
Proof.
  intros H1 H2 H3 H4. unfold find_longest_match.
  rewrite (rows_candidate a b Hshort lo hi lo hi (hi - 1) (hi - 1) (hi - p - 1)).
  - replace (hi - 1 + 1 - (hi - p - 1)) with (p + 1) by lia. simpl fst.
    rewrite extend_left_stop.
    + apply extend_right_stop. nb. reflexivity.
    + replace (p + 1 - 1) with p by lia. rewrite same_row_p. apply andb_false_r.
  - lia.
  - lia.
  - lia.
  - rewrite length_a. exact H3.
  - rewrite run_diag_right by lia. lia.
  - intros i j Hi Hj. destruct (Nat.lt_ge_cases i p).
    + pose proof (run_le_a a b lo lo i j). lia.
    + pose proof (run_after_a lo lo i j). lia.
  - intros i j Hi Hj Hr.
    assert (p <= i).
    { destruct (Nat.lt_ge_cases i p); [|assumption].
      pose proof (run_le_a a b lo lo i j). lia. }
    assert (p <= j).
    { destruct (Nat.lt_ge_cases j p); [|assumption].
      pose proof (run_le_b a b lo lo i j). lia. }
    pose proof (run_after_a lo lo i j). pose proof (run_after_b lo lo i j). lia.
  - lia.
Qed.

Lemma flm_none : find_longest_match a b (p, p + 1, p, p + 1) = (p, p, 0).
Proof.
  unfold find_longest_match. replace (p + 1 - p) with 1 by lia.
  cbn [seq rows]. rewrite nth_a_p, (b2j_short b Hshort), x_absent. cbn [row rows fst].
  rewrite extend_left_stop by (nb; reflexivity).
  apply extend_right_stop. rewrite !Nat.add_0_r, same_row_p. apply andb_false_r.
Qed.

Lemma matching_blocks_one :
  get_matching_blocks a b
  = (if p =? 0 then [] else [(0, 0, p)])
    ++ (if r0 =? 0 then [] else [(p + 1, p + 1, r0)])
    ++ [(n, n, 0)].
Proof.
  assert (Hn : n = p + S r0) by reflexivity.
  unfold get_matching_blocks, loop_fuel. rewrite length_a, length_b.
  replace (2 * n + 2) with (S (S (S (S (2 * n - 2))))) by lia.
  destruct (Nat.eq_dec p 0) as [Hp0|Hp0]; destruct (Nat.eq_dec r0 0) as [Hr0|Hr0].
  - (* a single word on each side *)
    replace (0, n, 0, n) with (p, p + 1, p, p + 1) by (repeat f_equal; lia).
    cbn [blocks_loop]. rewrite flm_none. cbn [blocks_loop Nat.eqb rev].
    nb. reflexivity.
  - (* the substituted word comes first *)
    cbn [blocks_loop]. rewrite (flm_right 0 n) by lia.
    nb. cbn [andb blocks_loop].
    replace (0, p + 1, 0, p + 1) with (p, p + 1, p, p + 1) by (repeat f_equal; lia).
    rewrite flm_none. cbn [Nat.eqb blocks_loop rev app].
    replace (n - p - 1) with r0 by lia.
    cbn [sort_blocks fold_right insert_block collapse app]. nb.
    cbn [andb app]. nb. reflexivity.
  - (* the substituted word comes last *)
    cbn [blocks_loop]. rewrite (flm_left 0 n) by lia.
    rewrite ?Nat.add_0_l, ?Nat.sub_0_r.
    nb. cbn [andb blocks_loop].
    replace (p, n, p, n) with (p, p + 1, p, p + 1) by (repeat f_equal; lia).
    rewrite flm_none. cbn [Nat.eqb blocks_loop rev app].
    cbn [sort_blocks fold_right insert_block collapse app]. nb.
    cbn [andb app]. nb. reflexivity.
  - destruct (Nat.lt_ge_cases p r0) as [Hlt|Hge].
    + (* the longer part is after the substituted word *)
      cbn [blocks_loop]. rewrite (flm_right 0 n) by lia.
      nb. cbn [andb blocks_loop].
      rewrite (flm_left 0 (p + 1)) by lia.
      rewrite ?Nat.add_0_l, ?Nat.sub_0_r.
      nb. cbn [andb blocks_loop].
      rewrite flm_none. cbn [Nat.eqb blocks_loop rev app].
      replace (n - p - 1) with r0 by lia.
      cbn [sort_blocks fold_right insert_block block_leb]. nb.
      cbn [andb orb collapse]. nb. cbn [andb app]. nb. reflexivity.
    + (* the longer part is before the substituted word *)
      cbn [blocks_loop]. rewrite (flm_left 0 n) by lia.
      rewrite ?Nat.add_0_l, ?Nat.sub_0_r.
      nb. cbn [andb blocks_loop].
      rewrite (flm_right p n) by lia.
      nb. cbn [andb blocks_loop].
      rewrite flm_none. cbn [Nat.eqb blocks_loop rev app].
      replace (n - p - 1) with r0 by lia.
      cbn [sort_blocks fold_right insert_block block_leb]. nb.
      cbn [andb orb collapse]. nb. cbn [andb app]. nb. reflexivity.
Qed.

Lemma opcodes_one :
  get_opcodes a b
  = (if p =? 0 then [] else [(Equal, 0, p, 0, p)])
    ++ [(Replace, p, p + 1, p, p + 1)]
    ++ (if r0 =? 0 then [] else [(Equal, p + 1, n, p + 1, n)]).
Proof.
  assert (Hn : n = p + S r0) by reflexivity.
  unfold get_opcodes. rewrite matching_blocks_one.
  destruct (Nat.eqb_spec p 0) as [Hp0|Hp0]; destruct (Nat.eqb_spec r0 0) as [Hr0|Hr0];
    cbn [app opcodes_from]; nb; cbn [andb app]; nb; cbn [app];
    rewrite ?Nat.add_0_l, ?Nat.add_0_r; repeat first [reflexivity | lia | f_equal].
Qed.

(** The pairs read off the opcodes: the substituted pair and nothing
    else. *)
Lemma pairs_one :
  flat_map (Learn.opcode_pairs a b) (get_opcodes a b) = [(x, y)].
Proof.
  rewrite opcodes_one.
  destruct (p =? 0), (r0 =? 0); cbn [app flat_map Learn.opcode_pairs];
    replace (p + 1 - p) with 1 by lia;
    cbn [seq combine flat_map fst snd app];
    rewrite nth_a_p, nth_b_p; reflexivity.
Qed.

End OneSubstitution.

(** ** The work-list loop ends within its fuel *)

Section LoopFacts.
Import Difflib Scan.
Variables a b : list text.

Lemma row_in_window (alo ahi i blo bhi : nat) (j2len : list (nat * nat)) :
  alo <= i -> i < ahi ->
  (forall j, dget j2len j <= i - alo) ->
  forall (js : list nat) (new : list (nat * nat)) (best : block),
    (forall j, dget new j <= i + 1 - alo) ->
    alo <= fst (fst best) /\ fst (fst best) + snd best <= ahi ->
    let r := row i blo bhi js j2len new best in
    (forall j, dget (fst r) j <= i + 1 - alo)
    /\ alo <= fst (fst (snd r)) /\ fst (fst (snd r)) + snd (snd r) <= ahi.
Proof.
  intros Hlo Hhi Hd. induction js as [|j js IH]; intros new best Hnew Hbest; simpl.
  - split; assumption.
  - destruct (j <? blo); [apply IH; assumption|].
    destruct (bhi <=? j); [split; assumption|].
    assert (Hk : dget_pred j2len j + 1 <= i + 1 - alo).
    { unfold dget_pred. destruct j as [|j']; [lia|]. specialize (Hd j'). lia. }
    apply IH.
    + intros j'. simpl. destruct (j =? j'); [exact Hk | apply Hnew].
    + destruct (snd best <? dget_pred j2len j + 1); [simpl; lia | exact Hbest].
Qed.

Lemma rows_in_window (alo ahi blo bhi : nat) :
  forall (n i : nat) (j2len : list (nat * nat)) (best : block),
    i + n = ahi -> alo <= i ->
    (forall j, dget j2len j <= i - alo) ->
    alo <= fst (fst best) /\ fst (fst best) + snd best <= ahi ->
    let r := rows a b (seq i n) blo bhi j2len best in
    alo <= fst (fst r) /\ fst (fst r) + snd r <= ahi.
Proof.
  induction n as [|n IH]; intros i j2len best Hn Hlo Hd Hbest; simpl.
  - exact Hbest.
  - destruct (nth_error a i) as [x|]; [|exact Hbest].
    pose proof (row_in_window alo ahi i blo bhi j2len Hlo ltac:(lia) Hd
                  (b2j b x) [] best ltac:(intros; simpl; lia) Hbest) as Hr.
    simpl in Hr. destruct (row i blo bhi (b2j b x) j2len [] best) as [new' best'].
    simpl in Hr. destruct Hr as [Hnew' Hbest'].
    apply IH; [lia | lia | | exact Hbest'].
    intros j. specialize (Hnew' j). lia.
Qed.

Lemma extend_left_in_window (alo ahi blo : nat) :
  forall (fuel : nat) (best : block),
    alo <= fst (fst best) /\ fst (fst best) + snd best <= ahi ->
    let r := extend_left a b fuel alo blo best in
    alo <= fst (fst r) /\ fst (fst r) + snd r <= ahi.
Proof.
  induction fuel as [|fuel IH]; intros [[bi bj] bs] Hbest; simpl; [exact Hbest|].
  destruct (Nat.ltb_spec alo bi); simpl; [|exact Hbest].
  destruct ((blo <? bj) && same_at a b (bi - 1) (bj - 1)); [|exact Hbest].
  apply IH. simpl in *. lia.
Qed.

Lemma extend_right_in_window (alo ahi bhi : nat) :
  forall (fuel : nat) (best : block),
    alo <= fst (fst best) /\ fst (fst best) + snd best <= ahi ->
    let r := extend_right a b fuel ahi bhi best in
    alo <= fst (fst r) /\ fst (fst r) + snd r <= ahi.
Proof.
  induction fuel as [|fuel IH]; intros [[bi bj] bs] Hbest; simpl; [exact Hbest|].
  destruct (Nat.ltb_spec (bi + bs) ahi); simpl; [|exact Hbest].
  destruct ((bj + bs <? bhi) && same_at a b (bi + bs) (bj + bs)); [|exact Hbest].
  apply IH. simpl in *. lia.
Qed.

(** The block found lies inside the window, on the side of [a]. *)
Lemma find_longest_match_in_window (alo ahi blo bhi : nat) :
  alo <= ahi ->
  let r := find_longest_match a b (alo, ahi, blo, bhi) in
  alo <= fst (fst r) /\ fst (fst r) + snd r <= ahi.
Proof.
  intros Hw. unfold find_longest_match.
  apply extend_right_in_window, extend_left_in_window.
  apply (rows_in_window alo ahi blo bhi (ahi - alo) alo); simpl; try lia.
Qed.

Lemma blocks_loop_returns :
  forall (fuel : nat) (queue : list window) (found : list block),
    Forall proper queue -> weight queue <= fuel ->
    exists l, blocks_loop a b fuel queue found = Some l.
Proof.
  induction fuel as [|fuel IH]; intros queue found Hq Hw.
  - destruct queue as [|[[[alo ahi] blo] bhi] queue]; [eexists; reflexivity|].
    simpl in Hw. lia.
  - destruct queue as [|[[[alo ahi] blo] bhi] queue]; [eexists; reflexivity|].
    inversion Hq as [|? ? Hproper Hq']; subst. simpl in Hproper.
    cbn [blocks_loop].
    pose proof (find_longest_match_in_window alo ahi blo bhi Hproper) as Hr.
    destruct (find_longest_match a b (alo, ahi, blo, bhi)) as [[i j] k].
    simpl in Hr, Hw.
    destruct (Nat.eqb_spec k 0) as [Hk|Hk]; [apply IH; [exact Hq' | lia]|].
    apply IH.
    + destruct ((i + k <? ahi) && (j + k <? bhi)), ((alo <? i) && (blo <? j));
        repeat constructor; simpl; try lia; exact Hq'.
    + destruct (Nat.ltb_spec (i + k) ahi), (Nat.ltb_spec alo i);
        destruct (j + k <? bhi), (blo <? j); simpl; lia.
Qed.

(** [get_matching_blocks] always has the fuel it needs. *)
Lemma matching_blocks_fuel :
  exists l, blocks_loop a b (loop_fuel a b)
              [(0, List.length a, 0, List.length b)] [] = Some l.
Proof.
  apply blocks_loop_returns.
  - constructor; [simpl; lia | constructor].
  - unfold loop_fuel. simpl. lia.
Qed.

End LoopFacts.

(** C5, as stated, fails: "to be be" and "to go be" differ by one
    substituted word (the second), all other words being equal in
    order, yet the opcodes hold no replace region (the matcher pairs the
    second "be" of the OCR text with the "be" of the corrected text) and
    the extractor yields no observation. *)
Lemma single_substitution_counterexample :
  Str.split (ocr_text Examples.be_sample) = [T "to"] ++ T "be" :: [T "be"]
  /\ Str.split (corrected_text Examples.be_sample) = [T "to"] ++ T "go" :: [T "be"]
  /\ Difflib.get_opcodes (Str.split (ocr_text Examples.be_sample))
                         (Str.split (corrected_text Examples.be_sample))
     = [(Difflib.Equal, 0, 1, 0, 1); (Difflib.Insert, 1, 1, 1, 2);
        (Difflib.Equal, 1, 2, 2, 3); (Difflib.Delete, 2, 3, 3, 3)]
  /\ Learn.sample_observations Examples.be_sample = []
  /\ Learn.sample_observations Examples.be_sample <> [(T "be", T "go")].
Proof.
  assert (H : Learn.sample_observations Examples.be_sample = [])
    by (vm_compute; reflexivity).
  rewrite H.
  repeat split; try (vm_compute; reflexivity). discriminate.
Qed.

(** The bound on the length is not idle: on 200 words the matcher drops
    the words that occur more than three times from its index, finds no
    block at all here, and the extractor pairs up every position. *)
Example long_text_example :
  Difflib.get_opcodes (Str.split (ocr_text Examples.long_sample))
                      (Str.split (corrected_text Examples.long_sample))
  = [(Difflib.Replace, 0, 200, 0, 200)]
  /\ List.length (Learn.sample_observations Examples.long_sample) = 200.
Proof. split; vm_compute; reflexivity. Qed.

(** C5, amended: when the OCR words and the corrected words differ by
    one substituted word, the wrong word occurs nowhere among the
    corrected words, the right word nowhere among the OCR words, and
    the corrected text has fewer than 200 words, the extractor yields
    the substituted pair and nothing else. *)
Theorem single_substitution_observed (s : sample) (pre post : list text) (x y : text) :
  Str.split (ocr_text s) = pre ++ x :: post ->
  Str.split (corrected_text s) = pre ++ y :: post ->
  ~ In x (pre ++ y :: post) ->
  ~ In y (pre ++ x :: post) ->
  List.length (pre ++ y :: post) < 200 ->
  Learn.sample_observations s = [(x, y)].
Proof.
  intros Ho Hc Hx Hy Hshort. unfold Learn.sample_observations.
  destruct (Str.text_eqb (ocr_text s) (corrected_text s)) eqn:E.
  - exfalso. unfold Str.text_eqb in E. apply bool_decide_eq_true in E.
    rewrite E, Hc in Ho. apply app_inv_head in Ho. injection Ho as <-.
    apply Hy. apply in_or_app. right. left. reflexivity.
  - rewrite Ho, Hc. apply pairs_one; assumption.
Qed.

Lemma single_substitution_observed_witness :
  Learn.sample_observations
    (Sample (T "sample_1") 1 (T "teh cat sat") (T "the cat sat") (T "1.jpg"))
  = [(T "teh", T "the")].
Proof.
  apply (single_substitution_observed _ [] [T "cat"; T "sat"]).
  - vm_compute. reflexivity.
  - vm_compute. reflexivity.
  - simpl. intros [H|[H|[H|[]]]]; vm_compute in H; discriminate.
  - simpl. intros [H|[H|[H|[]]]]; vm_compute in H; discriminate.
  - simpl. lia.
Defined.

(** * Further properties *)

(** ** Whitespace runs *)

Section WhitespaceFacts.
Import Re Applicator Spec Progress.

Lemma set_match_space (c : ascii) :
  set_match false [CSpace true] c = Chars.is_space c.
Proof. unfold set_match. simpl. destruct (Chars.is_space c); reflexivity. Qed.

Lemma ws_loop (k : mstate -> option mstate) :
  (forall st, k st <> None) ->
  forall (rest : text) (fuel count : nat) (last : option nat)
         (prev : option ascii) (pos : nat) (caps : list (nat * text)),
    List.length rest < fuel ->
    1 <= count ->
    same_place last (MState prev rest pos caps) = false ->
    repeat_loop (rmatch (RSet false [CSpace true])) 1 true k fuel count last
                (MState prev rest pos caps)
    = k (skip_ws prev rest pos caps).
Proof.
  intros Hk. induction rest as [|c rest IH];
    intros fuel count last prev pos caps Hfuel Hcount Hlast;
    (destruct fuel as [|fuel]; [simpl in Hfuel; lia|]);
    cbn [repeat_loop]; rewrite Hlast;
    (replace (count <? 1) with false by (symmetry; apply Nat.ltb_ge; lia));
    cbn [orb andb negb rmatch ms_rest ms_pos ms_caps].
  - reflexivity.
  - rewrite set_match_space. cbn [skip_ws]. destruct (Chars.is_space c) eqn:Hc.
    + rewrite IH; [| simpl in Hfuel; lia | lia | simpl; apply Nat.eqb_neq; lia].
      destruct (k (skip_ws (Some c) rest (S pos) caps)) eqn:E; [reflexivity|].
      exfalso. exact (Hk _ E).
    + reflexivity.
Qed.

Lemma repeat_loop_first
  (body : mstate -> (mstate -> option mstate) -> option mstate)
  (k : mstate -> option mstate) (fuel : nat) (st : mstate) :
  repeat_loop body 1 true k (S fuel) 0 None st
  = body st (fun st' => repeat_loop body 1 true k fuel 1 None st').
Proof. reflexivity. Qed.

Lemma ws_match_at (prev : option ascii) (rest : text) (pos : nat) :
  match_at ws_regex false (MState prev rest pos [])
  = match rest with
    | c :: rest' =>
        if Chars.is_space c then Some (skip_ws (Some c) rest' (S pos) []) else None
    | [] => None
    end.
Proof.
  unfold match_at, ws_regex. cbn [rmatch ms_prev ms_rest ms_pos andb].
  change (1 + 2 * List.length rest + 2) with (S (2 * List.length rest + 2)).
  rewrite repeat_loop_first.
  destruct rest as [|c rest]; [reflexivity|].
  cbn [rmatch ms_rest]. rewrite set_match_space.
  destruct (Chars.is_space c); [|reflexivity].
  cbn [ms_pos ms_caps].
  apply (ws_loop (fun e => Some e)); [discriminate | simpl; lia | lia | reflexivity].
Qed.

Lemma skip_ws_rest (rest : text) :
  forall prev pos caps, ms_rest (skip_ws prev rest pos caps) = Str.lstrip rest.
Proof.
  induction rest as [|c rest IH]; intros prev pos caps; simpl; [reflexivity|].
  destruct (Chars.is_space c); [apply IH | reflexivity].
Qed.

Lemma skip_ws_pos (rest : text) :
  forall prev pos caps, pos <= ms_pos (skip_ws prev rest pos caps).
Proof.
  induction rest as [|c rest IH]; intros prev pos caps; simpl; [lia|].
  destruct (Chars.is_space c); [|simpl; lia].
  specialize (IH (Some c) (S pos) caps). lia.
Qed.

Lemma lstrip_length (s : text) : List.length (Str.lstrip s) <= List.length s.
Proof.
  induction s as [|c s IH]; simpl; [lia|].
  destruct (Chars.is_space c); simpl; lia.
Qed.

Lemma squeeze_run (s : text) : squeeze true s = squeeze false (Str.lstrip s).
Proof.
  induction s as [|c s IH]; simpl; [reflexivity|].
  destruct (Chars.is_space c) eqn:Hc; [exact IH|].
  simpl. rewrite Hc. reflexivity.
Qed.

(** The scan of [re.sub] for the pattern [\s+] and the replacement of
    one space. *)
Lemma ws_walk :
  forall (fuel : nat) (rest : text) (prev : option ascii) (pos : nat),
    List.length rest < fuel ->
    sub_walk fuel ws_regex [TLit " "] prev rest pos = squeeze false rest.
Proof.
  induction fuel as [|fuel IH]; intros rest prev pos Hfuel; [lia|].
  cbn [sub_walk]. rewrite ws_match_at.
  destruct rest as [|c rest]; [reflexivity|].
  simpl in Hfuel. cbn [squeeze].
  destruct (Chars.is_space c) eqn:Hc.
  - pose proof (skip_ws_pos rest (Some c) (S pos) []) as Hpos.
    replace (ms_pos (skip_ws (Some c) rest (S pos) []) =? pos) with false
      by (symmetry; apply Nat.eqb_neq; lia).
    cbn [expand flat_map app]. f_equal.
    rewrite skip_ws_rest, IH, squeeze_run; [reflexivity|].
    pose proof (lstrip_length rest). lia.
  - f_equal. apply IH. lia.
Qed.

Lemma sub_whitespace (s : text) :
  Re.sub (T "\s+") (T " ") s = Returned (squeeze false s).
Proof.
  unfold Re.sub.
  change (compile (T "\s+")) with (POk (ws_regex, 0)).
  change (compile_template 0 (T " ")) with (POk [TLit " "%char]).
  f_equal. apply ws_walk. lia.
Qed.

End WhitespaceFacts.

(** ** Words and single spaces *)

Section WordFacts.
Import Spec.

Local Abbreviation SP := (" "%char).

Lemma lstrip_app (a b : text) :
  Str.lstrip (a ++ b)
  = match Str.lstrip a with [] => Str.lstrip b | l => l ++ b end.
Proof.
  induction a as [|c a IH]; simpl.
  - destruct (Str.lstrip b); reflexivity.
  - destruct (Chars.is_space c); [exact IH | reflexivity].
Qed.

(** Stripping on the right, as [strip] does it. *)
Lemma rstrip_app (x y : text) :
  rev (Str.lstrip (rev (x ++ y)))
  = match rev (Str.lstrip (rev y)) with
    | [] => rev (Str.lstrip (rev x))
    | l => x ++ l
    end.
Proof.
  rewrite rev_app_distr, lstrip_app.
  destruct (Str.lstrip (rev y)) as [|c l] eqn:E; [reflexivity|].
  rewrite rev_app_distr, rev_involutive.
  destruct (rev (c :: l)) eqn:E2; [|reflexivity].
  apply (f_equal (@List.length _)) in E2. rewrite length_rev in E2. discriminate.
Qed.

Lemma rstrip_word (cur : text) :
  cur <> [] -> Forall (fun c => Chars.is_space c = false) cur ->
  rev (Str.lstrip (rev (rev cur))) = rev cur /\ rev cur <> [].
Proof.
  intros Hne Hall. rewrite rev_involutive.
  destruct cur as [|c cur]; [congruence|].
  inversion Hall as [|? ? Hc _]; subst. simpl. rewrite Hc. simpl.
  split; [reflexivity|]. intros H. apply app_eq_nil in H as [_ H]. discriminate.
Qed.

Lemma rstrip_space (x : text) :
  rev (Str.lstrip (rev (x ++ [SP]))) = rev (Str.lstrip (rev x)).
Proof. rewrite rstrip_app. reflexivity. Qed.

Lemma split_go_not_nil (u cur : text) : cur <> [] -> Str.split_go cur u <> [].
Proof.
  revert cur. induction u as [|c u IH]; intros cur Hne; simpl.
  - destruct cur; [congruence | discriminate].
  - destruct (Chars.is_space c).
    + destruct cur; [congruence | discriminate].
    + apply IH. discriminate.
Qed.

Lemma join_cons (x : text) (ws : list text) :
  Str.join [SP] (x :: ws)
  = match ws with [] => x | _ => x ++ SP :: Str.join [SP] ws end.
Proof. destruct ws; reflexivity. Qed.

Lemma squeeze_split (u : text) :
  (forall x cur, cur <> [] -> Forall (fun c => Chars.is_space c = false) cur ->
     rev (Str.lstrip (rev (x ++ rev cur ++ squeeze false u)))
     = x ++ Str.join [SP] (Str.split_go cur u))
  /\ (forall x,
     rev (Str.lstrip (rev (x ++ squeeze true u)))
     = match Str.split_go [] u with
       | [] => rev (Str.lstrip (rev x))
       | ws => x ++ Str.join [SP] ws
       end).
Proof.
  induction u as [|c u [IH1 IH2]]; split.
  - intros x cur Hne Hall. cbn [squeeze Str.split_go]. rewrite app_nil_r.
    destruct (rstrip_word cur Hne Hall) as [Hr Hn].
    rewrite rstrip_app, Hr.
    destruct cur as [|d cur]; [congruence|].
    destruct (rev (d :: cur)); [congruence | reflexivity].
  - intros x. cbn [squeeze Str.split_go]. rewrite app_nil_r. reflexivity.
  - intros x cur Hne Hall. cbn [squeeze Str.split_go].
    destruct (Chars.is_space c) eqn:Hc.
    + replace (x ++ rev cur ++ SP :: squeeze true u)
        with ((x ++ rev cur ++ [SP]) ++ squeeze true u)
        by (rewrite <- !app_assoc; reflexivity).
      rewrite IH2.
      destruct cur as [|d cur]; [congruence|].
      rewrite join_cons.
      destruct (Str.split_go [] u) as [|w ws].
      * rewrite app_assoc, rstrip_space, rstrip_app.
        destruct (rstrip_word (d :: cur) Hne Hall) as [Hr Hn]. rewrite Hr.
        destruct (rev (d :: cur)); [congruence | reflexivity].
      * rewrite <- !app_assoc. reflexivity.
    + replace (x ++ rev cur ++ c :: squeeze false u)
        with (x ++ rev (c :: cur) ++ squeeze false u)
        by (simpl; rewrite <- !app_assoc; reflexivity).
      apply IH1; [discriminate | constructor; assumption].
  - intros x. cbn [squeeze Str.split_go].
    destruct (Chars.is_space c) eqn:Hc; [apply IH2|].
    pose proof (split_go_not_nil u [c]) as Hn.
    specialize (IH1 x [c]). simpl in IH1. rewrite IH1; [| discriminate | repeat constructor; exact Hc].
    destruct (Str.split_go [c] u); [exfalso; apply Hn; [discriminate | reflexivity] | reflexivity].
Qed.

Lemma lstrip_squeeze (u : text) (b : bool) :
  Str.lstrip (squeeze b u) = squeeze false (Str.lstrip u).
Proof.
  revert b. induction u as [|c u IH]; intros b; simpl; [reflexivity|].
  destruct (Chars.is_space c) eqn:Hc.
  - destruct b; simpl; apply IH.
  - simpl. rewrite Hc. reflexivity.
Qed.

Lemma split_go_lstrip (u : text) : Str.split_go [] (Str.lstrip u) = Str.split_go [] u.
Proof.
  induction u as [|c u IH]; simpl; [reflexivity|].
  destruct (Chars.is_space c) eqn:Hc; [exact IH|]. simpl. rewrite Hc. reflexivity.
Qed.

(** Collapsing the whitespace and stripping gives the words joined by
    single spaces. *)
Lemma strip_squeeze (u : text) :
  Str.strip (squeeze false u) = Str.join [SP] (Str.split u).
Proof.
  unfold Str.strip, Str.split. rewrite lstrip_squeeze, <- split_go_lstrip.
  destruct (Str.lstrip u) as [|c v] eqn:E; [reflexivity|].
  assert (Hc : Chars.is_space c = false).
  { clear -E. induction u as [|d u IH]; simpl in E; [discriminate|].
    destruct (Chars.is_space d) eqn:Hd; [exact (IH E)|].
    injection E as -> _. exact Hd. }
  cbn [squeeze Str.split_go]. rewrite Hc.
  destruct (squeeze_split v) as [H1 _].
  specialize (H1 [] [c]). simpl in H1. apply H1; [discriminate | repeat constructor; exact Hc].
Qed.

Lemma split_go_tokens (u : text) :
  forall cur, Forall (fun c => Chars.is_space c = false) cur ->
              Forall is_token (Str.split_go cur u).
Proof.
  assert (Hw : forall cur, cur <> [] ->
            Forall (fun c => Chars.is_space c = false) cur -> is_token (rev cur)).
  { intros cur Hne Hall. split.
    - intros H. apply (f_equal (@rev _)) in H. rewrite rev_involutive in H.
      simpl in H. congruence.
    - apply Forall_rev. exact Hall. }
  induction u as [|c u IH]; intros cur Hall; simpl.
  - destruct cur as [|d cur]; constructor; [apply Hw; [discriminate | exact Hall] | constructor].
  - destruct (Chars.is_space c) eqn:Hc.
    + destruct cur as [|d cur]; [apply IH; constructor|].
      constructor; [apply Hw; [discriminate | exact Hall] | apply IH; constructor].
    + apply IH. constructor; assumption.
Qed.

Lemma split_tokens (u : text) : Forall is_token (Str.split u).
Proof. apply split_go_tokens. constructor. Qed.

Lemma split_go_app (w rest : text) :
  Forall (fun c => Chars.is_space c = false) w ->
  forall cur, Str.split_go cur (w ++ rest) = Str.split_go (rev w ++ cur) rest.
Proof.
  induction 1 as [|c w Hc _ IH]; intros cur; simpl; [reflexivity|].
  rewrite Hc, IH, <- app_assoc. reflexivity.
Qed.

Lemma split_join (ws : list text) :
  Forall is_token ws -> Str.split (Str.join [SP] ws) = ws.
Proof.
  unfold Str.split. induction 1 as [|w ws [Hne Hw] _ IH]; [reflexivity|].
  rewrite join_cons. destruct ws as [|w2 ws].
  - pose proof (split_go_app w [] Hw []) as Hs. rewrite !app_nil_r in Hs.
    rewrite Hs. simpl.
    destruct (rev w) eqn:E.
    + apply (f_equal (@rev _)) in E. rewrite rev_involutive in E. simpl in E. congruence.
    + rewrite <- E, rev_involutive. reflexivity.
  - rewrite split_go_app, app_nil_r by exact Hw. cbn [Str.split_go].
    change (Chars.is_space SP) with true. cbn iota.
    destruct (rev w) eqn:E.
    + apply (f_equal (@rev _)) in E. rewrite rev_involutive in E. simpl in E. congruence.
    + rewrite <- E, rev_involutive, IH. reflexivity.
Qed.

Lemma In_lstrip (c : ascii) (s : text) : In c (Str.lstrip s) -> In c s.
Proof.
  induction s as [|d s IH]; simpl; [tauto|].
  destruct (Chars.is_space d); [right; apply IH; assumption | simpl; tauto].
Qed.

Lemma In_strip (c : ascii) (s : text) : In c (Str.strip s) -> In c s.
Proof.
  unfold Str.strip. intros H. apply In_lstrip.
  apply in_rev in H. apply In_lstrip in H. apply in_rev. exact H.
Qed.

Lemma In_squeeze (c : ascii) (s : text) (b : bool) :
  In c (squeeze b s) -> In c s \/ c = SP.
Proof.
  revert b. induction s as [|d s IH]; intros b; simpl; [tauto|].
  destruct (Chars.is_space d).
  - destruct b; simpl; intros H.
    + destruct (IH _ H); tauto.
    + destruct H as [<-|H]; [tauto|]. destruct (IH _ H); tauto.
  - simpl. intros [<-|H]; [tauto|]. destruct (IH _ H); tauto.
Qed.

Lemma In_replace_char (c old : ascii) (new s : text) :
  In c (Str.replace_char old new s) -> existsb (Chars.ascii_eqb c) new = false ->
  In c s /\ c <> old.
Proof.
  unfold Str.replace_char. intros H Hnew. apply in_flat_map in H as (d & Hd & H).
  unfold Chars.ascii_eqb in *.
  destruct (Ascii.eqb_spec d old) as [->|Hne].
  - exfalso. apply Bool.not_true_iff_false in Hnew. apply Hnew.
    apply existsb_exists. exists c. split; [exact H | apply Ascii.eqb_refl].
  - destruct H as [<-|[]]. split; assumption.
Qed.

End WordFacts.

(** ** The cleanup pass of cleanText *)

Section CleanupFacts.
Import Re Applicator Spec Progress.

Lemma sub_compiled (p repl : text) :
  (exists r n tmpl, compile p = POk (r, n) /\ compile_template n repl = POk tmpl) ->
  forall s, exists t, sub p repl s = Returned t.
Proof.
  intros (r & n & tmpl & Hc & Ht) s. unfold sub. rewrite Hc, Ht.
  eexists. reflexivity.
Qed.

Ltac compiled := do 3 eexists; split; vm_compute; reflexivity.

Ltac sub_step t E :=
  match goal with
  | |- context [obind (sub ?p ?r ?s) _] =>
      let H := fresh in
      assert (H : exists r0 n0 tmpl0,
                 compile p = POk (r0, n0) /\ compile_template n0 r = POk tmpl0)
        by compiled;
      destruct (sub_compiled p r H s) as [t E]; rewrite E; clear H E; cbn [obind]
  end.

(** What the standard cleanup returns: the text after the nine
    substitutions, with the symbols spelled out, the whitespace collapsed
    and the ends stripped. *)
Lemma standard_cleanup_shape (t0 : text) :
  exists t9,
    standard_cleanup t0
    = Returned (Str.strip (squeeze false
        (Str.replace_char (ascii_of_nat 176) (T " degrees ")
        (Str.replace_char "*" (T " times ")
        (Str.replace_char "=" (T " equals ")
        (Str.replace_char "+" (T " plus ")
        (Str.replace_char "#" (T " number ")
        (Str.replace_char "@" (T " at ")
        (Str.replace_char "&" (T " and ")
        (Str.replace_char "%" (T " percent ") t9)))))))))).
Proof.
  unfold standard_cleanup.
  sub_step t1 E1. sub_step t2 E2. sub_step t3 E3. sub_step t4 E4. sub_step t5 E5.
  sub_step t6 E6. sub_step t7 E7. sub_step t8 E8. sub_step t9 E9.
  exists t9. cbv zeta. rewrite sub_whitespace. reflexivity.
Qed.

Lemma basic_cleanup_returns (raw : text) :
  exists t2, obind (sub (T "\s+") (T " ") raw) (sub (T "\$\s+") (T "$")) = Returned t2.
Proof.
  rewrite sub_whitespace. cbn [obind].
  apply sub_compiled. compiled.
Qed.

Lemma clean_pipeline_inv (rs : rule_set) (spell : text -> text) (raw t : text) :
  clean_pipeline rs spell raw = Returned t ->
  exists u, standard_cleanup u = Returned t.
Proof.
  unfold clean_pipeline. intros H.
  apply obind_returned in H as (t1 & _ & H).
  apply obind_returned in H as (t2 & _ & H).
  apply obind_returned in H as (t3 & _ & H).
  exists (spell t3). exact H.
Qed.

Lemma symbol_cases (c : ascii) :
  In c symbols ->
  c = "%"%char \/ c = "&"%char \/ c = "@"%char \/ c = "#"%char \/ c = "+"%char
  \/ c = "="%char \/ c = "*"%char \/ c = ascii_of_nat 176.
Proof. simpl. intuition. Qed.

Lemma standard_cleanup_symbols (u t : text) (c : ascii) :
  standard_cleanup u = Returned t -> In c symbols -> ~ In c t.
Proof.
  intros Hret Hc Hin.
  destruct (standard_cleanup_shape u) as (t9 & Hshape).
  rewrite Hshape in Hret. injection Hret as <-.
  apply In_strip in Hin. apply In_squeeze in Hin as [Hin | ->];
    [| vm_compute in Hc; intuition discriminate].
  assert (Hwords : forall w, In w (map T [" degrees "; " times "; " equals "; " plus ";
                                          " number "; " at "; " and "; " percent "]%string) ->
                             existsb (Chars.ascii_eqb c) w = false).
  { apply symbol_cases in Hc.
    intros w Hw. simpl in Hw.
    repeat (destruct Hw as [<-|Hw]; [
      repeat (destruct Hc as [->|Hc]; [vm_compute; reflexivity|]);
      subst c; vm_compute; reflexivity |]).
    destruct Hw. }
  repeat match type of Hin with
  | In c (Str.replace_char _ _ _) =>
      apply In_replace_char in Hin as [Hin ?];
        [| apply Hwords; simpl; repeat first [left; reflexivity | right]]
  end.
  apply symbol_cases in Hc. intuition congruence.
Qed.

Lemma standard_cleanup_spaced (u t : text) :
  standard_cleanup u = Returned t -> t = Str.join (T " ") (Str.split t).
Proof.
  intros Hret. destruct (standard_cleanup_shape u) as (t9 & Hshape).
  rewrite Hshape in Hret. injection Hret as <-.
  rewrite strip_squeeze. change (T " ") with [" "%char].
  rewrite split_join; [reflexivity | apply split_tokens].
Qed.

End CleanupFacts.

(** X1: the fixed passes of [cleanText] never raise.  The two
    substitutions before the learned corrections always return, and
    whenever the learned corrections return, so does the whole body of
    the [try]: the cleaned text is written back. *)
Theorem cleanup_never_raises (rs : rule_set) (spell : text -> text) (raw : text) :
  exists t2,
    obind (Re.sub (T "\s+") (T " ") raw) (Re.sub (T "\$\s+") (T "$")) = Returned t2
    /\ forall t3, Applicator.apply_learned_corrections rs t2 = Returned t3 ->
         exists t, Applicator.standard_cleanup (spell t3) = Returned t
                   /\ Applicator.clean_pipeline rs spell raw = Returned t
                   /\ Applicator.cleanText rs spell raw = Returned t.
Proof.
  destruct (basic_cleanup_returns raw) as (t2 & H2). exists t2. split; [exact H2|].
  intros t3 H3.
  destruct (standard_cleanup_shape (spell t3)) as (t9 & Hs).
  eexists. split; [exact Hs|].
  assert (Hp : Applicator.clean_pipeline rs spell raw = Applicator.standard_cleanup (spell t3)).
  { unfold Applicator.clean_pipeline.
    destruct (Re.sub (T "\s+") (T " ") raw) as [t1| |]; try discriminate.
    cbn [obind] in H2 |- *. rewrite H2. cbn [obind]. rewrite H3. reflexivity. }
  unfold Applicator.cleanText. rewrite Hp, Hs. split; reflexivity.
Qed.

Lemma cleanup_never_raises_witness :
  exists t,
    Applicator.standard_cleanup (T "the cat") = Returned t
    /\ Applicator.clean_pipeline Examples.teh_rules (fun t => t) (T "teh  cat") = Returned t
    /\ Applicator.cleanText Examples.teh_rules (fun t => t) (T "teh  cat") = Returned t.
Proof.
  destruct (cleanup_never_raises Examples.teh_rules (fun t => t) (T "teh  cat"))
    as (t2 & H2 & H).
  vm_compute in H2. injection H2 as <-.
  apply (H (T "the cat")). vm_compute. reflexivity.
Defined.

(** X2: the text that [cleanText] writes back contains none of the
    characters %, &, @, #, +, =, * and the degree sign: each has been
    spelled out as a word. *)
Theorem cleaned_text_has_no_symbols (rs : rule_set) (spell : text -> text)
  (raw t : text) (c : ascii) :
  Applicator.clean_pipeline rs spell raw = Returned t ->
  In c Spec.symbols -> ~ In c t.
Proof.
  intros H. apply clean_pipeline_inv in H as (u & H).
  exact (standard_cleanup_symbols u t c H).
Qed.

Lemma cleaned_text_has_no_symbols_witness :
  ~ In "%"%char (T "5 0 percent off at 3").
Proof.
  apply (cleaned_text_has_no_symbols empty_rules (fun t => t) (T " 5O% off @3 ")).
  - vm_compute. reflexivity.
  - vm_compute. tauto.
Defined.

(** X3: the text that [cleanText] writes back is its own words joined
    by single spaces: no whitespace at either end, and between two words
    exactly one space character. *)
Theorem cleaned_text_single_spaced (rs : rule_set) (spell : text -> text)
  (raw t : text) :
  Applicator.clean_pipeline rs spell raw = Returned t ->
  t = Str.join (T " ") (Str.split t).
Proof.
  intros H. apply clean_pipeline_inv in H as (u & H).
  exact (standard_cleanup_spaced u t H).
Qed.

Lemma cleaned_text_single_spaced_witness :
  T "5 0 percent off at 3" = Str.join (T " ") (Str.split (T "5 0 percent off at 3")).
Proof.
  apply (cleaned_text_single_spaced empty_rules (fun t => t) (T " 5O% off @3 ")).
  vm_compute. reflexivity.
Defined.

(** ** Escaped words as patterns *)

Section EscapeFacts.
Import Re Applicator Spec Progress.

(** The pattern built for a word replacement always compiles, and has
    no group. *)
Lemma word_pattern_compiles (entry : text * text) :
  exists r, compile (word_pattern entry) = POk (r, 0).
Proof.
  unfold word_pattern, compile. set (w := fst entry).
  pose proof (escape_length w) as Hlen.
  remember (List.length (T "\b" ++ escape w ++ T "\b")) as n eqn:Hn.
  rewrite !length_app in Hn. simpl in Hn.
  assert (Hf : exists f, n = List.length w + S (S f)).
  { exists (n - List.length w - 2). lia. }
  destruct Hf as [f ->].
  change (T "\b" ++ escape w ++ T "\b")
    with ("\"%char :: "b"%char :: escape w ++ T "\b").
  cbn [parse_items]. change (Chars.ascii_eqb "\" ")") with false.
  change (Chars.ascii_eqb "\" "\") with true. cbn iota.
  change (escape_item "b") with (POk (RBoundary true)). cbn iota.
  rewrite parse_escaped. simpl. eexists. reflexivity.
Qed.

Lemma word_rules_return (wr : list (text * text)) :
  Forall (fun e : text * text => ~ In "\"%char (snd e)) wr ->
  forall txt, exists t, sub_each word_pattern snd wr txt = Returned t.
Proof.
  induction 1 as [|e wr He _ IH]; intros txt; cbn [sub_each].
  - exists txt. reflexivity.
  - destruct (word_pattern_compiles e) as [r Hr].
    destruct (sub_compiled (word_pattern e) (snd e)) with (s := txt) as [t Ht].
    { exists r, 0, (map TLit (snd e)). split; [exact Hr|].
      apply plain_template; [exact He | lia]. }
    rewrite Ht. cbn [obind]. apply IH.
Qed.

Lemma catalogue_rules_return (fixes : list pattern_fix) :
  Forall (fun pf => In pf [Learn.qq_rule; Learn.dollar_rule; Learn.one_rule;
                           Learn.zero_rule]) fixes ->
  forall txt, exists t, sub_each pattern replacement fixes txt = Returned t.
Proof.
  induction 1 as [|pf fixes Hpf _ IH]; intros txt; cbn [sub_each].
  - exists txt. reflexivity.
  - destruct (sub_compiled (pattern pf) (replacement pf)) with (s := txt) as [t Ht].
    { simpl in Hpf. destruct Hpf as [<-|[<-|[<-|[<-|[]]]]];
        do 3 eexists; split; vm_compute; reflexivity. }
    rewrite Ht. cbn [obind]. apply IH.
Qed.

Lemma plain_rules_return (rs : rule_set) (txt : text) :
  Forall (fun e : text * text => ~ In "\"%char (snd e)) (word_replacements rs) ->
  Forall (fun pf => In pf [Learn.qq_rule; Learn.dollar_rule; Learn.one_rule;
                           Learn.zero_rule]) (pattern_fixes rs) ->
  exists t, apply_learned_corrections rs txt = Returned t.
Proof.
  intros Hw Hp. unfold apply_learned_corrections, LEARNING_ENABLED. cbn [negb].
  destruct (word_rules_return _ Hw txt) as [t1 H1]. rewrite H1. cbn [obind].
  apply catalogue_rules_return. exact Hp.
Qed.

End EscapeFacts.

(** ** Where the learned words come from *)

Section ProvenanceFacts.
Import Learn Spec.

Lemma text_eqb_eq (s t : text) : Str.text_eqb s t = true -> s = t.
Proof. unfold Str.text_eqb. intros H. case_bool_decide; [assumption | discriminate]. Qed.

Lemma text_eqb_neq (s t : text) : Str.text_eqb s t = false -> s <> t.
Proof. unfold Str.text_eqb. intros H. case_bool_decide; [discriminate | assumption]. Qed.

Lemma opcode_pairs_in (a b : list text) (op : Difflib.opcode) (w r : text) :
  In (w, r) (opcode_pairs a b op) -> In w a /\ In r b.
Proof.
  destruct op as [[[[tg i1] i2] j1] j2]. unfold opcode_pairs.
  destruct tg; try (intros []).
  intros H. apply in_flat_map in H as ([i j] & _ & H). simpl in H.
  destruct (nth_error a i) as [x|] eqn:Ea; [|destruct H].
  destruct (nth_error b j) as [y|] eqn:Eb; [|destruct H].
  destruct H as [[= <- <-]|[]].
  split; eapply nth_error_In; eassumption.
Qed.

Lemma sample_observations_in (s : sample) (w r : text) :
  In (w, r) (sample_observations s) ->
  ocr_text s <> corrected_text s
  /\ In w (Str.split (ocr_text s)) /\ In r (Str.split (corrected_text s)).
Proof.
  unfold sample_observations.
  destruct (Str.text_eqb (ocr_text s) (corrected_text s)) eqn:E; [intros []|].
  intros H. split; [apply text_eqb_neq; exact E|].
  apply in_flat_map in H as (op & _ & H).
  exact (opcode_pairs_in _ _ _ _ _ H).
Qed.

Lemma observations_in (samples : list sample) (w r : text) :
  In (w, r) (observations samples) ->
  exists s, In s samples /\ ocr_text s <> corrected_text s
            /\ In w (Str.split (ocr_text s)) /\ In r (Str.split (corrected_text s)).
Proof.
  unfold observations. intros H. apply in_flat_map in H as (s & Hs & H).
  exists s. split; [exact Hs | exact (sample_observations_in _ _ _ H)].
Qed.

Lemma bump_right_in (rights : counts) (r0 r : text) (n : nat) :
  In (r, n) (bump_right rights r0) -> (exists n0, In (r, n0) rights) \/ r = r0.
Proof.
  induction rights as [|[k m] rights IH]; simpl.
  - intros [[= <- _]|[]]. right. reflexivity.
  - destruct (Str.text_eqb k r0) eqn:E; simpl.
    + intros [[= <- _]|H]; [left; exists m; left; reflexivity|].
      left. exists n. right. exact H.
    + intros [[= <- <-]|H]; [left; exists m; left; reflexivity|].
      destruct (IH H) as [[n0 H0]| ->]; [left; exists n0; right; exact H0 | right; reflexivity].
Qed.

Lemma seen_bump (wc : changes) (o : text * text) (w r : text) :
  seen (bump wc o) w r -> seen wc w r \/ o = (w, r).
Proof.
  unfold seen. induction wc as [|[k rights] wc IH]; simpl.
  - intros (rs & n & [[= <- <-]|[]] & [[= <- _]|[]]). right. destruct o; reflexivity.
  - destruct (Str.text_eqb k (fst o)) eqn:E.
    + intros (rs & n & [[= <- <-]|Hin] & Hr).
      * apply text_eqb_eq in E. apply bump_right_in in Hr as [[n0 H0]| ->].
        -- left. exists rights, n0. split; [left; reflexivity | exact H0].
        -- right. subst k. destruct o; reflexivity.
      * left. exists rs, n. split; [right; exact Hin | exact Hr].
    + intros (rs & n & [[= <- <-]|Hin] & Hr).
      * left. exists rights, n. split; [left; reflexivity | exact Hr].
      * destruct IH as [(rs' & n' & H1 & H2)|Ho].
        -- exists rs, n. split; assumption.
        -- left. exists rs', n'. split; [right; exact H1 | exact H2].
        -- right. exact Ho.
Qed.

Lemma seen_fold (obs : list (text * text)) (w r : text) :
  forall wc, seen (fold_left bump obs wc) w r -> seen wc w r \/ In (w, r) obs.
Proof.
  induction obs as [|o obs IH]; intros wc H; simpl in *; [left; exact H|].
  destruct (IH _ H) as [H1|H1]; [|right; right; exact H1].
  destruct (seen_bump _ _ _ _ H1) as [H2|H2]; [left; exact H2 | right; left; exact H2].
Qed.

Lemma seen_analyze (samples : list sample) (w r : text) :
  seen (analyze_corrections samples) w r -> In (w, r) (observations samples).
Proof.
  rewrite analyze_as_fold. intros H. apply seen_fold in H as [(rs & n & [] & _)|H].
  exact H.
Qed.

Lemma dict_set_in (d : list (text * text)) (k v k' v' : text) :
  In (k', v') (dict_set d k v) -> In (k', v') d \/ (k' = k /\ v' = v).
Proof.
  induction d as [|[a b] d IH]; simpl.
  - intros [[= <- <-]|[]]. right. split; reflexivity.
  - destruct (Str.text_eqb a k) eqn:E; simpl.
    + intros [[= <- <-]|H]; [right; split; [apply text_eqb_eq; exact E | reflexivity]|].
      left. right. exact H.
    + intros [H|H]; [left; left; exact H|].
      destruct (IH H) as [H1|H1]; [left; right; exact H1 | right; exact H1].
Qed.

Lemma store_replacements_in :
  forall (wc : changes) (wr0 wr : list (text * text)),
    store_replacements wc wr0 = Returned wr ->
    forall w r, In (w, r) wr -> In (w, r) wr0 \/ seen wc w r.
Proof.
  induction wc as [|[k rights] wc IH]; intros wr0 wr Hret w r Hin.
  - simpl in Hret. injection Hret as <-. left. exact Hin.
  - cbn [store_replacements] in Hret.
    destruct (max_item rights) as [[m n]|] eqn:Hmax; [|discriminate].
    apply max_item_spec in Hmax as [Hm _].
    assert (Htail : seen wc w r -> seen ((k, rights) :: wc) w r).
    { intros (rs & n' & H1 & H2). exists rs, n'. split; [right; exact H1 | exact H2]. }
    destruct (2 <=? lookup_count rights m).
    + destruct (IH _ _ Hret w r Hin) as [H|H]; [|right; exact (Htail H)].
      apply dict_set_in in H as [H| [-> ->]]; [left; exact H|].
      right. exists rights, n. split; [left; reflexivity | exact Hm].
    + destruct (IH _ _ Hret w r Hin) as [H|H]; [left; exact H | right; exact (Htail H)].
Qed.

Lemma In_split_go (c : ascii) (w : text) (u : text) :
  forall cur, In w (Str.split_go cur u) -> In c w -> In c cur \/ In c u.
Proof.
  induction u as [|d u IH]; intros cur Hw Hc; simpl in Hw.
  - destruct cur as [|e cur]; [destruct Hw|].
    destruct Hw as [<-|[]]. left. apply in_rev. exact Hc.
  - destruct (Chars.is_space d).
    + destruct cur as [|e cur].
      * destruct (IH _ Hw Hc) as [[]|H]. right. right. exact H.
      * destruct Hw as [<-|Hw]; [left; apply in_rev; exact Hc|].
        destruct (IH _ Hw Hc) as [[]|H]. right. right. exact H.
    + destruct (IH _ Hw Hc) as [[<-|H]|H]; [right; left; reflexivity | left; exact H |
                                            right; right; exact H].
Qed.

Lemma In_split (c : ascii) (w u : text) : In w (Str.split u) -> In c w -> In c u.
Proof. intros Hw Hc. destruct (In_split_go c w u [] Hw Hc) as [[]|H]. exact H. Qed.

Lemma learn_entries (samples : list sample) (rs : rule_set) (w r : text) :
  learn samples = Returned rs -> In (w, r) (word_replacements rs) ->
  In (w, r) (observations samples).
Proof.
  unfold learn, create_learned_corrections. intros H Hin.
  apply obind_returned in H as (wr & Hret & H). injection H as <-. simpl in Hin.
  destruct (store_replacements_in _ _ _ Hret w r Hin) as [[]|H].
  exact (seen_analyze _ _ _ H).
Qed.

Lemma learn_fixes (samples : list sample) (rs : rule_set) :
  learn samples = Returned rs ->
  Forall (fun pf => In pf [qq_rule; dollar_rule; one_rule; zero_rule]) (pattern_fixes rs).
Proof.
  unfold learn, create_learned_corrections. intros H.
  apply obind_returned in H as (wr & _ & H). injection H as <-. simpl.
  apply List.Forall_forall. intros pf Hin. rewrite !in_app_iff in Hin.
  destruct Hin as [H|[H|[H|H]]]; apply gated_in in H as [-> _];
    [left | right; left | right; right; left | right; right; right; left]; reflexivity.
Qed.

End ProvenanceFacts.

(** X4: a rule set whose replacement words contain no backslash and
    whose pattern fixes are entries of the catalogue of learn.py never
    makes the applicator raise, whatever the wrong words are: the
    pattern built from a wrong word by [re.escape] always compiles. *)
Theorem plain_rules_never_raise (rs : rule_set) (txt : text) :
  Forall (fun e : text * text => ~ In "\"%char (snd e)) (word_replacements rs) ->
  Forall (fun pf => In pf [Learn.qq_rule; Learn.dollar_rule; Learn.one_rule;
                           Learn.zero_rule]) (pattern_fixes rs) ->
  exists t, Applicator.apply_learned_corrections rs txt = Returned t.
Proof. intros Hw Hp. exact (plain_rules_return rs txt Hw Hp). Qed.

Lemma plain_rules_never_raise_witness :
  exists t, Applicator.apply_learned_corrections
              (RuleSet [(T "(a|b", T "x"); (T "*[", T "$1")] [Learn.one_rule] [])
              (T "1l1 (a|b *[") = Returned t.
Proof.
  apply plain_rules_never_raise.
  - repeat constructor; simpl; intuition discriminate.
  - constructor; [right; right; left; reflexivity | constructor].
Defined.

(** X5: every word replacement that learn.py stores was observed: the
    wrong word is a word of the OCR text of some sample whose text was
    corrected, and the right word is a word of the corrected text of
    the same sample; both are non-empty and free of whitespace. *)
Theorem learned_words_come_from_samples (samples : list sample) (rs : rule_set)
  (w r : text) :
  Learn.learn samples = Returned rs ->
  In (w, r) (word_replacements rs) ->
  Spec.is_token w /\ Spec.is_token r
  /\ exists s, In s samples /\ ocr_text s <> corrected_text s
       /\ In w (Str.split (ocr_text s)) /\ In r (Str.split (corrected_text s)).
Proof.
  intros Hl Hin. apply (learn_entries _ _ _ _ Hl) in Hin.
  apply observations_in in Hin as (s & Hs & Hne & Hw & Hr).
  pose proof (proj1 (List.Forall_forall _ _) (split_tokens (ocr_text s)) _ Hw).
  pose proof (proj1 (List.Forall_forall _ _) (split_tokens (corrected_text s)) _ Hr).
  split; [assumption|]. split; [assumption|]. exists s. tauto.
Qed.

Lemma learned_words_come_from_samples_witness :
  Spec.is_token (T "teh") /\ Spec.is_token (T "the")
  /\ exists s, In s Examples.teh_corpus /\ ocr_text s <> corrected_text s
       /\ In (T "teh") (Str.split (ocr_text s)) /\ In (T "the") (Str.split (corrected_text s)).
Proof.
  apply (learned_words_come_from_samples Examples.teh_corpus
           (RuleSet [(T "teh", T "the")] [] [])).
  - vm_compute. reflexivity.
  - left. reflexivity.
Defined.

(** X6: a rule set that learn.py synthesizes from samples whose
    corrected texts contain no backslash can always be applied:
    whatever the OCR text, the applicator returns and [cleanText]
    writes a cleaned text back. *)
Theorem learned_rules_always_apply (samples : list sample) (rs : rule_set)
  (spell : text -> text) (raw : text) :
  Learn.learn samples = Returned rs ->
  (forall s, In s samples -> ~ In "\"%char (corrected_text s)) ->
  exists t, Applicator.clean_pipeline rs spell raw = Returned t.
Proof.
  intros Hl Hplain.
  assert (Hw : Forall (fun e : text * text => ~ In "\"%char (snd e)) (word_replacements rs)).
  { apply List.Forall_forall. intros [w r] Hin Hc. simpl in Hc.
    apply (learn_entries _ _ _ _ Hl) in Hin.
    apply observations_in in Hin as (s & Hs & _ & _ & Hr).
    exact (Hplain s Hs (In_split _ _ _ Hr Hc)). }
  destruct (basic_cleanup_returns raw) as (t2 & H2).
  destruct (plain_rules_return rs t2 Hw (learn_fixes _ _ Hl)) as (t3 & H3).
  destruct (standard_cleanup_shape (spell t3)) as (t9 & Hs).
  eexists. unfold Applicator.clean_pipeline.
  destruct (Re.sub (T "\s+") (T " ") raw) as [t1| |]; try discriminate.
  cbn [obind] in H2 |- *. rewrite H2. cbn [obind]. rewrite H3. cbn [obind]. exact Hs.
Qed.

Lemma learned_rules_always_apply_witness :
  exists t, Applicator.clean_pipeline (RuleSet [(T "teh", T "the")] [] [])
              (fun t => t) (T "teh  cat") = Returned t.
Proof.
  apply (learned_rules_always_apply Examples.teh_corpus).
  - vm_compute. reflexivity.
  - intros s [<-|[<-|[]]]; vm_compute; intuition discriminate.
Defined.

(** ** Learning on the device accumulates *)

Section AccumulationFacts.
Import Learn Spec.

Lemma pp6_words (samples : list sample) (rs rs' : rule_set) :
  Pp6.learn_from_corrections samples rs = (true, rs') ->
  context_corrections rs' = context_corrections rs
  /\ forall w, dict_get (word_replacements rs') w
               = match chosen (analyze_corrections samples) w with
                 | Some m => Some m
                 | None => dict_get (word_replacements rs) w
                 end.
Proof.
  unfold Pp6.learn_from_corrections.
  destruct (List.length samples <? 5); [discriminate|].
  destruct (store_replacements_spec (analyze_corrections samples) (word_replacements rs)
              (well_formed_analyze samples)) as (wr & Hret & Hget).
  unfold analyze_corrections in Hret. rewrite Hret.
  intros [= <-]. split; [reflexivity | exact Hget].
Qed.

Lemma store_in_place_keeps :
  forall (wc : changes) (wr wr' : list (text * text)) (stored : bool),
    Pp6Run.store_in_place wc wr = (stored, wr') ->
    forall w r, dict_get wr w = Some r ->
      exists r', dict_get wr' w = Some r'
        /\ (r' = r \/ exists rights, In (w, rights) wc /\ 2 <= lookup_count rights r').
Proof.
  induction wc as [|[k rights] wc IH]; intros wr wr' stored Hrun w r Hw;
    cbn [Pp6Run.store_in_place] in Hrun.
  - injection Hrun as _ <-. exists r. split; [exact Hw | left; reflexivity].
  - destruct (max_item rights) as [[m n]|];
      [|injection Hrun as _ <-; exists r; split; [exact Hw | left; reflexivity]].
    destruct (2 <=? lookup_count rights m) eqn:Hcount.
    + assert (Hset : exists r0, dict_get (dict_set wr k m) w = Some r0
                       /\ (r0 = r \/ (k = w /\ r0 = m))).
      { rewrite dict_get_set. destruct (Str.text_eqb k w) eqn:E.
        - exists m. split; [reflexivity|]. right.
          split; [exact (text_eqb_eq _ _ E) | reflexivity].
        - exists r. split; [exact Hw | left; reflexivity]. }
      destruct Hset as (r0 & Hr0 & Hor).
      destruct (IH _ _ _ Hrun w r0 Hr0) as (r' & Hr' & Hor').
      exists r'. split; [exact Hr'|].
      destruct Hor' as [-> | (rs & Hin & Hc)].
      * destruct Hor as [-> | [-> ->]]; [left; reflexivity|].
        right. exists rights. split; [left; reflexivity|].
        apply Nat.leb_le. exact Hcount.
      * right. exists rs. split; [right; exact Hin | exact Hc].
    + destruct (IH _ _ _ Hrun w r Hw) as (r' & Hr' & Hor').
      exists r'. split; [exact Hr'|].
      destruct Hor' as [-> | (rs & Hin & Hc)]; [left; reflexivity|].
      right. exists rs. split; [right; exact Hin | exact Hc].
Qed.

End AccumulationFacts.

(** X7: [learn_from_corrections] of pp6.py never forgets a word
    replacement.  Whatever the training directory holds and whether the
    run returns [True] or [False], a wrong word that is in the rule set
    before the run is in it after the run, with its old replacement or
    with one that the table built from the loaded samples counts twice
    or more; the context corrections are left alone, and a run that
    returns [False] leaves the pattern fixes as they were (it may have
    stored word replacements before it failed). *)
Theorem pp6_keeps_earlier_words (listing : option (list text)) (fs : gmap text file)
  (rs rs' : rule_set) (ok : bool) (w r : text) :
  Pp6Run.learn_from_corrections listing fs rs = (ok, rs') ->
  Learn.dict_get (word_replacements rs) w = Some r ->
  context_corrections rs' = context_corrections rs
  /\ (ok = false -> pattern_fixes rs' = pattern_fixes rs)
  /\ exists r', Learn.dict_get (word_replacements rs') w = Some r'
       /\ (r' = r
           \/ exists names samples wc rights,
                listing = Some names
                /\ Pp6Run.read_all fs names = Returned samples
                /\ Pp6Run.count_changes samples [] = Returned wc
                /\ In (w, rights) wc /\ 2 <= Learn.lookup_count rights r').
Proof.
  intros Hrun Hw.
  assert (Hsame : (ok, rs') = (false, rs) ->
            context_corrections rs' = context_corrections rs
            /\ (ok = false -> pattern_fixes rs' = pattern_fixes rs)
            /\ exists r', Learn.dict_get (word_replacements rs') w = Some r'
                 /\ (r' = r
                     \/ exists names samples wc rights,
                          listing = Some names
                          /\ Pp6Run.read_all fs names = Returned samples
                          /\ Pp6Run.count_changes samples [] = Returned wc
                          /\ In (w, rights) wc /\ 2 <= Learn.lookup_count rights r')).
  { intros [= -> ->]. split; [reflexivity|]. split; [reflexivity|].
    exists r. split; [exact Hw | left; reflexivity]. }
  unfold Pp6Run.learn_from_corrections in Hrun.
  destruct listing as [names|]; [|apply Hsame; symmetry; exact Hrun].
  destruct (Pp6Run.read_all fs names) as [samples| |] eqn:Hread;
    try (apply Hsame; symmetry; exact Hrun).
  destruct (List.length samples <? 5); [apply Hsame; symmetry; exact Hrun|].
  destruct (Pp6Run.count_changes samples []) as [wc| |] eqn:Hcount;
    try (apply Hsame; symmetry; exact Hrun).
  destruct (Pp6Run.store_in_place wc (word_replacements rs)) as [stored wr] eqn:Hstore.
  destruct (store_in_place_keeps wc _ _ _ Hstore w r Hw) as (r' & Hr' & Hor).
  assert (Hwords : exists r', Learn.dict_get wr w = Some r'
            /\ (r' = r
                \/ exists names0 samples0 wc0 rights,
                     Some names = Some names0
                     /\ Pp6Run.read_all fs names0 = Returned samples0
                     /\ Pp6Run.count_changes samples0 [] = Returned wc0
                     /\ In (w, rights) wc0 /\ 2 <= Learn.lookup_count rights r')).
  { exists r'. split; [exact Hr'|]. destruct Hor as [-> | (rights & Hin & Hc)];
      [left; reflexivity|].
    right. exists names, samples, wc, rights. repeat split; assumption. }
  destruct stored;
    [destruct (Pp6Run.char_patterns samples) as [fixes| |]|];
    injection Hrun as <- <-; cbn [context_corrections pattern_fixes word_replacements];
    (split; [reflexivity|]); (split; [first [discriminate | reflexivity]|]);
    exact Hwords.
Qed.

Lemma pp6_keeps_earlier_words_witness :
  Pp6Run.learn_from_corrections (Some Examples.device_listing) Examples.device_store
    (RuleSet [(T "hte", T "the")] [Learn.zero_rule] [])
  = (false, RuleSet [(T "hte", T "the"); (T "teh", T "the")] [Learn.zero_rule] [])
  /\ (false = false -> [Learn.zero_rule] = [Learn.zero_rule])
  /\ exists r', Learn.dict_get [(T "hte", T "the"); (T "teh", T "the")] (T "hte") = Some r'
       /\ (r' = T "the"
           \/ exists names samples wc rights,
                Some Examples.device_listing = Some names
                /\ Pp6Run.read_all Examples.device_store names = Returned samples
                /\ Pp6Run.count_changes samples [] = Returned wc
                /\ In (T "hte", rights) wc /\ 2 <= Learn.lookup_count rights r').
Proof.
  assert (Hrun : Pp6Run.learn_from_corrections (Some Examples.device_listing)
                   Examples.device_store
                   (RuleSet [(T "hte", T "the")] [Learn.zero_rule] [])
                 = (false, RuleSet [(T "hte", T "the"); (T "teh", T "the")]
                             [Learn.zero_rule] []))
    by (vm_compute; reflexivity).
  split; [exact Hrun|].
  destruct (pp6_keeps_earlier_words (Some Examples.device_listing) Examples.device_store
              (RuleSet [(T "hte", T "the")] [Learn.zero_rule] [])
              (RuleSet [(T "hte", T "the"); (T "teh", T "the")] [Learn.zero_rule] [])
              false (T "hte") (T "the") Hrun eq_refl) as (_ & H1 & H2).
  split; [exact H1 | exact H2].
Defined.

(** ** The two sample directories *)

Section DirectoryFacts.
Import Store Train Spec.

Lemma tool_path_eq (name : text) :
  Str.starts_with (T "/") name = false ->
  path_join TRAINING_DIR name = T "/home/admin/pi/ai_models/training_data/" ++ name.
Proof.
  intros H. unfold path_join. rewrite H.
  change (Str.text_eqb TRAINING_DIR [] || Str.ends_with (T "/") TRAINING_DIR) with true.
  reflexivity.
Qed.

Lemma tool_path_not_saved (name : text) (now : Z) :
  Str.starts_with (T "/") name = false ->
  path_join TRAINING_DIR name <> metadata_path_of now
  /\ path_join TRAINING_DIR name <> image_dest_of now.
Proof.
  intros H. rewrite (tool_path_eq name H), metadata_path_eq, image_dest_eq.
  split; intros E; apply (f_equal (fun l => nth_error l 15)) in E;
    vm_compute in E; discriminate.
Qed.

Lemma save_outside_tool (now : Z) (image ocr name : text) (fs : gmap text file) :
  Str.starts_with (T "/") name = false ->
  snd (save_training_sample now image ocr fs) !! path_join TRAINING_DIR name
  = fs !! path_join TRAINING_DIR name.
Proof.
  intros H. destruct (tool_path_not_saved name now H) as [H1 H2].
  unfold save_training_sample.
  destruct (fs !! image); [|reflexivity].
  destruct (Str.text_eqb image (image_dest_of now)); [reflexivity|].
  cbn [snd]. rewrite lookup_insert_ne by congruence.
  rewrite lookup_insert_ne by congruence. reflexivity.
Qed.

Lemma read_samples_ext (fs fs' : gmap text file) (names : list text) :
  Forall (fun name => fs' !! path_join TRAINING_DIR name
                      = fs !! path_join TRAINING_DIR name) names ->
  read_samples fs' names = read_samples fs names.
Proof.
  induction 1 as [|name names Hn _ IH]; [reflexivity|].
  cbn [read_samples]. rewrite Hn, IH. reflexivity.
Qed.

End DirectoryFacts.

(** X8: the correction tool does not see what the capture program
    saves: [save_training_sample] of pp6.py writes below
    /home/admin/pi/corrections/training_data, while [load_samples] of
    train.py reads /home/admin/pi/ai_models/training_data/, so for every
    listing of that directory (names as [os.listdir] gives them, none
    starting with a slash) it loads after a save exactly what it loaded
    before. *)
Theorem saved_sample_not_loaded_by_tool (now : Z) (image ocr : text)
  (fs : gmap text file) (names : list text) :
  Forall (fun name => Str.starts_with (T "/") name = false) names ->
  Train.load_samples (snd (Store.save_training_sample now image ocr fs)) names
  = Train.load_samples fs names.
Proof.
  intros Hnames. unfold Train.load_samples. f_equal.
  apply read_samples_ext.
  induction Hnames as [|name names Hn _ IH]; constructor; [|exact IH].
  apply save_outside_tool. exact Hn.
Qed.

Lemma saved_sample_not_loaded_by_tool_witness :
  Train.load_samples (snd Examples.first_save) [T "sample_1700000000.json"]
  = Train.load_samples Examples.capture_store [T "sample_1700000000.json"].
Proof.
  apply (saved_sample_not_loaded_by_tool 1700000000 (T "/tmp/image.jpg") (T "first page")
           Examples.capture_store [T "sample_1700000000.json"]).
  repeat constructor.
Defined.

(** ** The order of the loaded samples *)

Section OrderFacts.
Import Train Spec.

Lemma text_ltb_trans :
  forall s t u, text_ltb s t = true -> text_ltb t u = true -> text_ltb s u = true.
Proof.
  induction s as [|c s IH]; intros [|d t] [|e u]; simpl; try discriminate; try reflexivity.
  intros H1 H2.
  apply orb_true_iff in H1. apply orb_true_iff in H2. apply orb_true_iff.
  destruct H1 as [H1|H1], H2 as [H2|H2].
  - left. apply Nat.ltb_lt in H1, H2. apply Nat.ltb_lt. lia.
  - apply andb_true_iff in H2 as [H2 _]. apply Nat.eqb_eq in H2.
    left. rewrite <- H2. exact H1.
  - apply andb_true_iff in H1 as [H1 _]. apply Nat.eqb_eq in H1.
    left. rewrite H1. exact H2.
  - apply andb_true_iff in H1 as [H1 H1']. apply andb_true_iff in H2 as [H2 H2'].
    right. apply Nat.eqb_eq in H1, H2. apply andb_true_iff. split.
    + apply Nat.eqb_eq. lia.
    + exact (IH _ _ H1' H2').
Qed.

Lemma key_lt_trans (x y z : jval) :
  key_lt x y = true -> key_lt y z = true -> key_lt x z = true.
Proof.
  unfold key_lt, key_ltb. destruct x, y, z; try discriminate.
  - apply text_ltb_trans.
  - intros H1 H2. apply Z.ltb_lt in H1, H2. apply Z.ltb_lt. lia.
Qed.

Lemma insert_sorted_in (x y : jval * gmap text jval) (l : list (jval * gmap text jval)) :
  In y (insert_sorted x l) -> y = x \/ In y l.
Proof.
  induction l as [|z l IH]; simpl.
  - intros [<-|[]]. left. reflexivity.
  - destruct (key_lt (fst x) (fst z)).
    + intros [<-|H]; [left; reflexivity | right; exact H].
    + intros [<-|H]; [right; left; reflexivity|].
      destruct (IH H) as [->|H']; [left; reflexivity | right; right; exact H'].
Qed.

Lemma insert_sorted_sorted (x : jval * gmap text jval) (l : list (jval * gmap text jval)) :
  StronglySorted key_order l -> StronglySorted key_order (insert_sorted x l).
Proof.
  induction 1 as [|y l Hl IH Hy]; simpl.
  - constructor; [constructor | constructor].
  - destruct (key_lt (fst x) (fst y)) eqn:E.
    + constructor; [constructor; assumption|].
      constructor.
      * unfold key_order. destruct (key_lt (fst y) (fst x)) eqn:E2; [|reflexivity].
        pose proof (key_lt_trans _ _ _ E E2) as H.
        unfold key_lt, key_ltb in H, E. destruct (fst x); try discriminate.
        -- clear -H. induction s as [|c s IHs]; simpl in H; [discriminate|].
           rewrite Nat.ltb_irrefl, Nat.eqb_refl in H. simpl in H. exact (IHs H).
        -- rewrite Z.ltb_irrefl in H. discriminate.
      * apply List.Forall_forall. intros z Hz. unfold key_order.
        destruct (key_lt (fst z) (fst x)) eqn:E2; [|reflexivity].
        pose proof (key_lt_trans _ _ _ E2 E) as H.
        pose proof (proj1 (List.Forall_forall _ _) Hy z Hz) as Hyz.
        unfold key_order in Hyz. congruence.
    + constructor; [exact IH|].
      apply List.Forall_forall. intros z Hz.
      apply insert_sorted_in in Hz as [->|Hz]; [exact E|].
      exact (proj1 (List.Forall_forall _ _) Hy z Hz).
Qed.

Lemma insert_sorted_perm (x : jval * gmap text jval) (l : list (jval * gmap text jval)) :
  Permutation (x :: l) (insert_sorted x l).
Proof.
  induction l as [|y l IH]; simpl; [reflexivity|].
  destruct (key_lt (fst x) (fst y)); [reflexivity|].
  rewrite perm_swap. constructor. exact IH.
Qed.

Lemma sort_fold_sorted :
  forall l acc, StronglySorted key_order acc ->
    StronglySorted key_order (fold_left (fun acc x => insert_sorted x acc) l acc)
    /\ Permutation (l ++ acc) (fold_left (fun acc x => insert_sorted x acc) l acc).
Proof.
  induction l as [|x l IH]; intros acc Hacc; simpl; [split; [exact Hacc | reflexivity]|].
  destruct (IH (insert_sorted x acc) (insert_sorted_sorted x acc Hacc)) as [Hs Hp].
  split; [exact Hs|]. rewrite <- Hp, <- insert_sorted_perm.
  rewrite Permutation_middle. reflexivity.
Qed.

Lemma sorted_map_snd (keyed : list (jval * gmap text jval)) :
  Forall (fun kd => snd kd !! T "timestamp" = Some (fst kd)) keyed ->
  StronglySorted key_order keyed ->
  StronglySorted in_order (map snd keyed).
Proof.
  intros Hts Hs. induction Hs as [|x l Hl IH Hx]; simpl; [constructor|].
  inversion Hts as [|? ? Hx0 Hts']; subst.
  constructor; [apply IH; exact Hts'|].
  apply List.Forall_map. apply List.Forall_forall. intros y Hy.
  pose proof (proj1 (List.Forall_forall _ _) Hx y Hy) as Hxy.
  pose proof (proj1 (List.Forall_forall _ _) Hts' y Hy) as Hy0.
  intros ka kb Ha Hb. unfold key_order in Hxy. congruence.
Qed.

Lemma sorted_by_timestamp_spec (l0 l : list (gmap text jval)) :
  sorted_by_timestamp l0 = Returned l ->
  Permutation l0 l /\ StronglySorted in_order l.
Proof.
  unfold sorted_by_timestamp. intros H.
  apply obind_returned in H as (keyed & Hkeys & H).
  destruct (with_keys_spec l0 keyed Hkeys) as [Hmap Hts].
  destruct (sort_fold_sorted keyed [] (SSorted_nil _)) as [Hs Hp].
  rewrite app_nil_r in Hp.
  destruct keyed as [|[k0 s0] keyed'].
  - injection H as <-. simpl in Hmap. subst l0. split; constructor.
  - destruct (forallb _ _); [|discriminate]. injection H as <-.
    split.
    + rewrite <- Hmap. apply Permutation_map. exact Hp.
    + apply sorted_map_snd; [|exact Hs].
      apply List.Forall_forall. intros kd Hin.
      apply (Permutation_in _ (Permutation_sym Hp)) in Hin.
      exact (proj1 (List.Forall_forall _ _) Hts kd Hin).
Qed.

End OrderFacts.

Lemma samples_come_sorted_aux (fs : gmap text file) (names : list text)
  (l : list (gmap text jval)) :
  Train.load_samples fs names = Returned l ->
  exists l0, Train.read_samples fs names = Returned l0 /\ Permutation l0 l.
Proof.
  unfold Train.load_samples. intros H.
  apply obind_returned in H as (l0 & Hread & Hsort).
  exists l0. split; [exact Hread|]. exact (proj1 (sorted_by_timestamp_spec l0 l Hsort)).
Qed.

(** X9: [load_samples] of train.py hands out exactly the records it
    read, each once, ordered by timestamp: no sample comes after one
    whose timestamp is greater than its own. *)
Theorem samples_come_sorted (fs : gmap text file) (names : list text)
  (l : list (gmap text jval)) :
  Train.load_samples fs names = Returned l ->
  exists l0, Train.read_samples fs names = Returned l0
    /\ Permutation l0 l
    /\ StronglySorted Spec.in_order l.
Proof.
  unfold Train.load_samples. intros H.
  apply obind_returned in H as (l0 & Hread & Hsort).
  exists l0. split; [exact Hread|]. exact (sorted_by_timestamp_spec l0 l Hsort).
Qed.

Lemma samples_come_sorted_witness :
  exists l l0,
    Train.load_samples Examples.two_store Examples.two_listing = Returned l
    /\ Train.read_samples Examples.two_store Examples.two_listing = Returned l0
    /\ Permutation l0 l
    /\ StronglySorted Spec.in_order l
    /\ map (fun d : gmap text jval => d !! T "timestamp") l0
       = [Some (JInt 7); Some (JInt 5)]
    /\ map (fun d : gmap text jval => d !! T "timestamp") l
       = [Some (JInt 5); Some (JInt 7)].
Proof.
  destruct (Train.load_samples Examples.two_store Examples.two_listing)
    as [l| |] eqn:E.
  - destruct (samples_come_sorted _ _ _ E) as (l0 & H0 & Hp & Hs).
    exists l, l0. split; [reflexivity|]. split; [exact H0|].
    split; [exact Hp|]. split; [exact Hs|]. split.
    + assert (H : match Train.read_samples Examples.two_store Examples.two_listing with
                  | Returned r => map (fun d : gmap text jval => d !! T "timestamp") r
                  | _ => []
                  end = [Some (JInt 7); Some (JInt 5)]) by (vm_compute; reflexivity).
      rewrite H0 in H. exact H.
    + assert (H : match Train.load_samples Examples.two_store Examples.two_listing with
                  | Returned r => map (fun d : gmap text jval => d !! T "timestamp") r
                  | _ => []
                  end = [Some (JInt 5); Some (JInt 7)]) by (vm_compute; reflexivity).
      rewrite E in H. exact H.
  - exfalso.
    assert (H : match Train.load_samples Examples.two_store Examples.two_listing with
                | Returned _ => true
                | _ => false
                end = true) by (vm_compute; reflexivity).
    rewrite E in H. discriminate.
  - exfalso.
    assert (H : match Train.load_samples Examples.two_store Examples.two_listing with
                | Returned _ => true
                | _ => false
                end = true) by (vm_compute; reflexivity).
    rewrite E in H. discriminate.
Defined.

(** ** Sessions of the correction tool *)

Section SessionFacts.
Import Train Spec.

Ltac key_ne := let H := fresh in intros H; vm_compute in H; discriminate.

Ltac lookups :=
  repeat first [rewrite lookup_insert_eq | rewrite lookup_insert_ne by key_ne].

Lemma text_eqb_true (s t : text) : s = t -> Str.text_eqb s t = true.
Proof. intros ->. unfold Str.text_eqb. case_bool_decide; congruence. Qed.

Lemma text_eqb_false (s t : text) : s <> t -> Str.text_eqb s t = false.
Proof. intros H. unfold Str.text_eqb. case_bool_decide; congruence. Qed.

Lemma correct_loop_skips :
  forall (samples : list (gmap text jval)) (inputs : list text) (fs : gmap text file),
    Forall (fun line => Str.lower (Str.strip line) = T "s"
                        \/ Str.lower (Str.strip line) = T "q") inputs ->
    correct_loop samples inputs fs = fs.
Proof.
  induction samples as [|smp samples IH]; intros inputs fs Hin; cbn [correct_loop];
    [reflexivity|].
  destruct (smp !! T "id"); [|reflexivity].
  destruct (smp !! T "image_path"); [|reflexivity].
  destruct (smp !! T "ocr_text"); [|reflexivity].
  destruct Hin as [|line inputs Hline Hin]; [reflexivity|].
  destruct Hline as [E|E]; rewrite E.
  - change (Str.text_eqb (T "s") (T "q")) with false.
    change (Str.text_eqb (T "s") (T "s")) with true. cbn iota.
    apply IH. exact Hin.
  - change (Str.text_eqb (T "q") (T "q")) with true. reflexivity.
Qed.

Lemma read_samples_plain (fs : gmap text file) :
  forall names l,
    (forall name d, In name names ->
       fs !! Store.path_join TRAINING_DIR name = Some (FJson d) -> plain_record d) ->
    read_samples fs names = Returned l ->
    Forall (plain_sample fs) l.
Proof.
  induction names as [|name names IH]; intros l Hplain; cbn [read_samples].
  - intros [= <-]. constructor.
  - assert (Htail : forall name' d, In name' names ->
              fs !! Store.path_join TRAINING_DIR name' = Some (FJson d) -> plain_record d).
    { intros name' d Hin. apply Hplain. right. exact Hin. }
    destruct (Str.ends_with (T ".json") name); [|apply IH; exact Htail].
    destruct (fs !! Store.path_join TRAINING_DIR name) as [[d|]|] eqn:Hf;
      try discriminate.
    destruct (read_samples fs names) as [rest| |]; cbn [obind]; try discriminate.
    intros [= <-]. constructor; [|apply IH; [exact Htail | reflexivity]].
    exists (Store.path_join TRAINING_DIR name), d.
    split; [reflexivity|]. split; [exact Hf|].
    apply (Hplain name d); [left; reflexivity | exact Hf].
Qed.

Lemma enter_keeps (fs : gmap text file) (smp : gmap text jval) :
  plain_sample fs smp ->
  exists i ip o c,
    smp !! T "id" = Some i /\ smp !! T "image_path" = Some ip
    /\ smp !! T "ocr_text" = Some o /\ smp !! T "corrected_text" = Some c
    /\ save_sample (<[T "corrected_text" := c]> smp) fs = (Returned tt, fs).
Proof.
  intros (p & d & -> & Hf & (i & t & o & c & ip & ->)).
  exists i, ip, o, c.
  split; [lookups; reflexivity|]. split; [lookups; reflexivity|].
  split; [lookups; reflexivity|]. split; [lookups; reflexivity|].
  unfold save_sample. lookups. f_equal. apply insert_id. exact Hf.
Qed.

Lemma correct_loop_passive :
  forall (samples : list (gmap text jval)) (inputs : list text) (fs : gmap text file),
    Forall (plain_sample fs) samples ->
    Forall passive inputs ->
    correct_loop samples inputs fs = fs.
Proof.
  induction samples as [|smp samples IH]; intros inputs fs Hs Hin; cbn [correct_loop];
    [reflexivity|].
  inversion Hs as [|? ? Hsmp Hs']; subst.
  destruct (enter_keeps fs smp Hsmp) as (i & ip & o & c & -> & -> & -> & Hc & Hsave).
  destruct Hin as [|line inputs Hline Hin]; [reflexivity|].
  cbv beta iota zeta.
  destruct (Str.text_eqb (Str.lower (Str.strip line)) (T "q")) eqn:Eq; [reflexivity|].
  destruct (Str.text_eqb (Str.lower (Str.strip line)) (T "s")) eqn:Es;
    [apply IH; assumption|].
  destruct Hline as [E|[E|E]].
  - rewrite E. change (Str.text_eqb [] []) with true. cbn iota.
    rewrite Hc, Hsave. apply IH; assumption.
  - rewrite E in Es. vm_compute in Es. discriminate.
  - rewrite E in Eq. vm_compute in Eq. discriminate.
Qed.

Lemma correct_loop_eof (samples : list (gmap text jval)) (fs : gmap text file) :
  correct_loop samples [] fs = fs.
Proof.
  destruct samples as [|smp samples]; [reflexivity|]. cbn [correct_loop].
  destruct (smp !! T "id"), (smp !! T "image_path"), (smp !! T "ocr_text"); reflexivity.
Qed.

Lemma typed_correction (fs : gmap text file) (smp : gmap text jval)
  (rest : list (gmap text jval)) (line : text) :
  loaded_from fs smp ->
  is_Some (smp !! T "id") -> is_Some (smp !! T "image_path") ->
  is_Some (smp !! T "ocr_text") ->
  Str.strip line <> [] ->
  Str.lower (Str.strip line) <> T "q" -> Str.lower (Str.strip line) <> T "s" ->
  exists p d, smp !! T "json_path" = Some (JStr p)
    /\ correct_loop (smp :: rest) [line] fs = <[p := FJson d]> fs
    /\ d !! T "corrected_text" = Some (JStr (Str.strip line))
    /\ plain_record d
    /\ agrees smp d.
Proof.
  intros [[t Ht] (p & d0 & Hp & _ & _)] [i Hi] [ip Hip] [o Ho] Hne Hq Hs.
  exists p. eexists. split; [exact Hp|].
  cbn [correct_loop]. rewrite Hi, Hip, Ho. cbv beta iota zeta.
  rewrite (text_eqb_false _ _ Hq), (text_eqb_false _ _ Hs), (text_eqb_false _ _ Hne).
  unfold save_sample.
  rewrite lookup_insert_ne by key_ne. rewrite Hp.
  rewrite (lookup_insert_ne _ _ (T "id")) by key_ne. rewrite Hi.
  rewrite (lookup_insert_ne _ _ (T "timestamp")) by key_ne. rewrite Ht.
  rewrite (lookup_insert_ne _ _ (T "ocr_text")) by key_ne. rewrite Ho.
  rewrite lookup_insert_eq.
  rewrite (lookup_insert_ne _ _ (T "image_path")) by key_ne. rewrite Hip.
  rewrite correct_loop_eof.
  split; [reflexivity|]. split; [lookups; reflexivity|].
  split; [do 5 eexists; reflexivity|].
  intros k Hk. simpl in Hk. destruct Hk as [<-|[<-|[<-|[<-|[]]]]]; lookups;
    first [exact (eq_sym Hi) | exact (eq_sym Ht) | exact (eq_sym Ho) | exact (eq_sym Hip)].
Qed.

End SessionFacts.

(** X10: typing only s or q (in either case, with or without blanks
    around) at the prompts of the correction tool changes nothing in the
    store, whatever the store holds: these two letters are commands,
    and can never be stored as a correction. *)
Theorem skipping_changes_nothing (listing : option (list text)) (inputs : list text)
  (fs : gmap text file) :
  Forall (fun line => Str.lower (Str.strip line) = T "s"
                      \/ Str.lower (Str.strip line) = T "q") inputs ->
  Train.main listing inputs fs = fs.
Proof.
  intros Hin. unfold Train.main. destruct listing as [names|]; [|reflexivity].
  destruct (Train.load_samples fs names); try reflexivity.
  apply correct_loop_skips. exact Hin.
Qed.

Lemma skipping_changes_nothing_witness :
  Train.main (Some [T "sample_5.json"]) [T " S "; T "q"] Examples.tool_store
  = Examples.tool_store.
Proof.
  apply skipping_changes_nothing.
  repeat constructor; vm_compute; tauto.
Defined.

(** X11: when the records that the listing names have the five fields
    of a sample and no other, a session in which every line typed is
    empty (keep), s (skip) or q (quit) leaves the store exactly as it
    was: keeping a sample writes its record back unchanged. *)
Theorem keeping_changes_nothing (names : list text) (inputs : list text)
  (fs : gmap text file) :
  (forall name d, In name names ->
     fs !! Store.path_join Train.TRAINING_DIR name = Some (FJson d) ->
     Spec.plain_record d) ->
  Forall Spec.passive inputs ->
  Train.main (Some names) inputs fs = fs.
Proof.
  intros Hplain Hin. unfold Train.main.
  destruct (Train.load_samples fs names) as [l| |] eqn:Hload; try reflexivity.
  apply correct_loop_passive; [|exact Hin].
  destruct (samples_come_sorted_aux fs names l Hload) as (l0 & Hread & Hperm).
  apply (Permutation_Forall Hperm).
  exact (read_samples_plain fs names l0 Hplain Hread).
Qed.

Lemma keeping_changes_nothing_witness :
  Train.main (Some [T "sample_5.json"]) [T "  "; T "q"] Examples.tool_store
  = Examples.tool_store.
Proof.
  apply keeping_changes_nothing.
  - intros name d [<-|[]] H.
    change (Store.path_join Train.TRAINING_DIR (T "sample_5.json"))
      with Examples.tool_path in H.
    unfold Examples.tool_store in H. rewrite lookup_insert_eq in H.
    injection H as <-. do 5 eexists. reflexivity.
  - constructor; [left; reflexivity|].
    constructor; [right; right; reflexivity | constructor].
Defined.

(** X12: a correction typed for the first sample is what the tool
    stores: when the line is not empty and is not one of the commands s
    and q, the record of that sample is rewritten with the typed line,
    stripped of the whitespace around it, as its [corrected_text], with
    the five fields of a sample and no other, its [id], [timestamp],
    [ocr_text] and [image_path] as loaded; no other file changes. *)
Theorem typed_correction_is_stored (fs : gmap text file) (names : list text)
  (smp : gmap text jval) (rest : list (gmap text jval)) (line : text) :
  Train.load_samples fs names = Returned (smp :: rest) ->
  is_Some (smp !! T "id") -> is_Some (smp !! T "image_path") ->
  is_Some (smp !! T "ocr_text") ->
  Str.strip line <> [] ->
  Str.lower (Str.strip line) <> T "q" -> Str.lower (Str.strip line) <> T "s" ->
  exists p d, smp !! T "json_path" = Some (JStr p)
    /\ Train.main (Some names) [line] fs = <[p := FJson d]> fs
    /\ d !! T "corrected_text" = Some (JStr (Str.strip line))
    /\ Spec.plain_record d
    /\ Spec.agrees smp d.
Proof.
  intros Hload Hi Hip Ho Hne Hq Hs.
  pose proof (load_samples_loaded fs names _ Hload) as Hall.
  inversion Hall as [|? ? Hsmp _]; subst.
  unfold Train.main. rewrite Hload.
  exact (typed_correction fs smp rest line Hsmp Hi Hip Ho Hne Hq Hs).
Qed.

Lemma typed_correction_is_stored_witness :
  exists p d,
    (<[T "json_path" := JStr Examples.tool_path]> (Store.metadata_of 5 (T "teh cat")))
      !! T "json_path" = Some (JStr p)
    /\ Train.main (Some [T "sample_5.json"]) [T " the cat "] Examples.tool_store
       = <[p := FJson d]> Examples.tool_store
    /\ d !! T "corrected_text" = Some (JStr (Str.strip (T " the cat ")))
    /\ Spec.plain_record d
    /\ Spec.agrees (<[T "json_path" := JStr Examples.tool_path]>
                      (Store.metadata_of 5 (T "teh cat"))) d.
Proof.
  apply (typed_correction_is_stored Examples.tool_store [T "sample_5.json"] _ []).
  - unfold Train.load_samples. cbn [Train.read_samples].
    change (Str.ends_with (T ".json") (T "sample_5.json")) with true. cbv iota.
    change (Store.path_join Train.TRAINING_DIR (T "sample_5.json"))
      with Examples.tool_path.
    unfold Examples.tool_store at 1. rewrite lookup_insert_eq. cbn [obind].
    unfold Train.sorted_by_timestamp. cbn [Train.with_keys].
    unfold Store.metadata_of.
    rewrite (lookup_insert_ne _ _ (T "timestamp"))
      by (let H := fresh in intros H; vm_compute in H; discriminate).
    rewrite (lookup_insert_ne _ _ (T "timestamp"))
      by (let H := fresh in intros H; vm_compute in H; discriminate).
    rewrite lookup_insert_eq. reflexivity.
  - eexists. unfold Store.metadata_of.
    rewrite lookup_insert_ne by (let H := fresh in intros H; vm_compute in H; discriminate).
    rewrite lookup_insert_eq. reflexivity.
  - eexists. unfold Store.metadata_of.
    do 5 rewrite lookup_insert_ne by (let H := fresh in intros H; vm_compute in H; discriminate).
    rewrite lookup_insert_eq. reflexivity.
  - eexists. unfold Store.metadata_of.
    do 3 rewrite lookup_insert_ne by (let H := fresh in intros H; vm_compute in H; discriminate).
    rewrite lookup_insert_eq. reflexivity.
  - vm_compute. discriminate.
  - vm_compute. discriminate.
  - vm_compute. discriminate.
Defined.

(** ** The device: capture, read out, repeat *)

Section DeviceFacts.
Import Device Spec.

Lemma lstrip_idem (s : text) : Str.lstrip (Str.lstrip s) = Str.lstrip s.
Proof.
  induction s as [|c s IH]; simpl; [reflexivity|].
  destruct (Chars.is_space c) eqn:Hc; [exact IH|]. simpl. rewrite Hc. reflexivity.
Qed.

Lemma lstrip_head (s : text) :
  match Str.lstrip s with
  | [] => True
  | c :: _ => Chars.is_space c = false
  end.
Proof.
  induction s as [|c s IH]; simpl; [exact I|].
  destruct (Chars.is_space c) eqn:Hc; [exact IH | exact Hc].
Qed.

Lemma rstrip_head (c : ascii) (y : text) :
  Chars.is_space c = false ->
  exists l, rev (Str.lstrip (rev (c :: y))) = c :: l.
Proof.
  intros Hc. change (c :: y) with ([c] ++ y). rewrite rstrip_app.
  destruct (rev (Str.lstrip (rev y))) as [|d l].
  - simpl. rewrite Hc. exists []. reflexivity.
  - exists (d :: l). reflexivity.
Qed.

Lemma strip_idem (s : text) : Str.strip (Str.strip s) = Str.strip s.
Proof.
  unfold Str.strip.
  pose proof (lstrip_head s) as Hh.
  destruct (Str.lstrip s) as [|c y] eqn:E; [reflexivity|].
  destruct (rstrip_head c y Hh) as [l Hl]. rewrite Hl.
  assert (Hfix : Str.lstrip (c :: l) = c :: l) by (simpl; rewrite Hh; reflexivity).
  rewrite Hfix, <- Hl, rev_involutive, lstrip_idem. reflexivity.
Qed.

Lemma text_eqb_nil (s : text) : Str.text_eqb s [] = false -> s <> [].
Proof. unfold Str.text_eqb. intros H. case_bool_decide; [discriminate | assumption]. Qed.

Lemma text_eqb_nil_true (s : text) : Str.text_eqb s [] = true -> s = [].
Proof. unfold Str.text_eqb. intros H. case_bool_decide; [assumption | discriminate]. Qed.

Lemma speak_repeatable (val : text) (st : state) :
  repeatable st -> repeatable (speak val false st).
Proof.
  unfold repeatable, speak. simpl. intros [H|(H1 & H2 & H3)]; [left; exact H|].
  right. repeat split; try assumption. right. exact H3.
Qed.

Lemma playTTS_repeatable (st : state) : repeatable st -> repeatable (playTTS st).
Proof.
  intros H. unfold playTTS. destruct (text_file st) as [content|]; [|exact H].
  cbv zeta. destruct (Str.text_eqb (Str.strip (read_text content)) []) eqn:E.
  - apply speak_repeatable. exact H.
  - right. simpl. split; [apply text_eqb_nil; exact E|].
    split; [apply strip_idem | left; reflexivity].
Qed.

Lemma cleanText_repeatable (spell : text -> text) (st st' : state) :
  cleanText spell st = Returned st' -> repeatable st -> repeatable st'.
Proof.
  unfold cleanText. destruct (text_file st) as [content|]; [|intros [= <-]; tauto].
  destruct (Applicator.clean_pipeline _ _ _) as [cleaned| |];
    [|intros [= <-]; tauto | discriminate].
  intros [= <-]. unfold repeatable. simpl. tauto.
Qed.

Lemma getData_repeatable (photo ocr : option text) (now : Z) (spell : text -> text)
  (st st' : state) :
  getData photo ocr now spell st = Returned st' -> repeatable st -> repeatable st'.
Proof.
  unfold getData. intros H Hst.
  apply obind_returned in H as (st5 & Hclean & [= <-]).
  apply playTTS_repeatable. apply (cleanText_repeatable _ _ _ Hclean). clear Hclean.
  unfold TRAINING_MODE.
  assert (Hgrow : forall tf fs l,
            repeatable (State (last_text_read st) tf fs (learned_corrections st)
                              (l ++ said st))).
  { intros tf fs l. unfold repeatable in *. cbn [last_text_read said].
    destruct Hst as [H|(H1 & H2 & H3)]; [left; exact H|].
    right. repeat split; try assumption. apply in_or_app. right. exact H3. }
  destruct photo as [img|], ocr as [t|];
    cbv beta iota zeta delta [speak text_file last_text_read files said
                              learned_corrections].
  - apply (Hgrow _ _ [_; _]).
  - destruct st as [l tf fs lc sd]. cbn [text_file last_text_read files said
                                         learned_corrections] in *.
    destruct tf; cbv beta iota; [apply (Hgrow _ _ [_; _]) | apply (Hgrow _ _ [_])].
  - apply (Hgrow _ _ [_; _]).
  - destruct st as [l tf fs lc sd]. cbn [text_file last_text_read files said
                                         learned_corrections] in *.
    destruct tf; cbv beta iota; [apply (Hgrow _ _ [_; _]) | apply (Hgrow _ _ [_])].
Qed.

Lemma step_repeatable (spell : text -> text) (e : event) (st st' : state) :
  step spell e st = Returned st' -> repeatable st -> repeatable st'.
Proof.
  destruct e as [photo ocr now|]; cbn [step].
  - intros H Hst. apply obind_returned in H as (st1 & Hget & [= <-]).
    apply speak_repeatable. exact (getData_repeatable _ _ _ _ _ _ Hget Hst).
  - intros [= <-] Hst. unfold repeatLastText.
    destruct (Str.text_eqb (last_text_read st) []); apply speak_repeatable; exact Hst.
Qed.

Lemma run_repeatable (spell : text -> text) (events : list event) :
  forall st st', run spell events st = Returned st' -> repeatable st -> repeatable st'.
Proof.
  induction events as [|e events IH]; intros st st'; cbn [run].
  - intros [= <-]. tauto.
  - intros H Hst. apply obind_returned in H as (st1 & Hstep & Hrun).
    exact (IH _ _ Hrun (step_repeatable _ _ _ _ Hstep Hst)).
Qed.

Lemma cleanText_frame (spell : text -> text) (st st' : state) :
  cleanText spell st = Returned st' ->
  last_text_read st' = last_text_read st /\ files st' = files st
  /\ said st' = said st /\ learned_corrections st' = learned_corrections st
  /\ (text_file st = None -> text_file st' = None).
Proof.
  unfold cleanText. destruct (text_file st) as [content|] eqn:E.
  - destruct (Applicator.clean_pipeline _ _ _) as [cleaned| |]; [| |discriminate];
      intros [= <-]; simpl; repeat split; try reflexivity; congruence.
  - intros [= <-]. repeat split; try reflexivity. intros _. exact E.
Qed.

Lemma playTTS_frame (st : state) :
  files (playTTS st) = files st /\ text_file (playTTS st) = text_file st
  /\ exists l, said (playTTS st) = l ++ said st.
Proof.
  unfold playTTS. destruct (text_file st) as [content|] eqn:E.
  - cbv zeta. destruct (Str.text_eqb (Str.strip (read_text content)) []); simpl;
      (split; [reflexivity|]); (split; [first [reflexivity | exact E]|]);
      eexists [_]; reflexivity.
  - split; [reflexivity|]. split; [exact E|]. exists []. reflexivity.
Qed.

(** What [playTTS] does with a readable file. *)
Lemma playTTS_read (st : state) (f : text) :
  text_file st = Some f ->
  (Str.strip (read_text f) <> [] ->
     last_text_read (playTTS st) = Str.strip (read_text f)
     /\ said (playTTS st) = Str.strip (read_text f) :: said st)
  /\ (Str.strip (read_text f) = [] ->
     last_text_read (playTTS st) = last_text_read st
     /\ said (playTTS st) = T "No text detected" :: said st).
Proof.
  intros E. unfold playTTS. rewrite E. cbv zeta. split; intros H.
  - destruct (Str.text_eqb (Str.strip (read_text f)) []) eqn:Eb;
      [apply text_eqb_nil_true in Eb; contradiction|].
    split; reflexivity.
  - rewrite H. change (Str.text_eqb [] []) with true. split; reflexivity.
Qed.

Lemma getData_shape (photo ocr : option text) (now : Z) (spell : text -> text)
  (st st' : state) :
  getData photo ocr now spell st = Returned st' ->
  exists st5, st' = playTTS st5 /\ last_text_read st5 = last_text_read st
    /\ forall t, ocr = Some t ->
         files st5 = snd (Store.save_training_sample now (T "/tmp/image.jpg")
                            (read_text t)
                            (match photo with
                             | Some img => <[T "/tmp/image.jpg" := FBlob img]> (files st)
                             | None => files st
                             end))
         /\ In (T "Training sample saved") (said st5).
Proof.
  destruct st as [l tf fs lc sd]. unfold getData. intros H.
  apply obind_returned in H as (st5 & Hclean & [= <-]).
  exists st5. split; [reflexivity|].
  unfold TRAINING_MODE in Hclean.
  destruct photo as [img|], ocr as [t|];
    cbv beta iota zeta delta [speak text_file last_text_read files said
                              learned_corrections] in Hclean;
    cbn [text_file last_text_read files said learned_corrections];
    try (destruct tf; cbv beta iota in Hclean);
    apply cleanText_frame in Hclean as (Hl & Hf & Hs & _ & _);
    cbn [text_file last_text_read files said learned_corrections] in Hl, Hf, Hs;
    (split; [exact Hl|]);
    try discriminate;
    intros t' [= <-]; rewrite Hf, Hs; (split; [reflexivity | left; reflexivity]).
Qed.

End DeviceFacts.

(** X13: the repeat button says what was read.  After any presses of
    the two buttons, starting with nothing stored for repeat, the repeat
    button either says "No text to repeat" or says again a text that the
    device has said before, not empty and without whitespace at its ends;
    it leaves the stored text as it is. *)
Theorem repeat_says_what_was_read (spell : text -> text) (events : list Device.event)
  (st st' : Device.state) :
  Device.last_text_read st = [] ->
  Device.run spell events st = Returned st' ->
  exists u, Device.said (Device.repeatLastText st') = u :: Device.said st'
    /\ Device.last_text_read (Device.repeatLastText st') = Device.last_text_read st'
    /\ (u = T "No text to repeat"
        \/ (u <> [] /\ Str.strip u = u /\ In u (Device.said st'))).
Proof.
  intros Hinit Hrun.
  assert (Hinv : Spec.repeatable st') by
    (apply (run_repeatable spell events st st' Hrun); left; exact Hinit).
  unfold Device.repeatLastText.
  destruct (Str.text_eqb (Device.last_text_read st') []) eqn:E.
  - eexists. split; [reflexivity|]. split; [reflexivity|]. left. reflexivity.
  - apply text_eqb_nil in E. exists (Device.last_text_read st').
    split; [reflexivity|]. split; [reflexivity|]. right.
    destruct Hinv as [H|H]; [contradiction | exact H].
Qed.

Lemma repeat_says_what_was_read_witness :
  exists st' u,
    Device.run (fun t => t) [Device.Button1 None (Some Examples.page) 1700000000;
                             Device.Button2] Examples.boot = Returned st'
    /\ Device.said (Device.repeatLastText st') = u :: Device.said st'
    /\ Device.last_text_read (Device.repeatLastText st') = Device.last_text_read st'
    /\ (u = T "No text to repeat"
        \/ (u <> [] /\ Str.strip u = u /\ In u (Device.said st'))).
Proof.
  destruct (Device.run (fun t => t)
              [Device.Button1 None (Some Examples.page) 1700000000; Device.Button2]
              Examples.boot) as [st'| |] eqn:E.
  - destruct (repeat_says_what_was_read (fun t => t) _ Examples.boot st' eq_refl E)
      as (u & H).
    exists st', u. split; [reflexivity | exact H].
  - exfalso.
    assert (H : match Device.run (fun t => t)
                        [Device.Button1 None (Some Examples.page) 1700000000;
                         Device.Button2] Examples.boot with
                | Returned _ => true
                | _ => false
                end = true) by (vm_compute; reflexivity).
    rewrite E in H. discriminate.
  - exfalso.
    assert (H : match Device.run (fun t => t)
                        [Device.Button1 None (Some Examples.page) 1700000000;
                         Device.Button2] Examples.boot with
                | Returned _ => true
                | _ => false
                end = true) by (vm_compute; reflexivity).
    rewrite E in H. discriminate.
Defined.


(** X14: one capture.  When [getData] returns, let [f] be the content
    of /tmp/text.txt then (the cleaned text, or the text as Tesseract
    wrote it when [cleanText] gave up).  [playTTS] reads it in text mode,
    line ends \r\n and \r coming as \n, and strips it.  When the result
    is not empty, it is what the device reads out, what it stores for
    repeat, and what the repeat button says next; when it is empty, the
    device says "No text detected" and the text stored for repeat stays
    what it was. *)
Theorem capture_then_repeat (spell : text -> text) (photo ocr : option text) (now : Z)
  (st st1 : Device.state) (f : text) :
  Device.getData photo ocr now spell st = Returned st1 ->
  Device.text_file st1 = Some f ->
  (Str.strip (Device.read_text f) <> [] ->
     Device.last_text_read st1 = Str.strip (Device.read_text f)
     /\ exists earlier,
         Device.said st1 = Str.strip (Device.read_text f) :: earlier
         /\ Device.said (Device.repeatLastText st1)
            = Str.strip (Device.read_text f) :: Str.strip (Device.read_text f)
              :: earlier)
  /\ (Str.strip (Device.read_text f) = [] ->
     Device.last_text_read st1 = Device.last_text_read st
     /\ exists earlier, Device.said st1 = T "No text detected" :: earlier).
Proof.
  intros Hget Hfile.
  apply getData_shape in Hget as (st5 & -> & Hlast & _).
  destruct (playTTS_frame st5) as (_ & Htf & _). rewrite Htf in Hfile.
  destruct (playTTS_read st5 f Hfile) as [Hread Hblank].
  split; intros H.
  - destruct (Hread H) as [Hl Hs]. split; [exact Hl|].
    exists (Device.said st5). split; [exact Hs|].
    unfold Device.repeatLastText. rewrite Hl.
    rewrite (text_eqb_false _ _ H). unfold Device.speak. cbn [Device.said].
    rewrite Hs. reflexivity.
  - destruct (Hblank H) as [Hl Hs]. split; [rewrite Hl; exact Hlast|].
    exists (Device.said st5). exact Hs.
Qed.

Lemma capture_then_repeat_witness :
  exists st1,
    Device.getData None (Some Examples.cr_page) 1700000000 (fun t => t)
      Examples.damaged_boot = Returned st1
    /\ Device.text_file st1 = Some Examples.cr_page
    /\ Device.last_text_read st1 = T "teh" ++ [ascii_of_nat 10] ++ T "cat"
    /\ exists earlier,
         Device.said st1 = (T "teh" ++ [ascii_of_nat 10] ++ T "cat") :: earlier
         /\ Device.said (Device.repeatLastText st1)
            = (T "teh" ++ [ascii_of_nat 10] ++ T "cat")
              :: (T "teh" ++ [ascii_of_nat 10] ++ T "cat") :: earlier.
Proof.
  destruct (Device.getData None (Some Examples.cr_page) 1700000000 (fun t => t)
              Examples.damaged_boot) as [st1| |] eqn:E.
  - assert (Hf : match Device.getData None (Some Examples.cr_page) 1700000000
                         (fun t => t) Examples.damaged_boot with
                 | Returned s => Device.text_file s
                 | _ => None
                 end = Some Examples.cr_page) by (vm_compute; reflexivity).
    rewrite E in Hf.
    destruct (capture_then_repeat _ _ _ _ _ _ _ E Hf) as [H _].
    exists st1. split; [reflexivity|]. split; [exact Hf|].
    apply H. vm_compute. discriminate.
  - exfalso.
    assert (H : match Device.getData None (Some Examples.cr_page) 1700000000
                        (fun t => t) Examples.damaged_boot with
                | Returned _ => true
                | _ => false
                end = true) by (vm_compute; reflexivity).
    rewrite E in H. discriminate.
  - exfalso.
    assert (H : match Device.getData None (Some Examples.cr_page) 1700000000
                        (fun t => t) Examples.damaged_boot with
                | Returned _ => true
                | _ => false
                end = true) by (vm_compute; reflexivity).
    rewrite E in H. discriminate.
Defined.


(** X15: in training mode the device announces "Training sample saved"
    whenever Tesseract has written its text, whether or not a sample was
    saved: with no image at /tmp/image.jpg nothing is stored, and the
    announcement is made all the same. *)
Theorem announced_even_if_not_saved (spell : text -> text) (t : text) (now : Z)
  (st st' : Device.state) :
  Device.files st !! T "/tmp/image.jpg" = None ->
  Device.getData None (Some t) now spell st = Returned st' ->
  Device.files st' = Device.files st
  /\ In (T "Training sample saved") (Device.said st').
Proof.
  intros Hno Hget.
  apply getData_shape in Hget as (st5 & -> & _ & H).
  destruct (H t eq_refl) as [Hf Hs].
  destruct (playTTS_frame st5) as (Hfiles & _ & l & Hsaid).
  rewrite Hfiles, Hsaid, Hf. split.
  - unfold Store.save_training_sample. rewrite Hno. reflexivity.
  - apply in_or_app. right. exact Hs.
Qed.

Lemma announced_even_if_not_saved_witness :
  exists st',
    Device.getData None (Some Examples.page) 1700000000 (fun t => t) Examples.boot
    = Returned st'
    /\ Device.files st' = Device.files Examples.boot
    /\ In (T "Training sample saved") (Device.said st').
Proof.
  destruct (Device.getData None (Some Examples.page) 1700000000 (fun t => t)
              Examples.boot) as [st'| |] eqn:E.
  - exists st'. split; [reflexivity|].
    apply (announced_even_if_not_saved (fun t => t) Examples.page 1700000000
             Examples.boot st'); [apply lookup_empty | exact E].
  - exfalso.
    assert (H : match Device.getData None (Some Examples.page) 1700000000 (fun t => t)
                        Examples.boot with
                | Returned _ => true
                | _ => false
                end = true) by (vm_compute; reflexivity).
    rewrite E in H. discriminate.
  - exfalso.
    assert (H : match Device.getData None (Some Examples.page) 1700000000 (fun t => t)
                        Examples.boot with
                | Returned _ => true
                | _ => false
                end = true) by (vm_compute; reflexivity).
    rewrite E in H. discriminate.
Defined.


(** X16: a capture in training mode, with a photo taken and a text
    recognized, stores the photo and a record whose [ocr_text] and
    [corrected_text] are both the text that Tesseract wrote, as
    [getData] reads it in text mode (line ends \r\n and \r coming as
    \n), before any cleaning. *)
Theorem capture_stores_raw_text (spell : text -> text) (img t : text) (now : Z)
  (st st' : Device.state) :
  Device.getData (Some img) (Some t) now spell st = Returned st' ->
  Device.files st' !! Store.metadata_path_of now
  = Some (FJson (Store.metadata_of now (Device.read_text t)))
  /\ Device.files st' !! Store.image_dest_of now = Some (FBlob img)
  /\ Store.metadata_of now (Device.read_text t) !! T "ocr_text"
     = Some (JStr (Device.read_text t))
  /\ Store.metadata_of now (Device.read_text t) !! T "corrected_text"
     = Some (JStr (Device.read_text t)).
Proof.
  intros Hget.
  apply getData_shape in Hget as (st5 & -> & _ & H).
  destruct (H t eq_refl) as [Hf _].
  destruct (playTTS_frame st5) as (Hfiles & _ & _).
  rewrite Hfiles, Hf. clear.
  assert (Hne : T "/tmp/image.jpg" <> Store.image_dest_of now).
  { rewrite image_dest_eq. intros E.
    apply (f_equal (fun l => nth_error l 1)) in E. vm_compute in E. discriminate. }
  unfold Store.save_training_sample. rewrite lookup_insert_eq.
  rewrite (text_eqb_false _ _ Hne). cbn [snd].
  split; [apply lookup_insert_eq|].
  split.
  - rewrite lookup_insert_ne by (intros E; exact (metadata_path_not_image _ _ E)).
    apply lookup_insert_eq.
  - unfold Store.metadata_of. split.
    + do 2 rewrite lookup_insert_ne
        by (let E := fresh in intros E; vm_compute in E; discriminate).
      apply lookup_insert_eq.
    + do 3 rewrite lookup_insert_ne
        by (let E := fresh in intros E; vm_compute in E; discriminate).
      apply lookup_insert_eq.
Qed.

Lemma capture_stores_raw_text_witness :
  exists st',
    Device.getData (Some (T "jpeg")) (Some Examples.dos_page) 1700000000 (fun t => t)
      Examples.boot = Returned st'
    /\ Device.files st' !! Store.metadata_path_of 1700000000
       = Some (FJson (Store.metadata_of 1700000000
                        (T "teh" ++ [ascii_of_nat 10] ++ T "cat" ++ [ascii_of_nat 10])))
    /\ Device.files st' !! Store.image_dest_of 1700000000 = Some (FBlob (T "jpeg")).
Proof.
  destruct (Device.getData (Some (T "jpeg")) (Some Examples.dos_page) 1700000000
              (fun t => t) Examples.boot) as [st'| |] eqn:E.
  - exists st'. split; [reflexivity|].
    destruct (capture_stores_raw_text _ _ _ _ _ _ E) as (H1 & H2 & _).
    split; [exact H1 | exact H2].
  - exfalso.
    assert (H : match Device.getData (Some (T "jpeg")) (Some Examples.dos_page)
                        1700000000 (fun t => t) Examples.boot with
                | Returned _ => true
                | _ => false
                end = true) by (vm_compute; reflexivity).
    rewrite E in H. discriminate.
  - exfalso.
    assert (H : match Device.getData (Some (T "jpeg")) (Some Examples.dos_page)
                        1700000000 (fun t => t) Examples.boot with
                | Returned _ => true
                | _ => false
                end = true) by (vm_compute; reflexivity).
    rewrite E in H. discriminate.
Defined.

(** ** learn.py as a program *)

Section LearnerFacts.
Import Learn Learner Spec.

Lemma ends_with_app (p s : text) : Str.ends_with p (s ++ p) = true.
Proof. unfold Str.ends_with. rewrite rev_app_distr. apply starts_with_app. Qed.

Lemma read_all_in (fs : gmap text file) (name : text) (d : gmap text jval) :
  Str.ends_with (T ".json") name = true ->
  fs !! Store.path_join TRAINING_DATA_DIR name = Some (FJson d) ->
  forall names l, In name names -> read_all fs names = Returned l -> In d l.
Proof.
  intros Hjson Hfile. induction names as [|n names IH]; intros l Hin Hread; [destruct Hin|].
  cbn [read_all] in Hread. destruct Hin as [->|Hin].
  - rewrite Hjson, Hfile in Hread.
    apply obind_returned in Hread as (rest & _ & [= <-]). left. reflexivity.
  - destruct (Str.ends_with (T ".json") n); [|exact (IH l Hin Hread)].
    destruct (fs !! Store.path_join TRAINING_DATA_DIR n) as [[d'|]|];
      [| discriminate | exact (IH l Hin Hread)].
    apply obind_returned in Hread as (rest & Hrest & [= <-]).
    right. exact (IH rest Hin Hrest).
Qed.

Lemma bump_not_nil (wc : changes) (o : text * text) : bump wc o <> [].
Proof.
  destruct wc as [|[k rights] wc]; simpl; [discriminate|].
  destruct (Str.text_eqb k (fst o)); discriminate.
Qed.

Lemma fold_bump_not_nil (obs : list (text * text)) :
  forall wc, wc <> [] -> fold_left bump obs wc <> [].
Proof.
  induction obs as [|o obs IH]; intros wc H; simpl; [exact H|].
  apply IH, bump_not_nil.
Qed.

Lemma analyze_nil (samples : list sample) :
  analyze_corrections samples = [] <-> observations samples = [].
Proof.
  rewrite analyze_as_fold. split.
  - destruct (observations samples) as [|o obs]; [reflexivity|]. simpl. intros H.
    exfalso. exact (fold_bump_not_nil obs _ (bump_not_nil [] o) H).
  - intros ->. reflexivity.
Qed.

Lemma uncorrected_observations (samples : list sample) :
  Forall (fun s => ocr_text s = corrected_text s) samples ->
  observations samples = [].
Proof.
  unfold observations. induction 1 as [|s samples Hs _ IH]; [reflexivity|].
  simpl. rewrite IH, app_nil_r. unfold sample_observations.
  rewrite Hs. unfold Str.text_eqb. case_bool_decide; [reflexivity | congruence].
Qed.

Lemma as_sample_saved (now : Z) (ocr : text) :
  as_sample (Store.metadata_of now ocr) = Returned (Sample [] 0 ocr ocr []).
Proof.
  unfold as_sample, get_text, Store.metadata_of.
  do 2 rewrite lookup_insert_ne
    by (let E := fresh in intros E; vm_compute in E; discriminate).
  rewrite lookup_insert_eq. cbn [obind].
  do 3 rewrite lookup_insert_ne
    by (let E := fresh in intros E; vm_compute in E; discriminate).
  rewrite lookup_insert_eq. reflexivity.
Qed.

Lemma read_all_saved (fs : gmap text file) :
  forall names, as_saved fs names ->
    exists loaded, read_all fs names = Returned loaded
      /\ Forall (fun d => exists now ocr, d = Store.metadata_of now ocr) loaded.
Proof.
  induction names as [|n names IH]; intros Hs.
  - exists []. split; [reflexivity | constructor].
  - assert (Htail : as_saved fs names).
    { intros name f Hin. apply Hs. right. exact Hin. }
    destruct (IH Htail) as (rest & Hrest & Hall).
    cbn [read_all]. destruct (Str.ends_with (T ".json") n) eqn:Hj;
      [|exists rest; split; assumption].
    destruct (fs !! Store.path_join TRAINING_DATA_DIR n) as [f|] eqn:Hf;
      [|exists rest; split; assumption].
    destruct (Hs n f (or_introl eq_refl) Hj Hf) as (now & ocr & ->).
    rewrite Hrest. cbn [obind]. eexists. split; [reflexivity|].
    constructor; [exists now, ocr; reflexivity | exact Hall].
Qed.

Lemma as_samples_saved (loaded : list (gmap text jval)) :
  Forall (fun d => exists now ocr, d = Store.metadata_of now ocr) loaded ->
  exists samples, as_samples loaded = Returned samples
    /\ Forall (fun s => ocr_text s = corrected_text s) samples.
Proof.
  induction 1 as [|d loaded (now & ocr & ->) _ (samples & Hs & Hall)].
  - exists []. split; [reflexivity | constructor].
  - cbn [as_samples]. rewrite as_sample_saved, Hs. cbn [obind].
    eexists. split; [reflexivity|]. constructor; [reflexivity | exact Hall].
Qed.

Lemma main_inv (listing : option (list text)) (fs : gmap text file) (answer : text)
  (rs : rule_set) :
  main listing fs answer = Returned (Some rs) ->
  exists loaded samples,
    load_training_samples listing fs = Returned loaded
    /\ as_samples loaded = Returned samples
    /\ loaded <> []
    /\ (5 <= List.length loaded \/ Str.lower answer = T "y")
    /\ observations samples <> []
    /\ learn samples = Returned rs.
Proof.
  unfold main. intros H.
  apply obind_returned in H as (loaded & Hload & H).
  destruct (List.length loaded =? 0) eqn:E0; [discriminate|].
  destruct ((List.length loaded <? 5)
            && negb (Str.text_eqb (Str.lower answer) (T "y"))) eqn:E5; [discriminate|].
  apply obind_returned in H as (samples & Hsamples & H).
  cbv zeta in H.
  destruct (analyze_corrections samples) as [|e wc] eqn:Ea; [discriminate|].
  apply obind_returned in H as (learned & Hlearn & [= <-]).
  exists loaded, samples. split; [exact Hload|]. split; [exact Hsamples|].
  split; [intros ->; discriminate|].
  split.
  - apply andb_false_iff in E5 as [E5|E5].
    + left. apply Nat.ltb_ge in E5. exact E5.
    + right. apply negb_false_iff in E5. unfold Str.text_eqb in E5.
      case_bool_decide; [assumption | discriminate].
  - split.
    + intros Hobs. apply analyze_nil in Hobs. congruence.
    + unfold learn. rewrite Ea. exact Hlearn.
Qed.

End LearnerFacts.

(** X17: learn.py reads what the capture program saves.  After a save
    that succeeds, [load_training_samples] returns the saved record
    whenever the listing of the training directory names its file; and
    learn.py takes the record as a sample whose corrected text is its
    OCR text. *)
Theorem saved_sample_read_by_learner (now : Z) (image ocr : text)
  (fs fs' : gmap text file) (names : list text) (loaded : list (gmap text jval)) :
  Store.save_training_sample now image ocr fs = (true, fs') ->
  In (Store.sample_id_of now ++ T ".json") names ->
  Learner.load_training_samples (Some names) fs' = Returned loaded ->
  In (Store.metadata_of now ocr) loaded
  /\ Learner.as_sample (Store.metadata_of now ocr) = Returned (Sample [] 0 ocr ocr []).
Proof.
  intros Hsave Hin Hload. split; [|apply as_sample_saved].
  apply (read_all_in fs' (Store.sample_id_of now ++ T ".json") _
           (ends_with_app _ _) (save_writes _ _ _ _ _ Hsave) names loaded Hin Hload).
Qed.

Lemma saved_sample_read_by_learner_witness :
  exists loaded,
    Learner.load_training_samples (Some [T "sample_1700000000.json"])
      (snd Examples.first_save) = Returned loaded
    /\ In (Store.metadata_of 1700000000 (T "first page")) loaded
    /\ Learner.as_sample (Store.metadata_of 1700000000 (T "first page"))
       = Returned (Sample [] 0 (T "first page") (T "first page") []).
Proof.
  assert (F1 : fst Examples.first_save = true) by (vm_compute; reflexivity).
  assert (Hsave : Store.save_training_sample 1700000000 (T "/tmp/image.jpg")
                    (T "first page") Examples.capture_store
                  = (true, snd Examples.first_save)).
  { change (Examples.first_save = (true, snd Examples.first_save)).
    rewrite <- F1. apply surjective_pairing. }
  destruct (Learner.load_training_samples (Some [T "sample_1700000000.json"])
              (snd Examples.first_save)) as [loaded| |] eqn:E.
  - exists loaded. split; [reflexivity|].
    apply (saved_sample_read_by_learner _ _ _ _ _ [T "sample_1700000000.json"] loaded
             Hsave); [left; reflexivity | exact E].
  - exfalso. cbn [Learner.load_training_samples Learner.read_all] in E.
    change (Str.ends_with (T ".json") (T "sample_1700000000.json")) with true in E.
    cbv iota in E.
    change (Store.path_join Learner.TRAINING_DATA_DIR (T "sample_1700000000.json"))
      with (Store.metadata_path_of 1700000000) in E.
    rewrite (save_writes _ _ _ _ _ Hsave) in E. discriminate.
  - exfalso. cbn [Learner.load_training_samples Learner.read_all] in E.
    change (Str.ends_with (T ".json") (T "sample_1700000000.json")) with true in E.
    cbv iota in E.
    change (Store.path_join Learner.TRAINING_DATA_DIR (T "sample_1700000000.json"))
      with (Store.metadata_path_of 1700000000) in E.
    rewrite (save_writes _ _ _ _ _ Hsave) in E. discriminate.
Defined.

(** X18: a training directory that only the capture program has written
    to teaches learn.py nothing: every record has its corrected text
    equal to its OCR text, no word substitution is observed, and [main]
    returns without saving a rule set, whatever is answered at the
    prompt. *)
Theorem uncorrected_store_teaches_nothing (names : list text) (fs : gmap text file)
  (answer : text) :
  Spec.as_saved fs names ->
  Learner.main (Some names) fs answer = Returned None.
Proof.
  intros Hs. unfold Learner.main. cbn [Learner.load_training_samples].
  destruct (read_all_saved fs names Hs) as (loaded & -> & Hall). cbn [obind].
  destruct (List.length loaded =? 0); [reflexivity|].
  destruct ((List.length loaded <? 5)
            && negb (Str.text_eqb (Str.lower answer) (T "y"))); [reflexivity|].
  destruct (as_samples_saved loaded Hall) as (samples & -> & Hsame). cbn [obind].
  cbv zeta.
  rewrite (proj2 (analyze_nil samples) (uncorrected_observations samples Hsame)).
  reflexivity.
Qed.

Lemma uncorrected_store_teaches_nothing_witness :
  Learner.main (Some [T "sample_1700000000.json"]) (snd Examples.first_save) (T "y")
  = Returned None.
Proof.
  assert (F1 : fst Examples.first_save = true) by (vm_compute; reflexivity).
  assert (Hsave : Store.save_training_sample 1700000000 (T "/tmp/image.jpg")
                    (T "first page") Examples.capture_store
                  = (true, snd Examples.first_save)).
  { change (Examples.first_save = (true, snd Examples.first_save)).
    rewrite <- F1. apply surjective_pairing. }
  apply uncorrected_store_teaches_nothing.
  intros name f [<-|[]] _ Hf.
  change (Store.path_join Learner.TRAINING_DATA_DIR (T "sample_1700000000.json"))
    with (Store.metadata_path_of 1700000000) in Hf.
  rewrite (save_writes _ _ _ _ _ Hsave) in Hf. injection Hf as <-.
  eexists _, _. reflexivity.
Defined.

(** X19: learn.py saves a rule set only when it has loaded at least one
    sample, has five samples or the answer y at the prompt, and has
    observed at least one word substitution; the rule set it saves is
    then the one synthesized from the loaded samples alone.  Evidence
    for a pattern fix is not enough to have anything saved. *)
Theorem learner_saves_only_observed (listing : option (list text))
  (fs : gmap text file) (answer : text) (rs : rule_set) :
  Learner.main listing fs answer = Returned (Some rs) ->
  exists loaded samples,
    Learner.load_training_samples listing fs = Returned loaded
    /\ Learner.as_samples loaded = Returned samples
    /\ loaded <> []
    /\ (5 <= List.length loaded \/ Str.lower answer = T "y")
    /\ Learn.observations samples <> []
    /\ Learn.learn samples = Returned rs.
Proof. exact (main_inv listing fs answer rs). Qed.

Lemma learner_saves_only_observed_witness :
  exists loaded samples,
    Learner.load_training_samples (Some [T "sample_1.json"; T "sample_2.json"])
      Examples.learner_store = Returned loaded
    /\ Learner.as_samples loaded = Returned samples
    /\ loaded <> []
    /\ (5 <= List.length loaded \/ Str.lower (T "Y") = T "y")
    /\ Learn.observations samples <> []
    /\ Learn.learn samples = Returned (RuleSet [(T "teh", T "the")] [] []).
Proof.
  apply (learner_saves_only_observed (Some [T "sample_1.json"; T "sample_2.json"])
           Examples.learner_store (T "Y")).
  vm_compute. reflexivity.
Defined.

(** ** The spell checking pass *)

Section SpellFacts.
Import Re Spec Progress.

(** *** The two patterns *)

Lemma nonword_set (c : ascii) :
  set_match true [CWord true] c = negb (Chars.is_word c).
Proof. unfold set_match. simpl. destruct (Chars.is_word c); reflexivity. Qed.

Lemma nonword_walk :
  forall (fuel : nat) (rest : text) (prev : option ascii) (pos : nat),
    List.length rest < fuel ->
    sub_walk fuel (RSet true [CWord true]) [] prev rest pos
    = List.filter Chars.is_word rest.
Proof.
  induction fuel as [|fuel IH]; intros rest prev pos Hfuel; [lia|].
  cbn [sub_walk]. unfold match_at. cbn [rmatch ms_rest ms_prev ms_pos ms_caps andb].
  destruct rest as [|c rest]; [reflexivity|].
  simpl in Hfuel. rewrite nonword_set. cbn [List.filter].
  destruct (Chars.is_word c); cbn [negb].
  - f_equal. apply IH. lia.
  - cbn [ms_pos ms_prev ms_rest].
    replace (S pos =? pos) with false by (symmetry; apply Nat.eqb_neq; lia).
    cbn [expand flat_map app]. apply IH. lia.
Qed.

(** Line 114: the characters of the word that [\w] matches, in order. *)
Lemma sub_nonword (w : text) :
  Re.sub (T "[^\w]") [] w = Returned (List.filter Chars.is_word w).
Proof.
  unfold Re.sub.
  change (compile (T "[^\w]")) with (POk (RSet true [CWord true], 0)).
  change (compile_template 0 []) with (@POk (list titem) []).
  f_equal. apply nonword_walk. lia.
Qed.

Lemma price_set (c : ascii) : set_match false price_items c = price_char c.
Proof. destruct c as [[] [] [] [] [] [] [] []]; vm_compute; reflexivity. Qed.

Lemma at_end_tail (prev : option ascii) (c : ascii) (rest : text) (pos : nat)
  (caps : list (nat * text)) :
  price_char c = false ->
  reached (Spell.at_end (MState prev (c :: rest) pos caps)) = price_tail (c :: rest).
Proof.
  intros Hc. cbn [price_tail]. rewrite Hc. unfold Spell.at_end. cbn [ms_rest].
  destruct rest as [|d rest]; [|rewrite andb_false_r; reflexivity].
  rewrite andb_true_r. destruct (Chars.code c =? 10); reflexivity.
Qed.

Lemma price_loop (rest : text) :
  forall (fuel count : nat) (last : option nat) (prev : option ascii) (pos : nat)
         (caps : list (nat * text)),
    List.length rest < fuel ->
    1 <= count ->
    same_place last (MState prev rest pos caps) = false ->
    reached (repeat_loop (rmatch (RSet false price_items)) 1 true Spell.at_end
                         fuel count last (MState prev rest pos caps))
    = price_tail rest.
Proof.
  induction rest as [|c rest IH];
    intros fuel count last prev pos caps Hfuel Hcount Hlast;
    (destruct fuel as [|fuel]; [simpl in Hfuel; lia|]);
    cbn [repeat_loop]; rewrite Hlast;
    (replace (count <? 1) with false by (symmetry; apply Nat.ltb_ge; lia));
    cbn [orb andb negb rmatch ms_rest ms_pos ms_caps].
  - reflexivity.
  - rewrite price_set. destruct (price_char c) eqn:Hc.
    + pose proof (IH fuel (S count) (Some pos) (Some c) (S pos) caps
                    ltac:(simpl in Hfuel; lia) ltac:(lia)
                    ltac:(simpl; apply Nat.eqb_neq; lia)) as H.
      cbn [price_tail]. rewrite Hc.
      destruct (repeat_loop _ _ _ _ _ _ _ _) eqn:E; [exact H|].
      cbn [reached] in H. unfold Spell.at_end. cbn [ms_rest].
      destruct rest as [|d rest]; [discriminate H | exact H].
    + apply at_end_tail. exact Hc.
Qed.

(** Line 104: the test holds for the words made of digits and the
    characters $ . , % @ #, a last newline aside. *)
Lemma number_like_spec (w : text) :
  Spell.is_number_like w = Returned (number_word w).
Proof.
  unfold Spell.is_number_like.
  change (compile (T "[\d\$\.\,\%\@\#]+"))
    with (POk (RRepeat (RSet false price_items) 1 true, 0)).
  f_equal. cbn [rmatch ms_rest].
  change (1 + 2 * List.length w + 2) with (S (2 * List.length w + 2)).
  cbn [repeat_loop Nat.ltb Nat.leb rmatch ms_rest ms_pos ms_caps].
  destruct w as [|c w]; [reflexivity|].
  rewrite price_set. cbn [number_word]. destruct (price_char c); [|reflexivity].
  cbn [andb].
  pose proof (price_loop w (2 * List.length (c :: w) + 2) 1 None (Some c) 1 []
                ltac:(simpl; lia) ltac:(lia) eq_refl) as H.
  unfold reached in H. exact H.
Qed.

Lemma number_word_prices (w : text) :
  w <> [] -> forallb price_char w = true -> number_word w = true.
Proof.
  intros Hne Hall. destruct w as [|c w]; [congruence|].
  cbn [forallb] in Hall. apply andb_prop in Hall as [Hc Hw].
  cbn [number_word]. rewrite Hc. cbn [andb].
  clear c Hc Hne. induction w as [|c w IH]; [reflexivity|].
  cbn [forallb] in Hw. apply andb_prop in Hw as [Hc Hw].
  cbn [price_tail]. rewrite Hc. exact (IH Hw).
Qed.

(** A character that is neither of a number nor a newline. *)
Lemma price_tail_letter (x : ascii) (w : text) :
  In x w -> price_char x = false -> Chars.code x <> 10 -> price_tail w = false.
Proof.
  intros Hin Hx Hnl. induction w as [|c w IH]; [destruct Hin|].
  cbn [price_tail]. destruct Hin as [-> | Hin].
  - rewrite Hx. apply Nat.eqb_neq in Hnl. rewrite Hnl. reflexivity.
  - destruct (price_char c); [exact (IH Hin)|].
    destruct w; [destruct Hin|]. apply andb_false_r.
Qed.

Lemma number_word_letter (x : ascii) (w : text) :
  In x w -> price_char x = false -> Chars.code x <> 10 -> number_word w = false.
Proof.
  intros Hin Hx Hnl. destruct w as [|c w]; [reflexivity|].
  cbn [number_word]. destruct Hin as [-> | Hin].
  - rewrite Hx. reflexivity.
  - rewrite (price_tail_letter x w Hin Hx Hnl). apply andb_false_r.
Qed.

(** A word character that is not a digit is no character of a number. *)
Lemma letter_no_price (c : ascii) :
  Chars.is_word c = true -> Chars.is_digit c = false ->
  price_char c = false /\ Chars.code c <> 10.
Proof.
  destruct c as [[] [] [] [] [] [] [] []]; vm_compute; intros; split;
    congruence.
Qed.

(** *** [str.replace] *)

Lemma replace_go_skip (old new l rest : text) :
  Str.replace_go old new (List.length l) (l ++ rest) = Str.replace_go old new 0 rest.
Proof.
  induction l as [|c l IH]; [reflexivity|].
  cbn [List.length app Str.replace_go]. exact IH.
Qed.

(** Nothing is replaced where the old text does not occur. *)
Lemma replace_go_absent (old new s : text) :
  Str.contains old s = false -> Str.replace_go old new 0 s = s.
Proof.
  induction s as [|c s IH]; intros H; [reflexivity|].
  cbn [Str.contains] in H. apply orb_false_elim in H as [H1 H2].
  cbn [Str.replace_go]. rewrite H1. f_equal. exact (IH H2).
Qed.

Lemma replace_absent (old new s : text) :
  Str.contains old s = false -> Str.replace old new s = s.
Proof.
  intros H. destruct old as [|o old].
  - destruct s; discriminate H.
  - unfold Str.replace. apply replace_go_absent. exact H.
Qed.

Lemma starts_with_other (o : ascii) (old : text) (c : ascii) (s : text) :
  Chars.is_word o = true -> Chars.is_word c = false ->
  Str.starts_with (o :: old) (c :: s) = false.
Proof.
  intros Ho Hc. cbn [Str.starts_with]. unfold Chars.ascii_eqb.
  destruct (Ascii.eqb o c) eqn:E; [|reflexivity].
  apply Ascii.eqb_eq in E. congruence.
Qed.

Lemma replace_go_outside (o : ascii) (old new s : text) :
  Chars.is_word o = true -> no_word_char s = true ->
  Str.replace_go (o :: old) new 0 s = s.
Proof.
  intros Ho. induction s as [|c s IH]; intros Hs; [reflexivity|].
  unfold no_word_char in Hs. cbn [forallb] in Hs.
  apply andb_prop in Hs as [Hc Hs]. apply negb_true_iff in Hc.
  cbn [Str.replace_go]. rewrite (starts_with_other o old c s Ho Hc).
  f_equal. exact (IH Hs).
Qed.

(** The one occurrence of the word between its punctuation is replaced. *)
Lemma replace_between (pre core post new : text) :
  core <> [] -> forallb Chars.is_word core = true ->
  no_word_char pre = true -> no_word_char post = true ->
  Str.replace core new (pre ++ core ++ post) = pre ++ new ++ post.
Proof.
  intros Hne Hcore Hpre Hpost. destruct core as [|o core]; [congruence|].
  cbn [forallb] in Hcore. apply andb_prop in Hcore as [Ho _].
  unfold Str.replace.
  induction pre as [|p pre IH].
  - cbn [app]. cbn [Str.replace_go].
    pose proof (starts_with_app (o :: core) post) as Hs. cbn [app] in Hs.
    rewrite Hs. f_equal.
    change (List.length (o :: core) - 1) with (List.length core - 0).
    rewrite Nat.sub_0_r, replace_go_skip.
    apply replace_go_outside; assumption.
  - unfold no_word_char in Hpre. cbn [forallb] in Hpre.
    apply andb_prop in Hpre as [Hp Hpre]. apply negb_true_iff in Hp.
    cbn [app Str.replace_go].
    rewrite (starts_with_other o core p _ Ho Hp). f_equal. exact (IH Hpre).
Qed.

Lemma filter_between (pre core post : text) :
  forallb Chars.is_word core = true ->
  no_word_char pre = true -> no_word_char post = true ->
  List.filter Chars.is_word (pre ++ core ++ post) = core.
Proof.
  intros Hcore Hpre Hpost.
  assert (Hnone : forall l, no_word_char l = true -> List.filter Chars.is_word l = []).
  { induction l as [|c l IH]; [reflexivity|]. unfold no_word_char. cbn [forallb].
    intros H. apply andb_prop in H as [Hc Hl]. apply negb_true_iff in Hc.
    cbn [List.filter]. rewrite Hc. exact (IH Hl). }
  assert (Hall : forall l, forallb Chars.is_word l = true -> List.filter Chars.is_word l = l).
  { induction l as [|c l IH]; [reflexivity|]. cbn [forallb].
    intros H. apply andb_prop in H as [Hc Hl].
    cbn [List.filter]. rewrite Hc. f_equal. exact (IH Hl). }
  rewrite !List.filter_app, (Hnone pre Hpre), (Hnone post Hpost), (Hall core Hcore).
  apply app_nil_r.
Qed.

Lemma filter_no_word (w : text) :
  no_word_char w = true -> List.filter Chars.is_word w = [].
Proof.
  induction w as [|c w IH]; [reflexivity|]. unfold no_word_char. cbn [forallb].
  intros H. apply andb_prop in H as [Hc Hl]. apply negb_true_iff in Hc.
  cbn [List.filter]. rewrite Hc. exact (IH Hl).
Qed.

(** *** The loop over the words *)

(** An exempt word is appended as it is; the checker is not called. *)
Lemma check_exempt (sp : Spell.checker) (w : text) :
  exempt w = true -> Spell.check_word sp w = Returned w.
Proof.
  intros He. unfold Spell.check_word. rewrite number_like_spec. cbn [obind].
  destruct (number_word w) eqn:Hn; [reflexivity|].
  destruct (List.length w <=? 2) eqn:Hl; [reflexivity|].
  rewrite sub_nonword. cbn [obind].
  unfold exempt in He. rewrite Hl, orb_false_r in He.
  apply orb_prop in He as [Hp | Hw].
  - destruct w as [|c w]; [discriminate Hl|].
    rewrite (number_word_prices (c :: w)) in Hn; [discriminate | discriminate | exact Hp].
  - rewrite (filter_no_word w Hw). reflexivity.
Qed.

(** A word that the checker knows is appended as it is. *)
Lemma check_known (sp : Spell.checker) (w : text) :
  Spell.known sp (Str.lower (List.filter Chars.is_word w)) = Returned true ->
  Spell.check_word sp w = Returned w.
Proof.
  intros Hk. unfold Spell.check_word. rewrite number_like_spec. cbn [obind].
  destruct (number_word w); [reflexivity|].
  destruct (List.length w <=? 2); [reflexivity|].
  rewrite sub_nonword. cbn [obind].
  destruct (List.filter Chars.is_word w) eqn:E; [reflexivity|].
  rewrite Hk. reflexivity.
Qed.

Lemma check_words_kept (sp : Spell.checker) (ws : list text) :
  (forall w, In w ws -> Spell.check_word sp w = Returned w) ->
  Spell.check_words sp ws = Returned ws.
Proof.
  induction ws as [|w ws IH]; intros H; [reflexivity|].
  cbn [Spell.check_words]. rewrite (H w (or_introl eq_refl)). cbn [obind].
  rewrite IH; [reflexivity|]. intros w' Hin. apply H. right. exact Hin.
Qed.

(** *** Case *)

Lemma upper_plain (s : text) :
  plain_suggestion s = true -> exists u, Str.upper s = Returned u.
Proof.
  induction s as [|c s IH]; intros H; [exists []; reflexivity|].
  unfold plain_suggestion in H. cbn [forallb] in H.
  apply andb_prop in H as [Hc Hs]. destruct (IH Hs) as [u Hu].
  apply andb_prop in Hc as [H1 H2].
  apply negb_true_iff in H1. apply negb_true_iff in H2.
  cbn [Str.upper]. unfold Str.upper_char. rewrite H1, H2. cbn [orb].
  rewrite Hu.
  destruct (Chars.code c =? 223); [eexists; reflexivity|].
  destruct (_ || _); eexists; reflexivity.
Qed.

Lemma capitalize_plain (s : text) :
  plain_suggestion s = true -> exists t, Str.capitalize s = Returned t.
Proof.
  destruct s as [|c s]; intros H; [exists []; reflexivity|].
  unfold plain_suggestion in H. cbn [forallb] in H.
  apply andb_prop in H as [Hc _].
  apply andb_prop in Hc as [H1 H2].
  apply negb_true_iff in H1. apply negb_true_iff in H2.
  unfold Str.capitalize, Str.title_char, Str.upper_char. rewrite H1, H2. cbn [orb].
  destruct (Chars.code c =? 223); [eexists; reflexivity|].
  destruct (_ || _); eexists; reflexivity.
Qed.

(** The case given to a suggestion (lines 130-135). *)
Lemma recase_plain (clean : text) (first : ascii) (s : text) :
  plain_suggestion s = true ->
  exists fixed,
    (if Str.isupper clean then Str.upper s
     else if Str.is_upper_char first then Str.capitalize s
     else Returned s) = Returned fixed.
Proof.
  intros H. destruct (Str.isupper clean); [exact (upper_plain s H)|].
  destruct (Str.is_upper_char first); [exact (capitalize_plain s H)|].
  exists s. reflexivity.
Qed.

Lemma text_eqb_iff (a b : text) : Str.text_eqb a b = true <-> a = b.
Proof. unfold Str.text_eqb. apply bool_decide_eq_true. Qed.

(** A word with a letter, longer than two characters: the loop gets as
    far as the lookup. *)
Lemma check_looked_up (sp : Spell.checker) (w : text) (c : ascii) (clean : text) :
  number_word w = false -> 2 < List.length w ->
  List.filter Chars.is_word w = c :: clean ->
  Spell.check_word sp w
  = obind (Spell.known sp (Str.lower (c :: clean))) (fun correct =>
    if correct then Returned w
    else
      obind (Spell.correction sp (c :: clean)) (fun suggestion =>
      match suggestion with
      | None => Returned w
      | Some s =>
          if negb (Str.text_eqb s []) && negb (Str.text_eqb s (Str.lower (c :: clean)))
          then
            obind (if Str.isupper (c :: clean) then Str.upper s
                   else if Str.is_upper_char c then Str.capitalize s
                   else Returned s) (fun fixed =>
            Returned (Str.replace (c :: clean) fixed w))
          else Returned w
      end)).
Proof.
  intros Hn Hl Hf. unfold Spell.check_word.
  rewrite number_like_spec, Hn. cbn [obind].
  replace (List.length w <=? 2) with false by (symmetry; apply Nat.leb_gt; exact Hl).
  rewrite sub_nonword, Hf. reflexivity.
Qed.

Lemma token_not_number (w : text) :
  is_token w -> forallb price_char w = false -> number_word w = false.
Proof.
  intros [_ Hsp] Hp.
  assert (exists x, In x w /\ price_char x = false) as (x & Hin & Hx).
  { clear Hsp. induction w as [|c w IH]; [discriminate Hp|].
    cbn [forallb] in Hp. destruct (price_char c) eqn:Hc.
    - destruct (IH Hp) as (x & Hin & Hx). exists x. split; [right; exact Hin | exact Hx].
    - exists c. split; [left; reflexivity | exact Hc]. }
  apply (number_word_letter x w Hin Hx).
  rewrite List.Forall_forall in Hsp. specialize (Hsp x Hin).
  intros H10. unfold Chars.is_space, Chars.in_range in Hsp. rewrite H10 in Hsp.
  discriminate Hsp.
Qed.

Lemma some_word_char (w : text) :
  no_word_char w = false -> exists c clean, List.filter Chars.is_word w = c :: clean.
Proof.
  induction w as [|c w IH]; intros H; [discriminate H|].
  unfold no_word_char in H. cbn [forallb] in H. cbn [List.filter].
  destruct (Chars.is_word c); [eexists; eexists; reflexivity|].
  cbn [negb andb] in H. exact (IH H).
Qed.

(** With a checker that answers plainly, every call of the loop body
    returns or raises. *)
Lemma check_word_plain (sp : Spell.checker) (w : text) :
  answers_plainly sp -> Spell.check_word sp w <> Unmodelled.
Proof.
  intros Hp. unfold Spell.check_word. rewrite number_like_spec. cbn [obind].
  destruct (number_word w); [discriminate|].
  destruct (List.length w <=? 2); [discriminate|].
  rewrite sub_nonword. cbn [obind].
  destruct (List.filter Chars.is_word w) as [|c clean]; [discriminate|].
  destruct (Hp (Str.lower (c :: clean))) as (Hk & _).
  destruct (Hp (c :: clean)) as (_ & Hc & Hs).
  destruct (Spell.known sp (Str.lower (c :: clean))) as [[]| |];
    cbn [obind]; try discriminate; try congruence.
  destruct (Spell.correction sp (c :: clean)) as [[s|]| |];
    cbn [obind]; try discriminate; try congruence.
  destruct (_ && _); [|discriminate].
  destruct (recase_plain (c :: clean) c s (Hs s eq_refl)) as [fixed ->].
  discriminate.
Qed.

Lemma check_words_raise (sp : Spell.checker) (ws : list text) (w : text) :
  answers_plainly sp -> In w ws -> Spell.check_word sp w = Raised ->
  Spell.check_words sp ws = Raised.
Proof.
  intros Hp Hin Hw. induction ws as [|w' ws IH]; [destruct Hin|].
  cbn [Spell.check_words]. destruct Hin as [-> | Hin].
  - rewrite Hw. reflexivity.
  - pose proof (check_word_plain sp w' Hp) as Hu.
    destruct (Spell.check_word sp w'); [|reflexivity | congruence].
    cbn [obind]. rewrite (IH Hin). reflexivity.
Qed.

End SpellFacts.

(** X20: words that need no correction.  When every word of the text is
    a number or a price (digits and $ . , % @ #), has at most two
    characters, has no letter or digit at all, or is known to the checker
    (asked about the lowercase of its letters and digits), the spell
    checking pass returns the words as they are, joined by single
    spaces.  For the exempt words the checker is not called: it may
    raise at every call. *)
Theorem known_words_only_respaced (sp : Spell.checker) (txt : text) :
  (forall w, In w (Str.split txt) ->
     Spec.exempt w = true
     \/ Spell.known sp (Str.lower (List.filter Chars.is_word w)) = Returned true) ->
  Spell.apply_spellcheck true (Some sp) txt
  = Returned (Str.join (T " ") (Str.split txt)).
Proof.
  intros H. unfold Spell.apply_spellcheck. cbn [negb].
  rewrite check_words_kept; [reflexivity|].
  intros w Hin. destruct (H w Hin) as [He | Hk].
  - apply check_exempt. exact He.
  - apply check_known. exact Hk.
Qed.

Lemma known_words_only_respaced_witness :
  Spell.apply_spellcheck true (Some Examples.small_checker) (T " The  cat, is at $3.50 !! ")
  = Returned (T "The cat, is at $3.50 !!")
  /\ Spell.apply_spellcheck true (Some Examples.broken_checker) (T "12.50  ok ...")
     = Returned (T "12.50 ok ...").
Proof.
  split.
  - apply (known_words_only_respaced Examples.small_checker (T " The  cat, is at $3.50 !! ")).
    intros w Hin. vm_compute in Hin.
    destruct Hin as [<- | [<- | [<- | [<- | [<- | [<- | []]]]]]];
      vm_compute; auto.
  - apply (known_words_only_respaced Examples.broken_checker (T "12.50  ok ...")).
    intros w Hin. vm_compute in Hin.
    destruct Hin as [<- | [<- | [<- | []]]]; vm_compute; auto.
Defined.

(** X21: a correction keeps the punctuation and follows the case of the
    word.  For a word longer than two characters made of punctuation,
    then letters and digits with at least one that is no digit, then
    punctuation, whose letters the checker does not know and for which it
    suggests [s] (not empty, not the lowercase of the letters), the loop
    appends the punctuation as it was around: the uppercase of [s] when
    the letters have no lowercase letter and some uppercase one, else [s]
    capitalized when the first letter is uppercase, else [s] itself, so
    that capitals inside the word are lost. *)
Theorem correction_keeps_case_and_punctuation (sp : Spell.checker)
  (pre : text) (c : ascii) (core post s : text) :
  Spec.no_word_char pre = true -> Spec.no_word_char post = true ->
  forallb Chars.is_word (c :: core) = true ->
  existsb (fun x => negb (Chars.is_digit x)) (c :: core) = true ->
  2 < List.length (pre ++ (c :: core) ++ post) ->
  Spell.known sp (Str.lower (c :: core)) = Returned false ->
  Spell.correction sp (c :: core) = Returned (Some s) ->
  s <> [] -> s <> Str.lower (c :: core) ->
  (Str.isupper (c :: core) = true ->
     forall u, Str.upper s = Returned u ->
       Spell.check_word sp (pre ++ (c :: core) ++ post) = Returned (pre ++ u ++ post))
  /\ (Str.isupper (c :: core) = false -> Str.is_upper_char c = true ->
     forall t, Str.capitalize s = Returned t ->
       Spell.check_word sp (pre ++ (c :: core) ++ post) = Returned (pre ++ t ++ post))
  /\ (Str.isupper (c :: core) = false -> Str.is_upper_char c = false ->
       Spell.check_word sp (pre ++ (c :: core) ++ post) = Returned (pre ++ s ++ post)).
Proof.
  intros Hpre Hpost Hcore Hletter Hlen Hknown Hsug Hs1 Hs2.
  assert (Hn : Spec.number_word (pre ++ (c :: core) ++ post) = false).
  { apply existsb_exists in Hletter as (x & Hin & Hx). apply negb_true_iff in Hx.
    rewrite forallb_forall in Hcore.
    destruct (letter_no_price x (Hcore x Hin) Hx) as [Hp H10].
    apply (number_word_letter x); [|exact Hp | exact H10].
    apply in_or_app. right. apply in_or_app. left. exact Hin. }
  pose proof (filter_between pre (c :: core) post Hcore Hpre Hpost) as Hf.
  rewrite (check_looked_up sp _ c core Hn Hlen Hf), Hknown. cbn [obind].
  rewrite Hsug. cbn [obind].
  replace (Str.text_eqb s []) with false
    by (symmetry; apply not_true_is_false; intros H; apply text_eqb_iff in H; congruence).
  replace (Str.text_eqb s (Str.lower (c :: core))) with false
    by (symmetry; apply not_true_is_false; intros H; apply text_eqb_iff in H; congruence).
  cbn [negb andb].
  assert (Hrep : forall fixed,
            Str.replace (c :: core) fixed (pre ++ (c :: core) ++ post)
            = pre ++ fixed ++ post).
  { intros fixed. apply replace_between; [discriminate | assumption..]. }
  split; [|split].
  - intros Hup u Hu. rewrite Hup, Hu. cbn [obind]. rewrite Hrep. reflexivity.
  - intros Hup Hc t Ht. rewrite Hup, Hc, Ht. cbn [obind]. rewrite Hrep. reflexivity.
  - intros Hup Hc. rewrite Hup, Hc. cbn [obind]. rewrite Hrep. reflexivity.
Qed.

Lemma correction_keeps_case_and_punctuation_witness :
  Spell.check_word Examples.small_checker (T "(TEH,") = Returned (T "(THE,")
  /\ Spell.check_word Examples.small_checker (T "(Teh,") = Returned (T "(The,")
  /\ Spell.check_word Examples.small_checker (T "(tEH,") = Returned (T "(the,").
Proof.
  split; [|split].
  - destruct (correction_keeps_case_and_punctuation Examples.small_checker
                (T "(") "T"%char (T "EH") (T ",") (T "the")) as (H & _ & _);
      [reflexivity | reflexivity | reflexivity | reflexivity | simpl; lia
       | reflexivity | reflexivity | discriminate | discriminate |].
    exact (H eq_refl (T "THE") eq_refl).
  - destruct (correction_keeps_case_and_punctuation Examples.small_checker
                (T "(") "T"%char (T "eh") (T ",") (T "the")) as (_ & H & _);
      [reflexivity | reflexivity | reflexivity | reflexivity | simpl; lia
       | reflexivity | reflexivity | discriminate | discriminate |].
    exact (H eq_refl eq_refl (T "The") eq_refl).
  - destruct (correction_keeps_case_and_punctuation Examples.small_checker
                (T "(") "t"%char (T "EH") (T ",") (T "the")) as (_ & _ & H);
      [reflexivity | reflexivity | reflexivity | reflexivity | simpl; lia
       | reflexivity | reflexivity | discriminate | discriminate |].
    exact (H eq_refl eq_refl).
Defined.

(** X22: punctuation inside a word blocks its correction.  When the
    letters and digits of a word do not stand together in it, the loop
    appends the word unchanged whatever the checker suggests: the
    corrected letters are put back with [str.replace], which finds
    nothing to replace. *)
Theorem inner_punctuation_blocks_correction (sp : Spell.checker) (word : text)
  (b : bool) (sug : option text) :
  Str.contains (List.filter Chars.is_word word) word = false ->
  Spell.known sp (Str.lower (List.filter Chars.is_word word)) = Returned b ->
  Spell.correction sp (List.filter Chars.is_word word) = Returned sug ->
  (forall s, sug = Some s -> Spec.plain_suggestion s = true) ->
  Spell.check_word sp word = Returned word.
Proof.
  intros Hc Hknown Hsug Hplain. unfold Spell.check_word.
  rewrite number_like_spec. cbn [obind].
  destruct (Spec.number_word word); [reflexivity|].
  destruct (List.length word <=? 2); [reflexivity|].
  rewrite sub_nonword. cbn [obind].
  destruct (List.filter Chars.is_word word) as [|c clean] eqn:Hf; [reflexivity|].
  rewrite Hknown. cbn [obind]. destruct b; [reflexivity|].
  rewrite Hsug. cbn [obind]. destruct sug as [s|]; [|reflexivity].
  destruct (_ && _); [|reflexivity].
  destruct (recase_plain (c :: clean) c s (Hplain s eq_refl)) as [fixed ->].
  cbn [obind]. rewrite (replace_absent _ _ _ Hc). reflexivity.
Qed.

Lemma inner_punctuation_blocks_correction_witness :
  Spell.check_word Examples.small_checker (T "te'h") = Returned (T "te'h").
Proof.
  apply (inner_punctuation_blocks_correction Examples.small_checker (T "te'h")
           false (Some (T "the")));
    [reflexivity | reflexivity | reflexivity |].
  intros s Hs. injection Hs as <-. reflexivity.
Defined.

(** X23: one failure of the checker discards every correction.  With a
    checker that answers plainly, if the lookup raises for one word of
    the text that is not exempt (or answers no and the request for a
    suggestion raises), the pass returns the text exactly as it came:
    corrections made to the words before are lost and the whitespace is
    left as it was. *)
Theorem checker_failure_discards_all (sp : Spell.checker) (txt w : text) :
  Spec.answers_plainly sp ->
  In w (Str.split txt) -> Spec.exempt w = false ->
  Spell.known sp (Str.lower (List.filter Chars.is_word w)) = Raised
  \/ (Spell.known sp (Str.lower (List.filter Chars.is_word w)) = Returned false
      /\ Spell.correction sp (List.filter Chars.is_word w) = Raised) ->
  Spell.apply_spellcheck true (Some sp) txt = Returned txt.
Proof.
  intros Hp Hin He Hr. unfold Spell.apply_spellcheck. cbn [negb].
  rewrite (check_words_raise sp (Str.split txt) w Hp Hin); [reflexivity|].
  unfold Spec.exempt in He.
  apply orb_false_elim in He as [He Hw]. apply orb_false_elim in He as [Hprice Hlen].
  pose proof (split_tokens txt) as Htok. rewrite List.Forall_forall in Htok.
  pose proof (token_not_number w (Htok w Hin) Hprice) as Hn.
  destruct (some_word_char w Hw) as (c & clean & Hf).
  apply Nat.leb_gt in Hlen.
  rewrite (check_looked_up sp w c clean Hn Hlen Hf). rewrite Hf in Hr.
  destruct Hr as [-> | [-> ->]]; reflexivity.
Qed.

Lemma checker_failure_discards_all_witness :
  Spell.apply_spellcheck true (Some Examples.broken_checker) (T " 12  ok  teh ")
  = Returned (T " 12  ok  teh ").
Proof.
  apply (checker_failure_discards_all Examples.broken_checker (T " 12  ok  teh ") (T "teh")).
  - intros q. repeat split; try discriminate.
  - vm_compute. auto.
  - reflexivity.
  - left. reflexivity.
Defined.

(** ** What the correction tool writes and what learn.py reads *)

Section ReachFacts.
Import Store Train Spec.

Lemma read_samples_paths (fs : gmap text file) :
  forall names l, read_samples fs names = Returned l ->
    Forall (fun smp => exists name, In name names
              /\ smp !! T "json_path" = Some (JStr (path_join TRAINING_DIR name))) l.
Proof.
  induction names as [|name names IH]; intros l; cbn [read_samples].
  - intros [= <-]. constructor.
  - assert (Hweak : forall l' : list (gmap text jval),
            Forall (fun smp => exists name', In name' names
              /\ smp !! T "json_path" = Some (JStr (path_join TRAINING_DIR name'))) l' ->
            Forall (fun smp => exists name', In name' (name :: names)
              /\ smp !! T "json_path" = Some (JStr (path_join TRAINING_DIR name'))) l').
    { intros l' Hl'. eapply List.Forall_impl; [|exact Hl'].
      intros smp (name' & Hin & Hp). exists name'. split; [right; exact Hin | exact Hp]. }
    destruct (Str.ends_with (T ".json") name); [|intros H; apply Hweak, IH, H].
    destruct (fs !! path_join TRAINING_DIR name) as [[d|]|]; try discriminate.
    destruct (read_samples fs names) as [rest| |]; cbn [obind]; try discriminate.
    intros [= <-]. constructor; [|apply Hweak, IH; reflexivity].
    exists name. split; [left; reflexivity | apply lookup_insert_eq].
Qed.

Lemma load_samples_paths (fs : gmap text file) (names : list text)
  (samples : list (gmap text jval)) :
  load_samples fs names = Returned samples ->
  Forall (fun smp => exists name, In name names
            /\ smp !! T "json_path" = Some (JStr (path_join TRAINING_DIR name))) samples.
Proof.
  unfold load_samples. intros H.
  apply obind_returned in H as (l & Hread & Hsort).
  destruct (sorted_by_timestamp_spec l samples Hsort) as [Hperm _].
  eapply Permutation_Forall; [exact Hperm|].
  exact (read_samples_paths fs names l Hread).
Qed.

(** [save_sample] touches the file named by [json_path] and no other. *)
Lemma save_sample_frame (smp : gmap text jval) (fs : gmap text file) (p : text) :
  (forall q, smp !! T "json_path" = Some (JStr q) -> p <> q) ->
  snd (save_sample smp fs) !! p = fs !! p.
Proof.
  intros Hq. unfold save_sample.
  destruct (smp !! T "json_path") as [[q|z]|]; try reflexivity.
  specialize (Hq q eq_refl).
  destruct (smp !! T "id"), (smp !! T "timestamp"), (smp !! T "ocr_text"),
    (smp !! T "corrected_text"), (smp !! T "image_path");
    cbn [snd]; apply lookup_insert_ne; congruence.
Qed.

Lemma correct_loop_frame (p : text) :
  forall (samples : list (gmap text jval)) (inputs : list text) (fs : gmap text file),
    Forall (fun smp => forall q, smp !! T "json_path" = Some (JStr q) -> p <> q) samples ->
    correct_loop samples inputs fs !! p = fs !! p.
Proof.
  induction samples as [|smp samples IH]; intros inputs fs Hs; cbn [correct_loop];
    [reflexivity|].
  inversion Hs as [|? ? Hsmp Hs']; subst.
  destruct (smp !! T "id"); [|reflexivity].
  destruct (smp !! T "image_path"); [|reflexivity].
  destruct (smp !! T "ocr_text") as [ocr|]; [|reflexivity].
  destruct inputs as [|line inputs]; [reflexivity|].
  cbv beta iota zeta.
  destruct (Str.text_eqb (Str.lower (Str.strip line)) (T "q")); [reflexivity|].
  destruct (Str.text_eqb (Str.lower (Str.strip line)) (T "s")); [apply IH; exact Hs'|].
  match goal with
  | |- context [save_sample ?s fs] =>
      assert (Hf : snd (save_sample s fs) !! p = fs !! p);
      [apply save_sample_frame; intros q Hq; apply Hsmp;
       destruct (Str.text_eqb (Str.strip line) []);
       (rewrite lookup_insert_ne in Hq
          by (let H := fresh in intros H; vm_compute in H; discriminate));
       exact Hq
      | destruct (save_sample s fs) as [[u| |] fs'] eqn:E ]
  end; cbn [snd] in Hf; try exact Hf.
  rewrite IH by exact Hs'. exact Hf.
Qed.

Lemma main_frame (names : list text) (inputs : list text) (fs : gmap text file)
  (p : text) :
  (forall name, In name names -> p <> path_join TRAINING_DIR name) ->
  Train.main (Some names) inputs fs !! p = fs !! p.
Proof.
  intros Hp. unfold Train.main.
  destruct (load_samples fs names) as [samples| |] eqn:Hload; try reflexivity.
  apply correct_loop_frame.
  eapply List.Forall_impl; [|exact (load_samples_paths fs names samples Hload)].
  intros smp (name & Hin & Hpath) q Hq. rewrite Hpath in Hq. injection Hq as <-.
  apply Hp. exact Hin.
Qed.

Lemma learner_path_eq (name : text) :
  Str.starts_with (T "/") name = false ->
  path_join Learner.TRAINING_DATA_DIR name
  = T "/home/admin/pi/corrections/training_data/" ++ name.
Proof.
  intros H. unfold path_join at 1. rewrite H.
  change (Str.text_eqb Learner.TRAINING_DATA_DIR []
          || Str.ends_with (T "/") Learner.TRAINING_DATA_DIR) with false.
  reflexivity.
Qed.

Lemma learner_path_not_tool (name name' : text) :
  Str.starts_with (T "/") name = false -> Str.starts_with (T "/") name' = false ->
  path_join Learner.TRAINING_DATA_DIR name <> path_join TRAINING_DIR name'.
Proof.
  intros H H'. rewrite (learner_path_eq name H), (tool_path_eq name' H').
  intros E. apply (f_equal (fun l => nth_error l 15)) in E.
  vm_compute in E. discriminate.
Qed.

Lemma read_all_ext (fs fs' : gmap text file) (names : list text) :
  Forall (fun name => fs' !! path_join Learner.TRAINING_DATA_DIR name
                      = fs !! path_join Learner.TRAINING_DATA_DIR name) names ->
  Learner.read_all fs' names = Learner.read_all fs names.
Proof.
  induction 1 as [|name names Hn _ IH]; [reflexivity|].
  cbn [Learner.read_all]. rewrite Hn, IH. reflexivity.
Qed.

End ReachFacts.

(** X24: the corrections typed into the correction tool never reach
    learn.py.  train.py rewrites files of
    /home/admin/pi/ai_models/training_data/ only, and learn.py reads
    /home/admin/pi/corrections/training_data: whatever is typed in a
    session of the tool, learn.py loads the same samples after it as
    before and comes to the same result (file names as [os.listdir]
    gives them, none starting with a slash). *)
Theorem tool_corrections_not_read_by_learner (names listing inputs : list text)
  (fs : gmap text file) (answer : text) :
  Forall (fun name => Str.starts_with (T "/") name = false) names ->
  Forall (fun name => Str.starts_with (T "/") name = false) listing ->
  Learner.load_training_samples (Some listing) (Train.main (Some names) inputs fs)
  = Learner.load_training_samples (Some listing) fs
  /\ Learner.main (Some listing) (Train.main (Some names) inputs fs) answer
     = Learner.main (Some listing) fs answer.
Proof.
  intros Hnames Hlisting.
  assert (Hload : Learner.load_training_samples (Some listing)
                    (Train.main (Some names) inputs fs)
                  = Learner.load_training_samples (Some listing) fs).
  { cbn [Learner.load_training_samples]. apply read_all_ext.
    rewrite List.Forall_forall in Hnames, Hlisting. apply List.Forall_forall.
    intros name Hin. apply main_frame. intros name' Hin'.
    apply learner_path_not_tool; [apply Hlisting; exact Hin | apply Hnames; exact Hin']. }
  split; [exact Hload|]. unfold Learner.main. rewrite Hload. reflexivity.
Qed.

Lemma tool_corrections_not_read_by_learner_witness :
  Learner.load_training_samples (Some [T "sample_5.json"])
    (Train.main (Some [T "sample_5.json"]) [T "the cat"] Examples.tool_store)
  = Learner.load_training_samples (Some [T "sample_5.json"]) Examples.tool_store
  /\ Learner.main (Some [T "sample_5.json"])
       (Train.main (Some [T "sample_5.json"]) [T "the cat"] Examples.tool_store) (T "y")
     = Learner.main (Some [T "sample_5.json"]) Examples.tool_store (T "y").
Proof.
  apply (tool_corrections_not_read_by_learner [T "sample_5.json"] [T "sample_5.json"]
           [T "the cat"] Examples.tool_store (T "y"));
    repeat constructor.
Defined.

(** ** A capture without a recognized text *)

Section StaleFacts.
Import Device Spec.

Lemma getData_stale (img f : text) (now : Z) (spell : text -> text) (st st' : state) :
  text_file st = Some f ->
  getData (Some img) None now spell st = Returned st' ->
  exists g,
    (Applicator.clean_pipeline (learned_corrections st) spell (read_text f) = Returned g
     \/ (Applicator.clean_pipeline (learned_corrections st) spell (read_text f) = Raised
         /\ g = f))
    /\ st' = playTTS
               (State (last_text_read st) (Some g)
                  (snd (Store.save_training_sample now (T "/tmp/image.jpg") (read_text f)
                          (<[T "/tmp/image.jpg" := FBlob img]> (files st))))
                  (learned_corrections st)
                  (T "Training sample saved"
                   :: T "taking picture. hold still for 5 seconds" :: said st)).
Proof.
  destruct st as [l tf fs lc sd]. cbn [text_file]. intros -> H.
  unfold getData in H. apply obind_returned in H as (st5 & Hclean & [= <-]).
  unfold TRAINING_MODE in Hclean.
  cbv beta iota zeta delta [speak text_file last_text_read files said
                            learned_corrections] in Hclean.
  unfold cleanText in Hclean. cbn [text_file learned_corrections] in Hclean.
  cbn [learned_corrections last_text_read files said].
  destruct (Applicator.clean_pipeline lc spell (read_text f)) as [g| |];
    [| |discriminate]; injection Hclean as <-.
  - exists g. split; [left; reflexivity | reflexivity].
  - exists f. split; [right; split; reflexivity | reflexivity].
Qed.

End StaleFacts.

(** X25: a capture for which Tesseract writes nothing takes the text
    that an earlier capture left in /tmp/text.txt for the text of the new
    photo: in training mode that text, read in text mode, is stored as
    [ocr_text] and [corrected_text] of the new sample beside the new
    photo, "Training sample saved" is announced, and the text goes
    through [cleanText] once more (the file keeps it when [cleanText]
    gives up) and is read out as the page. *)
Theorem stale_text_is_read_again (spell : text -> text) (img f : text) (now : Z)
  (st st' : Device.state) :
  Device.text_file st = Some f ->
  Device.getData (Some img) None now spell st = Returned st' ->
  Device.files st' !! Store.metadata_path_of now
  = Some (FJson (Store.metadata_of now (Device.read_text f)))
  /\ Device.files st' !! Store.image_dest_of now = Some (FBlob img)
  /\ In (T "Training sample saved") (Device.said st')
  /\ exists g,
       (Applicator.clean_pipeline (Device.learned_corrections st) spell
          (Device.read_text f) = Returned g
        \/ (Applicator.clean_pipeline (Device.learned_corrections st) spell
              (Device.read_text f) = Raised /\ g = f))
       /\ Device.text_file st' = Some g
       /\ (Str.strip (Device.read_text g) <> [] ->
           Device.last_text_read st' = Str.strip (Device.read_text g)
           /\ hd_error (Device.said st') = Some (Str.strip (Device.read_text g))).
Proof.
  intros Hf Hget.
  destruct (getData_stale img f now spell st st' Hf Hget) as (g & Hg & ->).
  match goal with |- context [Device.playTTS ?s] => set (st5 := s) end.
  destruct (playTTS_frame st5) as (Hfiles & Htf & (l & Hsaid)).
  rewrite Hfiles, Htf. unfold st5 at 1 2 4. cbn [Device.files Device.text_file].
  assert (Hne : T "/tmp/image.jpg" <> Store.image_dest_of now).
  { rewrite image_dest_eq. intros E.
    apply (f_equal (fun l => nth_error l 1)) in E. vm_compute in E. discriminate. }
  unfold Store.save_training_sample. rewrite lookup_insert_eq.
  rewrite (text_eqb_false _ _ Hne). cbn [snd].
  split; [apply lookup_insert_eq|].
  split.
  { rewrite lookup_insert_ne by (intros E; exact (metadata_path_not_image _ _ E)).
    apply lookup_insert_eq. }
  split; [rewrite Hsaid; apply in_or_app; right; left; reflexivity|].
  exists g. split; [exact Hg|]. split; [reflexivity|].
  intros Hne'.
  destruct (playTTS_read st5 g eq_refl) as [Hread _].
  destruct (Hread Hne') as [H1 H2]. rewrite H1, H2. split; reflexivity.
Qed.

Lemma stale_text_is_read_again_witness :
  exists st',
    Device.getData (Some (T "jpeg")) None 1700000007 (fun t => t)
      (Device.State [] (Some Examples.cr_page) ∅ Examples.damaged_rules [])
    = Returned st'
    /\ Device.files st' !! Store.metadata_path_of 1700000007
       = Some (FJson (Store.metadata_of 1700000007
                        (T "teh" ++ [ascii_of_nat 10] ++ T "cat")))
    /\ Device.text_file st' = Some Examples.cr_page
    /\ Device.last_text_read st' = T "teh" ++ [ascii_of_nat 10] ++ T "cat".
Proof.
  destruct (Device.getData (Some (T "jpeg")) None 1700000007 (fun t => t)
              (Device.State [] (Some Examples.cr_page) ∅ Examples.damaged_rules []))
    as [st'| |] eqn:E.
  - exists st'. split; [reflexivity|].
    destruct (stale_text_is_read_again (fun t => t) (T "jpeg") Examples.cr_page
                1700000007
                (Device.State [] (Some Examples.cr_page) ∅ Examples.damaged_rules [])
                st' eq_refl E) as (H1 & _ & _ & (g & Hg & Htf & H2)).
    split; [exact H1|].
    assert (Hgv : g = Examples.cr_page).
    { destruct Hg as [Hg | [_ Hg]]; [|exact Hg]. exfalso.
      cbn [Device.learned_corrections] in Hg.
      assert (Hc : Applicator.clean_pipeline Examples.damaged_rules (fun t => t)
                     (Device.read_text Examples.cr_page) = Raised)
        by (vm_compute; reflexivity).
      rewrite Hc in Hg. discriminate Hg. }
    subst g. split; [exact Htf|].
    destruct H2 as [H2 _]; [vm_compute; discriminate|]. exact H2.
  - exfalso.
    assert (H : match Device.getData (Some (T "jpeg")) None 1700000007 (fun t => t)
                  (Device.State [] (Some Examples.cr_page) ∅ Examples.damaged_rules [])
                with Returned _ => true | _ => false end = true)
      by (vm_compute; reflexivity).
    rewrite E in H. discriminate H.
  - exfalso.
    assert (H : match Device.getData (Some (T "jpeg")) None 1700000007 (fun t => t)
                  (Device.State [] (Some Examples.cr_page) ∅ Examples.damaged_rules [])
                with Returned _ => true | _ => false end = true)
      by (vm_compute; reflexivity).
    rewrite E in H. discriminate H.
Defined.

(** ** The same words on both sides *)

Section SameWords.
Import Difflib Scan Learn.
Variable a : list text.
Hypothesis Hshort : List.length a < 200.

Lemma same_at_diag (i : nat) : i < List.length a -> same_at a a i i = true.
Proof.
  intros Hi. unfold same_at.
  destruct (nth_error a i) as [x|] eqn:Hx; [apply text_eqb_refl|].
  apply nth_error_None in Hx. lia.
Qed.

Lemma run_diag (i : nat) : i < List.length a -> run a a 0 0 i i = S i.
Proof.
  induction i as [|i IH]; intros Hi; rewrite run_unfold, (same_at_diag _ Hi);
    cbn [andb Nat.leb prev_run]; [reflexivity|].
  rewrite IH by lia. reflexivity.
Qed.

Lemma flm_same :
  0 < List.length a ->
  find_longest_match a a (0, List.length a, 0, List.length a)
  = (0, 0, List.length a).
Proof.
  intros Hpos. set (n := List.length a) in *.
  unfold find_longest_match.
  assert (Hrows : rows a a (seq 0 (n - 0)) 0 n [] (0, 0, 0) = (0, 0, n)).
  { replace (0, 0, n) with (n - 1 + 1 - n, n - 1 + 1 - n, n)
      by (repeat f_equal; lia).
    apply (rows_candidate a a Hshort 0 n 0 n (n - 1) (n - 1) n); try lia.
    - subst n. rewrite run_diag by lia. lia.
    - intros i j Hi Hj. pose proof (run_le_a a a 0 0 i j). lia.
    - intros i j Hi Hj Hr.
      pose proof (run_le_a a a 0 0 i j). pose proof (run_le_b a a 0 0 i j). lia. }
  rewrite Hrows. cbn [fst extend_left].
  destruct n as [|n']; [lia|]. cbn [extend_right].
  replace (0 + S n' <? S n') with false by (symmetry; apply Nat.ltb_ge; lia).
  reflexivity.
Qed.

(** Two equal sequences are one block. *)
Lemma opcodes_same : 0 < List.length a ->
  get_opcodes a a = [(Equal, 0, List.length a, 0, List.length a)].
Proof.
  intros Hpos. unfold get_opcodes, get_matching_blocks, loop_fuel.
  cbv zeta.
  replace (2 * List.length a + 2) with (S (S (2 * List.length a))) by lia.
  cbn [blocks_loop]. rewrite flm_same by exact Hpos.
  assert (Hn : (List.length a =? 0) = false) by (apply Nat.eqb_neq; lia).
  assert (Hlt : (List.length a <? List.length a) = false) by (apply Nat.ltb_ge; lia).
  rewrite Hn. change (0 + List.length a) with (List.length a). rewrite Hlt.
  change (0 <? 0) with false. cbn [andb rev app].
  cbn [sort_blocks fold_right insert_block collapse].
  change (0 + 0 =? 0) with true. cbn [andb]. change (0 + List.length a) with (List.length a).
  rewrite Hn. cbn [app opcodes_from]. change (0 <? 0) with false. cbn [andb].
  rewrite Hn. change (0 + List.length a) with (List.length a). rewrite Hlt.
  change (0 =? 0) with true. cbn [andb app]. reflexivity.
Qed.

End SameWords.

Section RespacingFacts.
Import Difflib Learn.

Lemma same_words_no_observation (s : sample) :
  Str.split (ocr_text s) = Str.split (corrected_text s) ->
  List.length (Str.split (ocr_text s)) < 200 ->
  sample_observations s = [].
Proof.
  intros Hw Hlen. unfold sample_observations.
  destruct (Str.text_eqb (ocr_text s) (corrected_text s)); [reflexivity|].
  cbv zeta. rewrite <- Hw.
  destruct (Str.split (ocr_text s)) as [|w ws] eqn:E; [reflexivity|].
  rewrite (opcodes_same (w :: ws) Hlen) by (simpl; lia).
  reflexivity.
Qed.

End RespacingFacts.

(** X26: a correction that changes only the spacing teaches nothing.
    When in every sample the corrected text has the words of the OCR
    text (fewer than 200 of them), in the same order, whatever the
    whitespace between and around them, the extractor makes no
    observation and [analyze_corrections] returns an empty table, so
    that [main] of learn.py reports that no corrections were found. *)
Theorem respacing_teaches_nothing (samples : list sample) :
  Forall (fun s => Str.split (ocr_text s) = Str.split (corrected_text s)
                   /\ List.length (Str.split (ocr_text s)) < 200) samples ->
  Learn.observations samples = []
  /\ Learn.analyze_corrections samples = [].
Proof.
  intros H.
  assert (Hobs : Learn.observations samples = []).
  { unfold Learn.observations. induction H as [|s samples [Hw Hlen] _ IH]; [reflexivity|].
    cbn [flat_map]. rewrite IH, app_nil_r.
    apply same_words_no_observation; assumption. }
  split; [exact Hobs | apply analyze_nil; exact Hobs].
Qed.

Lemma respacing_teaches_nothing_witness :
  Learn.observations [Sample (T "sample_1") 1 Examples.page (T "teh cat") (T "1.jpg")]
  = []
  /\ Learn.analyze_corrections
       [Sample (T "sample_1") 1 Examples.page (T "teh cat") (T "1.jpg")] = [].
Proof.
  apply (respacing_teaches_nothing
           [Sample (T "sample_1") 1 Examples.page (T "teh cat") (T "1.jpg")]).
  constructor; [|constructor]. split; [reflexivity | simpl; lia].
Defined.

(** ** A file that cannot be loaded *)

Section BadFileFacts.
Import Store Train Spec.

Lemma read_samples_outcome (fs : gmap text file) (names : list text) :
  read_samples fs names <> Unmodelled.
Proof.
  induction names as [|name names IH]; cbn [read_samples]; [discriminate|].
  destruct (Str.ends_with (T ".json") name); [|exact IH].
  destruct (fs !! path_join TRAINING_DIR name) as [[d|]|]; try discriminate.
  destruct (read_samples fs names); cbn [obind]; congruence.
Qed.

Lemma read_samples_bad (fs : gmap text file) (name : text) :
  Str.ends_with (T ".json") name = true ->
  (forall d, fs !! path_join TRAINING_DIR name <> Some (FJson d)) ->
  forall names, In name names -> read_samples fs names = Raised.
Proof.
  intros Hjson Hbad. induction names as [|n names IH]; intros Hin; [destruct Hin|].
  cbn [read_samples]. destruct Hin as [-> | Hin].
  - rewrite Hjson. destruct (fs !! path_join TRAINING_DIR name) as [[d|]|] eqn:E;
      [exfalso; exact (Hbad d eq_refl) | reflexivity | reflexivity].
  - destruct (Str.ends_with (T ".json") n); [|exact (IH Hin)].
    destruct (fs !! path_join TRAINING_DIR n) as [[d|]|]; try reflexivity.
    rewrite (IH Hin). reflexivity.
Qed.

Lemma read_samples_in (fs : gmap text file) (name : text) (d : gmap text jval) :
  Str.ends_with (T ".json") name = true ->
  fs !! path_join TRAINING_DIR name = Some (FJson d) ->
  forall names l, In name names -> read_samples fs names = Returned l ->
    In (<[T "json_path" := JStr (path_join TRAINING_DIR name)]> d) l.
Proof.
  intros Hjson Hfile. induction names as [|n names IH]; intros l Hin Hread;
    [destruct Hin|].
  cbn [read_samples] in Hread. destruct Hin as [-> | Hin].
  - rewrite Hjson, Hfile in Hread.
    apply obind_returned in Hread as (rest & _ & [= <-]). left. reflexivity.
  - destruct (Str.ends_with (T ".json") n); [|exact (IH l Hin Hread)].
    destruct (fs !! path_join TRAINING_DIR n) as [[d'|]|]; try discriminate.
    apply obind_returned in Hread as (rest & Hrest & [= <-]).
    right. exact (IH rest Hin Hrest).
Qed.

Lemma with_keys_missing (smp : gmap text jval) :
  smp !! T "timestamp" = None ->
  forall l, In smp l -> with_keys l <> Unmodelled -> with_keys l = Raised.
Proof.
  intros Hts. induction l as [|s l IH]; intros Hin Hu; [destruct Hin|].
  cbn [with_keys] in *. destruct Hin as [-> | Hin].
  - rewrite Hts. reflexivity.
  - destruct (s !! T "timestamp"); [|reflexivity].
    destruct (with_keys l) eqn:E; cbn [obind] in *; try congruence.
    exfalso. assert (H : Returned v = Raised) by (apply IH; [exact Hin | discriminate]).
    discriminate H.
Qed.

Lemma with_keys_outcome (l : list (gmap text jval)) : with_keys l <> Unmodelled.
Proof.
  induction l as [|s l IH]; cbn [with_keys]; [discriminate|].
  destruct (s !! T "timestamp"); [|discriminate].
  destruct (with_keys l); cbn [obind]; congruence.
Qed.

End BadFileFacts.

(** X27: one file that cannot be loaded stops the correction tool
    before its first prompt.  If the listing of the training directory
    names a file [*.json] that is missing, that is not a JSON object, or
    whose object has no [timestamp], [load_samples] raises, [main] ends
    there, and the store is left exactly as it was, whatever is typed:
    no sample can be corrected until the file is removed. *)
Theorem one_bad_file_stops_tool (names inputs : list text) (fs : gmap text file)
  (name : text) :
  In name names -> Str.ends_with (T ".json") name = true ->
  fs !! Store.path_join Train.TRAINING_DIR name = None
  \/ (exists bytes, fs !! Store.path_join Train.TRAINING_DIR name = Some (FBlob bytes))
  \/ (exists d, fs !! Store.path_join Train.TRAINING_DIR name = Some (FJson d)
                /\ d !! T "timestamp" = None) ->
  Train.load_samples fs names = Raised
  /\ Train.main (Some names) inputs fs = fs.
Proof.
  intros Hin Hjson Hbad.
  assert (Hload : Train.load_samples fs names = Raised).
  { unfold Train.load_samples.
    destruct Hbad as [Hnone | [(bytes & Hblob) | (d & Hd & Hts)]].
    - rewrite (read_samples_bad fs name Hjson); [reflexivity | | exact Hin].
      intros d E. congruence.
    - rewrite (read_samples_bad fs name Hjson); [reflexivity | | exact Hin].
      intros d E. congruence.
    - pose proof (read_samples_outcome fs names) as Hu.
      destruct (Train.read_samples fs names) as [l| |] eqn:Hread;
        [|reflexivity | congruence].
      cbn [obind]. unfold Train.sorted_by_timestamp.
      rewrite (with_keys_missing
                 (<[T "json_path" := JStr (Store.path_join Train.TRAINING_DIR name)]> d));
        [reflexivity | | | apply with_keys_outcome].
      + rewrite lookup_insert_ne
          by (let E := fresh in intros E; vm_compute in E; discriminate).
        exact Hts.
      + exact (read_samples_in fs name d Hjson Hd names l Hin Hread). }
  split; [exact Hload|]. unfold Train.main. rewrite Hload. reflexivity.
Qed.

Lemma one_bad_file_stops_tool_witness :
  Train.load_samples Examples.tool_store [T "sample_5.json"; T "notes.json"] = Raised
  /\ Train.main (Some [T "sample_5.json"; T "notes.json"]) [T "the cat"]
       Examples.tool_store = Examples.tool_store.
Proof.
  apply (one_bad_file_stops_tool [T "sample_5.json"; T "notes.json"] [T "the cat"]
           Examples.tool_store (T "notes.json")).
  - right. left. reflexivity.
  - reflexivity.
  - left. unfold Examples.tool_store. rewrite lookup_insert_ne.
    + apply lookup_empty.
    + intros E. apply (f_equal (@List.length _)) in E. vm_compute in E. discriminate.
Defined.
